(** * Kingston voice server (src/voice/xtts/server.py): a shallow embedding

    The module state of the server (engine handles, preset cache, active
    voice) and the directory tree below [VOICES_DIR] are threaded explicitly
    through every operation.  External engines (transformers, EnCodec,
    torchaudio, ffmpeg, pathlib, the Unicode database) are consumed through
    the record [Env]; everything the server itself decides is written out. *)

From Stdlib Require Import String Ascii NArith ZArith List Bool Lia Sorted.
From Stdlib Require Import DecimalString SpecFloat.
From stdpp Require Import gmap list.
Import ListNotations.

(** ** Python strings *)

(** A Python [str] is a sequence of Unicode code points. *)
Abbreviation char := N (only parsing).
Abbreviation str := (list N) (only parsing).

(** Literals: the code points of an ASCII literal of the source. *)
Definition py (s : string) : str :=
  List.map N_of_ascii (list_ascii_of_string s).

(** Truth value of a [str]: the empty string is falsy. *)
Definition truthy (s : str) : bool :=
  match s with [] => false | _ :: _ => true end.

(** [a or b] on optional strings: [a] when it is truthy, else [b]. *)
Definition py_or (a b : option str) : option str :=
  match a with
  | Some (_ :: _) => a
  | _ => b
  end.

(** [s.startswith(p)] and [s.endswith(p)] *)
Fixpoint startswith (p s : str) : bool :=
  match p, s with
  | [], _ => true
  | _ :: _, [] => false
  | a :: p', b :: s' => (a =? b)%N && startswith p' s'
  end.

Definition endswith (p s : str) : bool := startswith (rev p) (rev s).

(** [c in lit] for a one-character string [c]. *)
Definition char_in (c : char) (lit : str) : bool :=
  existsb (N.eqb c) lit.

(** [str.isalnum] on an ASCII character: digits and letters. *)
Definition ascii_isalnum (c : char) : bool :=
  ((48 <=? c) && (c <=? 57)
   || (65 <=? c) && (c <=? 90)
   || (97 <=? c) && (c <=? 122))%N.

(** Lexicographic comparison, as Python orders [str] (by code point) and
    pathlib orders paths (by their parts). *)
Fixpoint lex_leb {A} (ltb eqb : A -> A -> bool) (a b : list A) : bool :=
  match a, b with
  | [], _ => true
  | _ :: _, [] => false
  | x :: a', y :: b' => ltb x y || (eqb x y && lex_leb ltb eqb a' b')
  end.

Definition str_leb : str -> str -> bool := lex_leb N.ltb N.eqb.
Definition str_eqb (a b : str) : bool := bool_decide (a = b).
Definition str_ltb (a b : str) : bool := str_leb a b && negb (str_eqb a b).

(** [sorted(...)]: insertion into an ordered list. *)
Fixpoint insert_by {A} (leb : A -> A -> bool) (x : A) (l : list A) : list A :=
  match l with
  | [] => [x]
  | y :: l' => if leb x y then x :: l else y :: insert_by leb x l'
  end.

Definition sorted_by {A} (leb : A -> A -> bool) (l : list A) : list A :=
  List.fold_right (insert_by leb) [] l.

(** ** Paths below VOICES_DIR *)

(** A path is the list of its parts below [VOICES_DIR]; [[]] is
    [VOICES_DIR] itself. *)
Abbreviation path := (list (list N)) (only parsing).

Definition VOICES_DIR : path := [].

(** [p / s] for a part [s] without a separator; [p / ""] is [p]. *)
Definition pjoin (p : path) (s : str) : path :=
  match s with
  | [] => p
  | _ :: _ => p ++ [s]
  end.

Notation "p </> s" := (pjoin p s) (at level 40, left associativity).

Definition parent (p : path) : path := removelast p.
Definition name_of (p : path) : str := List.last p [].
Definition path_leb : path -> path -> bool := lex_leb str_ltb str_eqb.

(** ** Values kept in memory and on disk *)

(** A Bark voice preset: the three prompt arrays. *)
Record preset := {
  semantic_prompt : list Z;
  coarse_prompt : list (list Z);
  fine_prompt : list (list Z);
}.

(** A JSON scalar, and [meta.json] as the object it holds. *)
Inductive jval :=
| JStr (s : str)
| JNum (n : Z).

Inductive file :=
| FBytes (b : list N)                 (* an upload, or ffmpeg's output *)
| FNpz (p : preset)                   (* np.savez of a preset *)
| FJson (m : gmap (list N) jval).     (* json.dumps of an object *)

Inductive node :=
| Dir
| File (f : file).

Abbreviation fs := (gmap (list (list N)) node) (only parsing).

Inductive dtype := float16 | float32.
Inductive device_t := cuda | cpu.

Record BarkProcessor := { p_dtype : dtype }.

Record BarkModel := {
  m_dtype : dtype;
  m_device : device_t;
  m_eval : bool;
  m_cpu_offload : bool;
}.

(** The module's global state, and the tree below [VOICES_DIR]. *)
Record state := {
  bark_model : option BarkModel;
  bark_processor : option BarkProcessor;
  voice_presets : gmap (list N) preset;
  active_voice : option (list N);
  disk : gmap (list (list N)) node;
}.

(** ** Exceptions *)

Inductive exn :=
| HTTPException (status : nat) (detail : str)
| OSError          (* pathlib and file I/O on a tree of the wrong shape *)
| IndexError
| TypeError
| ValueError       (* json.loads, np.load on a file of another kind *)
| CalledProcessError (msg : str)   (* subprocess.run(..., check=True) *)
| EngineError.     (* raised inside an external engine *)

(** [str(e)]: the message an exception carries, or its class name where
    the model keeps no message. *)
Definition exn_text (e : exn) : str :=
  match e with
  | HTTPException _ detail => detail
  | CalledProcessError msg => msg
  | OSError => py "OSError"
  | IndexError => py "IndexError"
  | TypeError => py "TypeError"
  | ValueError => py "ValueError"
  | EngineError => py "EngineError"
  end.

Inductive result (A : Type) :=
| Ok (a : A)
| Raise (e : exn).

Arguments Ok {A} a.
Arguments Raise {A} e.

(** What a run of ffmpeg yields: the converted audio, or the text of the
    exception [subprocess.run(..., check=True)] raises. *)
Inductive ffmpeg_outcome :=
| Converted (out : list N)
| Failed (msg : list N).

(** ** The external collaborators *)

Record Env := {
  (** the Unicode database: [str.isalnum] outside ASCII, [str.lower] *)
  unicode_isalnum : N -> bool;
  str_lower : list N -> list N;
  (** pathlib: [Path(filename).suffix] *)
  path_suffix : list N -> list N;
  (** torch and transformers *)
  cuda_available : bool;
  processor_from_pretrained : dtype -> bool;
  model_from_pretrained : dtype -> bool;
  enable_cpu_offload : bool;
  (** EnCodec and torchaudio; [sample] is the element type of a waveform *)
  sample : Type;
  encodec_model_24khz : option (nat * nat);
  torchaudio_load : file -> option (list (list sample) * nat);
  convert_audio :
    list (list sample) -> nat -> nat -> nat -> option (list (list sample));
  encodec_encode : list (list sample) -> option (list (list Z));
  (** ffmpeg, from the input path, the output path and the input's content *)
  ffmpeg : list (list N) -> list (list N) -> file -> ffmpeg_outcome;
}.

(** ** State and exception passing *)

Definition M (A : Type) : Type := state -> result A * state.

Definition ret {A} (a : A) : M A := fun st => (Ok a, st).

Definition raise {A} (e : exn) : M A := fun st => (Raise e, st).

Definition bind {A B} (m : M A) (k : A -> M B) : M B :=
  fun st =>
    match m st with
    | (Ok a, st') => k a st'
    | (Raise e, st') => (Raise e, st')
    end.

(** [try: m except Exception as e: h e] *)
Definition try_except {A} (m : M A) (h : exn -> M A) : M A :=
  fun st =>
    match m st with
    | (Ok a, st') => (Ok a, st')
    | (Raise e, st') => h e st'
    end.

Definition gets {A} (f : state -> A) : M A := fun st => (Ok (f st), st).
Definition modify (f : state -> state) : M unit := fun st => (Ok tt, f st).

Notation "x <- m ;; k" := (bind m (fun x => k))
  (at level 100, m at next level, right associativity).

Definition set_bark_model (v : option BarkModel) (st : state) : state :=
  {| bark_model := v; bark_processor := bark_processor st;
     voice_presets := voice_presets st; active_voice := active_voice st;
     disk := disk st |}.

Definition set_bark_processor (v : option BarkProcessor) (st : state) : state :=
  {| bark_model := bark_model st; bark_processor := v;
     voice_presets := voice_presets st; active_voice := active_voice st;
     disk := disk st |}.

Definition set_voice_presets (v : gmap (list N) preset) (st : state) : state :=
  {| bark_model := bark_model st; bark_processor := bark_processor st;
     voice_presets := v; active_voice := active_voice st;
     disk := disk st |}.

Definition set_active_voice (v : option str) (st : state) : state :=
  {| bark_model := bark_model st; bark_processor := bark_processor st;
     voice_presets := voice_presets st; active_voice := v;
     disk := disk st |}.

Definition set_disk (v : fs) (st : state) : state :=
  {| bark_model := bark_model st; bark_processor := bark_processor st;
     voice_presets := voice_presets st; active_voice := active_voice st;
     disk := v |}.

(** ** The directory tree *)

(** [p.exists()], [p.is_dir()] *)
Definition path_exists (d : fs) (p : path) : bool :=
  match d !! p with Some _ => true | None => false end.

Definition is_dir (d : fs) (p : path) : bool :=
  match d !! p with Some Dir => true | _ => false end.

(** [p.mkdir(parents=True, exist_ok=True)]: every prefix of [p] becomes a
    directory; a prefix that is a file raises. *)
Fixpoint mkdir_from (d : fs) (base : path) (rest : list str) : result fs :=
  match d !! base with
  | Some (File _) => Raise OSError
  | _ =>
    let d' := <[base := Dir]> d in
    match rest with
    | [] => Ok d'
    | s :: rest' => mkdir_from d' (base ++ [s]) rest'
    end
  end.

Definition mkdir_parents (d : fs) (p : path) : result fs := mkdir_from d [] p.

(** Writing a file: its parent is a directory and the path itself is not. *)
Definition write_file (d : fs) (p : path) (f : file) : result fs :=
  if is_dir d (parent p) && negb (is_dir d p)
  then Ok (<[p := File f]> d)
  else Raise OSError.

Definition read_file (d : fs) (p : path) : result file :=
  match d !! p with
  | Some (File f) => Ok f
  | _ => Raise OSError
  end.

(** The entries directly inside [p]. *)
Definition is_child (p q : path) : bool :=
  match q with
  | [] => false
  | _ :: _ => bool_decide (parent q = p)
  end.

Definition children (d : fs) (p : path) : list path :=
  List.filter (is_child p) (List.map fst (map_to_list d)).

(** [p.iterdir()] *)
Definition iterdir (d : fs) (p : path) : result (list path) :=
  if is_dir d p then Ok (children d p) else Raise OSError.

(** [p.glob("*" + ext)]: nothing when [p] is no directory. *)
Definition glob_ext (d : fs) (p : path) (ext : str) : list path :=
  if is_dir d p
  then List.filter (fun q => endswith ext (name_of q)) (children d p)
  else [].

(** ** The server *)

Section Server.
Variable E : Env.

(** [c.isalnum()] *)
Definition isalnum (c : char) : bool :=
  if (c <? 128)%N then ascii_isalnum c else unicode_isalnum E c.

(** [c.isalnum() or c in "-_"] *)
Definition keep (c : char) : bool :=
  isalnum c || char_in c (py "-_").

(** [safe = "".join(c for c in name if c.isalnum() or c in "-_")] *)
Definition safe (name : str) : str := List.filter keep name.

Definition get_voice_dir (name : str) : path := VOICES_DIR </> safe name.

(** [find_reference_audio]: the first [*.wav], else the first [*.mp3]. *)
Definition find_reference_audio (d : fs) (voice_name : str) : option path :=
  let voice_dir := get_voice_dir voice_name in
  if negb (path_exists d voice_dir) then None
  else
    match sorted_by path_leb (glob_ext d voice_dir (py ".wav")) with
    | f :: _ => Some f
    | [] =>
      match sorted_by path_leb (glob_ext d voice_dir (py ".mp3")) with
      | f :: _ => Some f
      | [] => None
      end
    end.

(** [device] and the [torch_dtype] both sub-models are loaded with. *)
Definition device : device_t := if cuda_available E then cuda else cpu.

Definition torch_dtype : dtype :=
  match device with cuda => float16 | cpu => float32 end.

(** [load_model]: the handles as they are once loaded; otherwise the
    processor, then the model, each assigned to its global as soon as it is
    built, then [eval()] and, on cuda, [enable_cpu_offload()]. *)
Definition load_model : M (BarkModel * option BarkProcessor) :=
  fun st =>
    match bark_model st with
    | Some m => (Ok (m, bark_processor st), st)
    | None =>
      if processor_from_pretrained E torch_dtype then
        let p := {| p_dtype := torch_dtype |} in
        let st1 := set_bark_processor (Some p) st in
        if model_from_pretrained E torch_dtype then
          let m := {| m_dtype := torch_dtype; m_device := device;
                      m_eval := true; m_cpu_offload := false |} in
          match device with
          | cpu => (Ok (m, Some p), set_bark_model (Some m) st1)
          | cuda =>
            if enable_cpu_offload E then
              let m' := {| m_dtype := torch_dtype; m_device := device;
                           m_eval := true; m_cpu_offload := true |} in
              (Ok (m', Some p), set_bark_model (Some m') st1)
            else (Raise EngineError, set_bark_model (Some m) st1)
          end
        else (Raise EngineError, st1)
      else (Raise EngineError, st)
    end.

(** [waveform.shape[-1]] of a (channels x samples) tensor given by its rows. *)
Definition shape_last {A} (w : list (list A)) : nat :=
  match w with
  | r :: _ => length r
  | [] => 0
  end.

(** Lines 155-157: [max_samples] and the cut of the last axis. *)
Definition max_samples (sample_rate : nat) : nat := sample_rate * 10.

Definition trim {A} (max : nat) (w : list (list A)) : list (list A) :=
  if max <? shape_last w then List.map (firstn max) w else w.

(** Lines 145-157: the waveform [encodec_model.encode] is called on. *)
Definition encoder_input (d : fs) (audio_path : path)
  : result (list (list (sample E))) :=
  match encodec_model_24khz E with
  | None => Raise EngineError
  | Some (sample_rate, channels) =>
    match read_file d audio_path with
    | Raise e => Raise e
    | Ok f =>
      match torchaudio_load E f with
      | None => Raise EngineError
      | Some (waveform, sr) =>
        match convert_audio E waveform sr sample_rate channels with
        | None => Raise EngineError
        | Some waveform => Ok (trim (max_samples sample_rate) waveform)
        end
      end
    end
  end.

(** Lines 168-177: the three prompts cut from the code grid;
    [fine_prompt[0, :]] raises on a grid without rows. *)
Definition bark_prompts (codes : list (list Z)) : result preset :=
  let fine := codes in
  let coarse := firstn 2 fine in
  match fine with
  | [] => Raise IndexError
  | semantic :: _ =>
    Ok {| semantic_prompt := semantic; coarse_prompt := coarse;
          fine_prompt := fine |}
  end.

Definition create_voice_preset (audio_path : path) (voice_name : str)
  : M preset :=
  fun st =>
    match encoder_input (disk st) audio_path with
    | Raise e => (Raise e, st)
    | Ok waveform =>
      match encodec_encode E waveform with
      | None => (Raise EngineError, st)
      | Some codes =>
        match bark_prompts codes with
        | Raise e => (Raise e, st)
        | Ok p =>
          let preset_path := get_voice_dir voice_name </> py "voice_preset.npz" in
          match write_file (disk st) preset_path (FNpz p) with
          | Raise e => (Raise e, st)
          | Ok d' =>
            (Ok p,
             set_voice_presets (<[voice_name := p]> (voice_presets st))
               (set_disk d' st))
          end
        end
      end
    end.

(** [get_voice_preset]: the cache, else the archive on disk, else a preset
    made on the spot from the reference audio; a failure there is logged. *)
Definition get_voice_preset (voice_name : str) : M (option preset) :=
  fun st =>
    match voice_presets st !! voice_name with
    | Some p => (Ok (Some p), st)
    | None =>
      let preset_path := get_voice_dir voice_name </> py "voice_preset.npz" in
      if path_exists (disk st) preset_path then
        match disk st !! preset_path with
        | Some (File (FNpz p)) =>
          (Ok (Some p),
           set_voice_presets (<[voice_name := p]> (voice_presets st)) st)
        | Some (File _) => (Raise ValueError, st)
        | _ => (Raise OSError, st)
        end
      else
        match find_reference_audio (disk st) voice_name with
        | Some ref =>
          match create_voice_preset ref voice_name st with
          | (Ok p, st') => (Ok (Some p), st')
          | (Raise _, st') => (Ok None, st')
          end
        | None => (Ok None, st)
        end
    end.

(** [POST /use] *)
Definition use_voice (voice : str) : M str :=
  fun st =>
    let voice_dir := get_voice_dir voice in
    if negb (path_exists (disk st) voice_dir) then
      (Raise (HTTPException 404 (py "Voice '" ++ voice ++ py "' not found")), st)
    else
      (Ok voice, set_active_voice (Some voice) st).

(** The [voice_preset] argument of the processor call. *)
Inductive voice_arg :=
| VPNone
| VPName (tag : str)
| VPData (p : preset).

(** What [tts] hands to the engines: the local [voice_name], the handles
    [load_model] returned, the processor call's arguments and the
    [voice_tag] of the output file. *)
Record synthesis := {
  s_voice_name : option str;
  s_model : BarkModel;
  s_processor : BarkProcessor;
  s_text : str;
  s_voice_preset : voice_arg;
  s_voice_tag : str;
}.

(** [voice_name or "default"] *)
Definition voice_tag_of (voice_name : option str) : str :=
  match voice_name with
  | Some (c :: v) => c :: v
  | _ => py "default"
  end.

(** [POST /tts], lines 253-279 and 296: up to the processor call.  What
    follows (generation, float post-processing, the output file) runs on
    the engines' float arrays. *)
Definition tts (text : str) (voice : option str) (language : str)
  : M synthesis :=
  fun st =>
    let voice_name := py_or voice (active_voice st) in
    match load_model st with
    | (Raise e, st1) => (Raise e, st1)
    | (Ok (model, processor), st1) =>
      let call (arg : voice_arg) (st' : state) : result synthesis * state :=
        match processor with
        | None => (Raise TypeError, st')
        | Some p =>
          (Ok {| s_voice_name := voice_name; s_model := model;
                 s_processor := p; s_text := text; s_voice_preset := arg;
                 s_voice_tag := voice_tag_of voice_name |}, st')
        end in
      match voice_name with
      | Some v =>
        if truthy v && startswith (py "v2/") v then call (VPName v) st1
        else if truthy v then
          match get_voice_preset v st1 with
          | (Raise e, st2) => (Raise e, st2)
          | (Ok (Some preset_data), st2) => call (VPData preset_data) st2
          | (Ok None, st2) => call VPNone st2
          end
        else call VPNone st1
      | None => call VPNone st1
      end
    end.

(** The JSON body [POST /clone] answers with. *)
Record clone_response := {
  r_name : str;
  r_description : str;
  r_language : str;
  r_audio_file : str;
  r_has_preset : bool;
  r_active : bool;
}.

(** The object written to [meta.json] by [clone_voice]. *)
Definition clone_meta (name description language created filename : str)
  (size : nat) : gmap (list N) jval :=
  <[py "name" := JStr name]>
  (<[py "description" := JStr description]>
  (<[py "language" := JStr language]>
  (<[py "created" := JStr created]>
  (<[py "source_file" := JStr filename]>
  (<[py "source_size" := JNum (Z.of_nat size)]> ∅))))).

Definition update_disk (f : fs -> result fs) : M unit :=
  fun st =>
    match f (disk st) with
    | Ok d' => (Ok tt, set_disk d' st)
    | Raise e => (Raise e, st)
    end.

(** [ext = Path(audio.filename).suffix or ".wav"] *)
Definition upload_ext (filename : str) : str :=
  if truthy (path_suffix E filename) then path_suffix E filename
  else py ".wav".

(** [POST /clone]; [created] is the clock's [time.strftime(...)]. *)
Definition clone_voice (name description language : str)
  (filename : str) (content : list N) (created : str)
  : M clone_response :=
  let voice_dir := get_voice_dir name in
  _ <- update_disk (fun d => mkdir_parents d voice_dir) ;;
  let ext := upload_ext filename in
  let audio_path := voice_dir </> (py "reference" ++ ext) in
  _ <- update_disk (fun d => write_file d audio_path (FBytes content)) ;;
  let wav_path := voice_dir </> py "reference.wav" in
  _ <- try_except
         (fun st =>
            match ffmpeg E audio_path wav_path (FBytes content) with
            | Converted out =>
              update_disk (fun d => write_file d wav_path (FBytes out)) st
            | Failed msg => (Raise (CalledProcessError msg), st)
            end)
         (fun e =>
            if negb (str_eqb (str_lower E ext) (py ".wav")) then
              raise (HTTPException 500
                       (py "Cannot convert audio: ffmpeg needed. Error: "
                        ++ exn_text e))
            else ret tt) ;;
  _ <- try_except
         (_ <- create_voice_preset wav_path name ;; ret tt)
         (fun _ => ret tt) ;;
  let meta := clone_meta name description language created filename
                (length content) in
  _ <- update_disk
         (fun d => write_file d (voice_dir </> py "meta.json") (FJson meta)) ;;
  _ <- modify (set_active_voice (Some name)) ;;
  has_preset <-
    gets (fun st => path_exists (disk st) (voice_dir </> py "voice_preset.npz")) ;;
  ret {| r_name := name; r_description := description;
         r_language := language; r_audio_file := py "reference.wav";
         r_has_preset := has_preset; r_active := true |}.

(** One entry of [GET /voices]. *)
Record voice_summary := {
  v_name : str;
  v_description : jval;
  v_language : jval;
  v_audio_files : nat;
  v_has_preset : bool;
  v_created : jval;
}.

(** [meta.get(key, default)] *)
Definition meta_get (meta : gmap (list N) jval) (key : str) (dflt : jval)
  : jval :=
  match meta !! key with
  | Some v => v
  | None => dflt
  end.

(** The body of the loop of [list_voice_profiles] for a directory [p]. *)
Definition profile_summary (d : fs) (p : path) : result voice_summary :=
  let meta_file := p </> py "meta.json" in
  let summary (meta : gmap (list N) jval) :=
    {| v_name := name_of p;
       v_description := meta_get meta (py "description") (JStr (py ""));
       v_language := meta_get meta (py "language") (JStr (py "fr"));
       v_audio_files :=
         length (glob_ext d p (py ".wav") ++ glob_ext d p (py ".mp3")
                 ++ glob_ext d p (py ".npz"));
       v_has_preset := path_exists d (p </> py "voice_preset.npz");
       v_created := meta_get meta (py "created") (JStr (py "")) |} in
  if path_exists d meta_file then
    match d !! meta_file with
    | Some (File (FJson meta)) => Ok (summary meta)
    | Some (File _) => Raise ValueError
    | _ => Raise OSError
    end
  else Ok (summary ∅).

Fixpoint profiles_of (d : fs) (ds : list path) : result (list voice_summary) :=
  match ds with
  | [] => Ok []
  | p :: ds' =>
    if is_dir d p then
      match profile_summary d p with
      | Raise e => Raise e
      | Ok v =>
        match profiles_of d ds' with
        | Raise e => Raise e
        | Ok vs => Ok (v :: vs)
        end
      end
    else profiles_of d ds'
  end.

Definition list_voice_profiles (d : fs) : result (list voice_summary) :=
  if negb (path_exists d VOICES_DIR) then Ok []
  else
    match iterdir d VOICES_DIR with
    | Raise e => Raise e
    | Ok ds => profiles_of d (sorted_by path_leb ds)
    end.

(** [GET /voices] *)
Definition voices : M (list voice_summary * option str) :=
  fun st =>
    match list_voice_profiles (disk st) with
    | Raise e => (Raise e, st)
    | Ok vs => (Ok (vs, active_voice st), st)
    end.

End Server.

(** Line 297: the name of the output file below [OUTPUT_DIR],
    [f"tts_{voice_tag}_{ts}.wav"], for the clock reading [ts] in
    milliseconds. *)
Definition tts_out_name (voice_tag : str) (ts : Z) : str :=
  py "tts_" ++ voice_tag ++ py "_"
  ++ py (NilZero.string_of_int (Z.to_int ts)) ++ py ".wav".

(** ** Normalisation of the generated audio (lines 299-305)

    After the cast of lines 300-301 the samples are IEEE-754 binary32
    numbers, as the specification of floating-point arithmetic of the
    standard library has them: precision 24, exponents up to 128. *)

Definition f32_div : spec_float -> spec_float -> spec_float := SFdiv 24 128.
Definition f32_mul : spec_float -> spec_float -> spec_float := SFmul 24 128.

(** A float32 value: a canonical mantissa and exponent. *)
Definition is_f32 (x : spec_float) : bool := valid_binary 24 128 x.

(** The Python literal [0.95] is the binary64 number
    8556839292003942 * 2^-53; numpy casts it to the array's float32. *)
Definition f32_0_95 : spec_float :=
  binary_normalize 24 128 8556839292003942 (-53) false.

(** [np.maximum] on two elements: a NaN wins, else the greater. *)
Definition np_maximum (a b : spec_float) : spec_float :=
  match a, b with
  | S754_nan, _ => S754_nan
  | _, S754_nan => S754_nan
  | _, _ => if SFltb a b then b else a
  end.

(** [a.max()]: no value for an empty array (numpy raises). *)
Definition np_max (a : list spec_float) : option spec_float :=
  match a with
  | [] => None
  | x :: rest => Some (List.fold_left np_maximum rest x)
  end.

(** Lines 304-305:
    [if np.abs(audio).max() > 0: audio = audio / np.abs(audio).max() * 0.95] *)
Definition normalize (audio : list spec_float) : result (list spec_float) :=
  match np_max (List.map SFabs audio) with
  | None => Raise ValueError
  | Some peak =>
    if SFltb (S754_zero false) peak
    then Ok (List.map (fun x => f32_mul (f32_div x peak) f32_0_95) audio)
    else Ok audio
  end.

(** A magnitude of at most float32(0.95) = 15938355 * 2^-24, and one of at
    most 1, read off the mantissa and the exponent. *)
Definition within_0_95 (r : spec_float) : Prop :=
  match r with
  | S754_zero _ => True
  | S754_finite _ m e => (e < -24 \/ (e = -24 /\ Zpos m <= 15938355))%Z
  | _ => False
  end.

Definition at_most_one (r : spec_float) : Prop :=
  match r with
  | S754_zero _ => True
  | S754_finite _ m e =>
    (Zpos m < 2 ^ (- e))%Z \/ (m = 8388608%positive /\ e = (-23)%Z)
  | _ => False
  end.

(** [np.isfinite] *)
Definition is_finite (x : spec_float) : bool :=
  match x with
  | S754_zero _ | S754_finite _ _ _ => true
  | _ => false
  end.

(** A magnitude, as [np.abs] yields for a finite sample, and the order of
    two magnitudes by exponent, then mantissa. *)
Definition magnitude (x : spec_float) : Prop :=
  match x with
  | S754_zero false | S754_finite false _ _ => True
  | _ => False
  end.

Definition mag_le (a b : spec_float) : Prop :=
  match a, b with
  | S754_zero false, (S754_zero false | S754_finite false _ _) => True
  | S754_finite false m1 e1, S754_finite false m2 e2 =>
    (e1 < e2 \/ (e1 = e2 /\ Zpos m1 <= Zpos m2))%Z
  | _, _ => False
  end.

(** What the normalisation makes of a waveform with an infinite sample. *)
Definition after_infinite_peak (x : spec_float) : spec_float :=
  match x with
  | S754_zero s | S754_finite s _ _ => S754_zero s
  | S754_infinity _ | S754_nan => S754_nan
  end.

(** ** [GET /health]

    The reading of the GPU memory, rounded to two decimals, is a float of
    the engine; its type and value are parameters. *)
Record health_response (G : Type) := {
  h_status : str;
  h_model_loaded : bool;
  h_device : device_t;
  h_active_voice : option str;
  h_voices : nat;
  h_vram_used_gb : Z + G;
}.

Arguments h_status {G} _.
Arguments h_model_loaded {G} _.
Arguments h_device {G} _.
Arguments h_active_voice {G} _.
Arguments h_voices {G} _.
Arguments h_vram_used_gb {G} _.

Section Health.
Variable E : Env.
Variable G : Type.

(** [round(torch.cuda.memory_allocated() / 1e9, 2)] *)
Variable vram_used_gb : G.

Definition health : M (health_response G) :=
  fun st =>
    match list_voice_profiles (disk st) with
    | Raise e => (Raise e, st)
    | Ok vs =>
      (Ok {| h_status := py "ok";
             h_model_loaded :=
               match bark_model st with Some _ => true | None => false end;
             h_device := device E;
             h_active_voice := active_voice st;
             h_voices := length vs;
             h_vram_used_gb :=
               match device E with
               | cuda => inr vram_used_gb
               | cpu => inl 0%Z
               end |},
       st)
    end.

End Health.

(** ** [POST /extract-audio]

    The upload is written to a temporary file below [OUTPUT_DIR], ffmpeg
    cuts the reference audio out of it into the profile directory, and the
    temporary file is unlinked.  [OUTPUT_DIR] lies outside the tree of
    [VOICES_DIR]; its files are kept by the name they are opened with, and
    the operating system's answers to the write and to the unlink are
    parameters of a request. *)

(** What the run of ffmpeg on the temporary video comes to: return code 0
    with the audio written, another return code with the text of stderr,
    or an exception of [subprocess.run] itself (no ffmpeg, the timeout)
    with its text.  A failed run may leave bytes at the output path. *)
Inductive extraction :=
| Exit0 (out : list N)
| ExitNonzero (stderr : str) (partial : option (list N))
| RunRaised (text : str) (partial : option (list N)).

(** [video_path.write_bytes(content)]: the file is written in full, or
    the call raises; [kept] is what a failed call leaves at the path: [None]
    when the file could not be opened, [Some b] when the write broke off
    after the bytes [b]. *)
Inductive write_outcome :=
| Stored
| WriteError (e : exn) (kept : option (list N)).

(** Line 397: [f"temp_{int(time.time())}_{video.filename}"], for the clock
    reading [now] in seconds. *)
Definition temp_name (now : Z) (filename : str) : str :=
  py "temp_" ++ py (NilZero.string_of_int (Z.to_int now)) ++ py "_"
  ++ filename.

Definition write_bytes (w : write_outcome) (name : str) (content : list N)
  (outs : gmap (list N) (list N)) : result unit * gmap (list N) (list N) :=
  match w with
  | Stored => (Ok tt, <[name := content]> outs)
  | WriteError e kept =>
    (Raise e,
     match kept with
     | Some b => <[name := b]> outs
     | None => outs
     end)
  end.

(** [video_path.unlink(missing_ok=True)]: the file is gone afterwards,
    whether it was there or not; [fault] is the error the operating system
    answers an unlink of this path with, if any (a file in use, a
    read-only directory). *)
Definition unlink (fault : option exn) (name : str)
  (outs : gmap (list N) (list N)) : result unit * gmap (list N) (list N) :=
  match fault with
  | Some e => (Raise e, outs)
  | None => (Ok tt, delete name outs)
  end.

(** The JSON body [POST /extract-audio] answers with. *)
Record extract_response := {
  x_name : str;
  x_audio_file : str;
  x_size_kb : N;
  x_has_preset : bool;
  x_active : bool;
}.

(** [round(n / 1024)] for a file size [n]: the quotient is exact in binary
    floating point for every size below 2^53, and [round] takes a tie to
    the even integer. *)
Definition round_kb (n : N) : N :=
  let q := (n / 1024)%N in
  let r := (n mod 1024)%N in
  if (r <? 512)%N then q
  else if (512 <? r)%N then (q + 1)%N
  else if N.even q then q else (q + 1)%N.

(** [p.stat().st_size] of a file of raw bytes. *)
Definition stat_size (d : fs) (p : path) : result N :=
  match d !! p with
  | Some (File (FBytes b)) => Ok (N.of_nat (length b))
  | _ => Raise OSError
  end.

(** The object written to [meta.json] by [extract_audio]. *)
Definition extract_meta (voice_name filename created start_time duration : str)
  : gmap (list N) jval :=
  <[py "name" := JStr voice_name]>
  (<[py "description" := JStr (py "Extracted from " ++ filename)]>
  (<[py "language" := JStr (py "fr")]>
  (<[py "created" := JStr created]>
  (<[py "source_file" := JStr filename]>
  (<[py "extract_start" := JStr start_time]>
  (<[py "extract_duration" := JStr duration]> ∅)))))).

(** What a failed run of ffmpeg left at its output path. *)
Definition leave (partial : option (list N)) (wav_path : path) (st : state)
  : state :=
  match partial with
  | None => st
  | Some b =>
    match write_file (disk st) wav_path (FBytes b) with
    | Ok d' => set_disk d' st
    | Raise _ => st
    end
  end.

Section Extraction.
Variable E : Env.

(** ffmpeg on the stored video, with [-ss start_time -t duration]. *)
Variable ffmpeg_cut : list N -> str -> str -> extraction.

(** The part of [extract_audio] after the [try] statement. *)
Definition save_profile (voice_name filename created start_time duration : str)
  : M extract_response :=
  let voice_dir := get_voice_dir E voice_name in
  let wav_path := voice_dir </> py "reference.wav" in
  _ <- try_except
         (_ <- create_voice_preset E wav_path voice_name ;; ret tt)
         (fun _ => ret tt) ;;
  let meta := extract_meta voice_name filename created start_time duration in
  _ <- update_disk
         (fun d => write_file d (voice_dir </> py "meta.json") (FJson meta)) ;;
  _ <- modify (set_active_voice (Some voice_name)) ;;
  size <- (fun st =>
             match stat_size (disk st) wav_path with
             | Ok n => (Ok n, st)
             | Raise e => (Raise e, st)
             end) ;;
  has_preset <-
    gets (fun st =>
            path_exists (disk st) (voice_dir </> py "voice_preset.npz")) ;;
  ret {| x_name := voice_name; x_audio_file := py "reference.wav";
         x_size_kb := round_kb size; x_has_preset := has_preset;
         x_active := true |}.

(** [POST /extract-audio]; [created] is the clock's [time.strftime(...)],
    [now] its [time.time()], [w] and [fault] the answers to the write and
    to the unlinks of the temporary file.  The third component is
    [OUTPUT_DIR] after the request. *)
Definition extract_audio (voice_name filename : str) (content : list N)
  (start_time duration created : str) (now : Z)
  (w : write_outcome) (fault : option exn)
  (st : state) (outs : gmap (list N) (list N))
  : result extract_response * state * gmap (list N) (list N) :=
  let voice_dir := get_voice_dir E voice_name in
  match update_disk (fun d => mkdir_parents d voice_dir) st with
  | (Raise e, st1) => (Raise e, st1, outs)
  | (Ok _, st1) =>
    let video_path := temp_name now filename in
    match write_bytes w video_path content outs with
    | (Raise e, outs1) => (Raise e, st1, outs1)
    | (Ok _, outs1) =>
      let wav_path := voice_dir </> py "reference.wav" in
      (* except: unlink, raise HTTPException; finally: unlink *)
      let failed (text : str) (st2 : state) :=
        match unlink fault video_path outs1 with
        | (Raise e, outs2) =>
          match unlink fault video_path outs2 with
          | (Raise e', outs3) => (Raise e', st2, outs3)
          | (Ok _, outs3) => (Raise e, st2, outs3)
          end
        | (Ok _, outs2) =>
          match unlink fault video_path outs2 with
          | (Raise e', outs3) => (Raise e', st2, outs3)
          | (Ok _, outs3) =>
            (Raise (HTTPException 500
                      (py "Audio extraction failed: " ++ text)),
             st2, outs3)
          end
        end in
      match ffmpeg_cut content start_time duration with
      | RunRaised text partial => failed text (leave partial wav_path st1)
      | ExitNonzero stderr partial =>
        failed (firstn 500 stderr) (leave partial wav_path st1)
      | Exit0 out =>
        match update_disk (fun d => write_file d wav_path (FBytes out)) st1
        with
        | (Raise e, st2) => failed (exn_text e) st2
        | (Ok _, st2) =>
          (* finally: unlink *)
          match unlink fault video_path outs1 with
          | (Raise e, outs2) => (Raise e, st2, outs2)
          | (Ok _, outs2) =>
            let (r, st3) :=
              save_profile voice_name filename created start_time duration
                st2
            in (r, st3, outs2)
          end
        end
      end
    end
  end.

End Extraction.

(** * The code-request skill (skills/code_request.py)

    [run(args, fetch, log, ...)] receives its collaborators as arguments:
    [log] and [fetch] are modelled as functions that return or raise, and
    the calls made to them are recorded in order. *)

(** The scalars a JSON argument object holds, as Python values (floats,
    lists and nested objects are left out of the model). *)
Inductive pyval :=
| PNone
| PBool (b : bool)
| PInt (z : Z)
| PStr (s : str).

(** [bool(v)] *)
Definition py_truth (v : pyval) : bool :=
  match v with
  | PNone => false
  | PBool b => b
  | PInt z => negb (z =? 0)%Z
  | PStr s => truthy s
  end.

(** [str(v)], as an f-string renders a value. *)
Definition py_str (v : pyval) : str :=
  match v with
  | PNone => py "None"
  | PBool true => py "True"
  | PBool false => py "False"
  | PInt z => py (NilZero.string_of_int (Z.to_int z))
  | PStr s => s
  end.

(** [args.get(key)] *)
Definition args_get (args : gmap (list N) pyval) (key : str) : pyval :=
  match args !! key with
  | Some v => v
  | None => PNone
  end.

(** A call made to a collaborator. *)
Inductive skill_call :=
| LogCall (text : str)
| FetchCall (endpoint : str) (payload : gmap (list N) pyval).

(** The line feed of the f-strings, and the two code points of the
    hammer-and-wrench emoji that opens the Telegram message. *)
Definition LF : str := [10%N].
Definition TOOLS_EMOJI : str := [128736%N; 65039%N].

Definition request_text_of (code_change_request reason : pyval) : str :=
  py "Code Change Request:" ++ LF ++ py_str code_change_request ++ LF
  ++ py "Reason:" ++ LF ++ py_str reason.

Definition telegram_message_of (code_change_request reason : pyval) : str :=
  TOOLS_EMOJI ++ py " Code Request:" ++ LF ++ py_str code_change_request
  ++ LF ++ py "Reason:" ++ LF ++ py_str reason.

Definition telegram_payload (text : str) : gmap (list N) pyval :=
  <[py "chatId" := PStr (py "8189338836")]>
  (<[py "text" := PStr text]> ∅).

(** [run]: the value returned or the exception raised, and the calls made
    to [log] and [fetch], in order. *)
Definition run (args : gmap (list N) pyval)
  (fetch : str -> gmap (list N) pyval -> result unit)
  (log : str -> result unit)
  : result str * list skill_call :=
  let code_change_request := args_get args (py "code_change_request") in
  let reason := args_get args (py "reason") in
  if negb (py_truth code_change_request) || negb (py_truth reason) then
    (Ok (py "Error: code_change_request and reason are required."), [])
  else
    let request_text := request_text_of code_change_request reason in
    match log request_text with
    | Raise e => (Raise e, [LogCall request_text])
    | Ok _ =>
      let telegram_message :=
        telegram_message_of code_change_request reason in
      let payload := telegram_payload telegram_message in
      match fetch (py "telegram.send") payload with
      | Raise e =>
        (Raise e,
         [LogCall request_text; FetchCall (py "telegram.send") payload])
      | Ok _ =>
        (Ok (py "Code change request submitted."),
         [LogCall request_text; FetchCall (py "telegram.send") payload])
      end
    end.

(** ** A reference environment

    ASCII-only Unicode tables, every engine available, samples as integers
    at a toy rate of two samples per second, a decoder that rejects an
    empty file, and an encoder that yields two codebooks.  It serves the
    closed examples below. *)
Definition demo_env : Env := {|
  unicode_isalnum := fun _ => false;
  str_lower := fun s => s;
  path_suffix := fun _ => py ".wav";
  cuda_available := false;
  processor_from_pretrained := fun _ => true;
  model_from_pretrained := fun _ => true;
  enable_cpu_offload := true;
  sample := Z;
  encodec_model_24khz := Some (2, 1);
  torchaudio_load :=
    fun f =>
      match f with
      | FBytes (x :: b) => Some ([List.map Z.of_N (x :: b)], 2)
      | _ => None
      end;
  convert_audio := fun w _ _ _ => Some w;
  encodec_encode := fun w => Some (w ++ w);
  ffmpeg :=
    fun _ _ f =>
      match f with
      | FBytes b => Converted b
      | _ => Failed []
      end;
|}.

(** The same environment on a machine without ffmpeg, receiving mp3
    uploads. *)
Definition no_ffmpeg_env : Env := {|
  unicode_isalnum := unicode_isalnum demo_env;
  str_lower := str_lower demo_env;
  path_suffix := fun _ => py ".mp3";
  cuda_available := cuda_available demo_env;
  processor_from_pretrained := processor_from_pretrained demo_env;
  model_from_pretrained := model_from_pretrained demo_env;
  enable_cpu_offload := enable_cpu_offload demo_env;
  sample := sample demo_env;
  encodec_model_24khz := encodec_model_24khz demo_env;
  torchaudio_load := torchaudio_load demo_env;
  convert_audio := convert_audio demo_env;
  encodec_encode := encodec_encode demo_env;
  ffmpeg := fun _ _ _ => Failed (py "ffmpeg not found");
|}.

(** The same environment with the given device and loader outcomes. *)
Definition loader_env (is_cuda processor_ok model_ok offload_ok : bool)
  : Env := {|
  unicode_isalnum := unicode_isalnum demo_env;
  str_lower := str_lower demo_env;
  path_suffix := path_suffix demo_env;
  cuda_available := is_cuda;
  processor_from_pretrained := fun _ => processor_ok;
  model_from_pretrained := fun _ => model_ok;
  enable_cpu_offload := offload_ok;
  sample := sample demo_env;
  encodec_model_24khz := encodec_model_24khz demo_env;
  torchaudio_load := torchaudio_load demo_env;
  convert_audio := convert_audio demo_env;
  encodec_encode := encodec_encode demo_env;
  ffmpeg := ffmpeg demo_env;
|}.

(** The server right after start: nothing loaded, an empty [VOICES_DIR]. *)
Definition fresh : state := {|
  bark_model := None;
  bark_processor := None;
  voice_presets := ∅;
  active_voice := None;
  disk := {[ VOICES_DIR := Dir ]};
|}.

(** Twenty-five samples at two samples per second: twelve and a half
    seconds of audio. *)
Definition long_reference : list N :=
  [1; 2; 3; 4; 5; 6; 7; 8; 9; 10; 11; 12; 13; 14; 15; 16; 17; 18; 19; 20;
   21; 22; 23; 24; 25]%N.

(** A first clone under a name with a space in it. *)
Definition clone_spaced : result clone_response * state :=
  clone_voice demo_env (py "a b") (py "") (py "fr") (py "sample.wav")
    [1; 2; 3; 4]%N (py "2025-01-01T00:00:00Z") fresh.

(** A clone of "alice" from decodable audio, then a second clone of the
    same name from an empty upload. *)
Definition clone_alice : result clone_response * state :=
  clone_voice demo_env (py "alice") (py "") (py "fr") (py "alice.wav")
    [1; 2; 3; 4]%N (py "2025-01-01T00:00:00Z") fresh.

Definition reclone_alice : result clone_response * state :=
  clone_voice demo_env (py "alice") (py "") (py "fr") (py "empty.wav")
    [] (py "2025-01-02T00:00:00Z") (snd clone_alice).

(** A clone of "zed" from an empty upload, with every engine at hand. *)
Definition clone_zed : result clone_response * state :=
  clone_voice demo_env (py "zed") (py "") (py "fr") (py "zed.wav")
    [] (py "2025-01-06T00:00:00Z") fresh.

(** The preset derived from the first reference of "alice". *)
Definition alice_preset : preset := {|
  semantic_prompt := [1; 2; 3; 4]%Z;
  coarse_prompt := [[1; 2; 3; 4]; [1; 2; 3; 4]]%Z;
  fine_prompt := [[1; 2; 3; 4]; [1; 2; 3; 4]]%Z;
|}.

(** A clone under a name that starts like a built-in preset tag. *)
Definition clone_v2 : result clone_response * state :=
  clone_voice demo_env (py "v2/bob") (py "") (py "fr") (py "bob.wav")
    [5; 6; 7]%N (py "2025-01-04T00:00:00Z") fresh.

(** The handles [demo_env] loads. *)
Definition demo_model : BarkModel :=
  {| m_dtype := float32; m_device := cpu; m_eval := true;
     m_cpu_offload := false |}.

Definition demo_processor : BarkProcessor := {| p_dtype := float32 |}.

(** The tree after the directory of "carol" is made, and after her mp3
    upload is stored in it. *)
Definition carol_dir_disk : gmap (list (list N)) node :=
  <[ [py "carol"] := Dir ]> {[ VOICES_DIR := Dir ]}.

Definition carol_upload_disk : gmap (list (list N)) node :=
  <[ [py "carol"; py "reference.mp3"] := File (FBytes [7; 7; 7]%N) ]>
    carol_dir_disk.

(** Deriving the preset of "a b" once more from its stored reference. *)
Definition derive_spaced : result preset * state :=
  create_voice_preset demo_env [py "ab"; py "reference.wav"] (py "a b")
    (snd clone_spaced).

(** A profile directory created by hand, without any file in it. *)
Definition bare_profile_disk : gmap (list (list N)) node :=
  <[ [py "bob"] := Dir ]> {[ VOICES_DIR := Dir ]}.

(** The value of a result that is known to be [Ok]. *)
Definition ok_or {A} (dflt : A) (r : result A) : A :=
  match r with
  | Ok a => a
  | Raise _ => dflt
  end.

(** ** Requests to the code-request skill

    A request with both fields, a [log] and a [fetch] that return, and a
    [fetch] whose gateway is down. *)
Definition demo_args : gmap (list N) pyval :=
  <[py "code_change_request" := PStr (py "fix the parser")]>
  (<[py "reason" := PStr (py "it crashes")]> ∅).

Definition log_ok : list N -> result unit := fun _ => Ok tt.
Definition fetch_ok : list N -> gmap (list N) pyval -> result unit :=
  fun _ _ => Ok tt.
Definition fetch_down : list N -> gmap (list N) pyval -> result unit :=
  fun _ _ => Raise EngineError.

(** ** Extractions

    A toy ffmpeg for [extract_audio]: the audio of a video is what follows
    its first byte, and an empty upload is no video. *)
Definition demo_cut : list N -> list N -> list N -> extraction :=
  fun content _ _ =>
    match content with
    | [] =>
      ExitNonzero (py "Invalid data found when processing input") None
    | _ :: audio => Exit0 audio
    end.

(** An extraction for "dave" on the fresh server, one from an empty upload,
    and one for "alice", already cloned, from a video without audio. *)
Definition extract_dave
  : result extract_response * state * gmap (list N) (list N) :=
  extract_audio demo_env demo_cut (py "dave") (py "clip.mp4")
    [0; 5; 6; 7; 8]%N (py "0") (py "30") (py "2025-02-01T00:00:00Z")
    1738368000 Stored None fresh ∅.

Definition extract_erin
  : result extract_response * state * gmap (list N) (list N) :=
  extract_audio demo_env demo_cut (py "erin") (py "empty.mp4")
    [] (py "0") (py "30") (py "2025-02-02T00:00:00Z")
    1738454400 Stored None fresh ∅.

Definition extract_alice
  : result extract_response * state * gmap (list N) (list N) :=
  extract_audio demo_env demo_cut (py "alice") (py "silent.mp4")
    [0]%N (py "0") (py "30") (py "2025-02-03T00:00:00Z")
    1738540800 Stored None (snd clone_alice) ∅.


(** [OUTPUT_DIR] with one earlier synthesis in it. *)
Definition used_outputs : gmap (list N) (list N) :=
  {[ py "tts_default_1738000000000.wav" := [1; 2; 3]%N ]}.

(** ** Waveforms

    The samples 1, -0.5 and 0; and a waveform whose first sample is
    infinite. *)
Definition f32_one : spec_float := S754_finite false 8388608 (-23).

Definition demo_audio : list spec_float :=
  [f32_one; S754_finite true 8388608 (-24); S754_zero false].

Definition overflowed_audio : list spec_float :=
  [S754_infinity false; f32_one].

(** * Properties *)

(** Case analysis on every [match] scrutinee of a hypothesis, outermost
    first. *)
Ltac break_in H :=
  repeat match type of H with
         | context [match ?x with _ => _ end] =>
           let Heq := fresh "Heq" in destruct x eqn:Heq
         end.

(** ** Sanitisation *)

Section SanitizeFacts.
Variable E : Env.

Lemma safe_cons c name :
  safe E (c :: name) = if keep E c then c :: safe E name else safe E name.
Proof. reflexivity. Qed.

Lemma safe_keeps name : Forall (fun c => keep E c = true) (safe E name).
Proof.
  induction name as [|c name IH]; [constructor|].
  rewrite safe_cons. destruct (keep E c) eqn:Hc; [constructor|]; assumption.
Qed.

Lemma safe_fixpoint name :
  Forall (fun c => keep E c = true) name -> safe E name = name.
Proof.
  induction 1 as [|c name Hc _ IH]; [reflexivity|].
  rewrite safe_cons, Hc, IH. reflexivity.
Qed.

Lemma keep_spec c :
  keep E c = true <-> isalnum E c = true \/ c = 45%N \/ c = 95%N.
Proof.
  unfold keep, char_in. cbn [py list_ascii_of_string List.map existsb].
  change (N_of_ascii "-") with 45%N. change (N_of_ascii "_") with 95%N.
  rewrite !orb_true_iff, !N.eqb_eq. intuition discriminate.
Qed.

Lemma pjoin_root_inj (a b : list N) :
  VOICES_DIR </> a = VOICES_DIR </> b -> a = b.
Proof.
  unfold pjoin, VOICES_DIR.
  destruct a, b; cbn; intros H; congruence.
Qed.

(** C4: sanitising twice is sanitising once, and every character of a
    sanitised name is alphanumeric, ['-'] or ['_'].  The directory of a
    sanitised name is therefore the directory of the name. *)
Theorem safe_idempotent (x : list N) :
  safe E (safe E x) = safe E x
  /\ Forall (fun c => isalnum E c = true \/ c = 45%N \/ c = 95%N) (safe E x)
  /\ get_voice_dir E (safe E x) = get_voice_dir E x.
Proof.
  assert (Hid : safe E (safe E x) = safe E x)
    by (apply safe_fixpoint; apply safe_keeps).
  split; [exact Hid|]. split.
  - eapply List.Forall_impl; [|apply safe_keeps].
    intros c Hc. apply keep_spec. exact Hc.
  - unfold get_voice_dir. rewrite Hid. reflexivity.
Qed.

(** C3, as amended: on names made of allowed characters only,
    sanitisation changes nothing, so two distinct such names keep distinct
    stored names and distinct profile directories. *)
Theorem safe_injective_on_allowed (n1 n2 : list N) :
  Forall (fun c => keep E c = true) n1 ->
  Forall (fun c => keep E c = true) n2 ->
  n1 <> n2 ->
  safe E n1 <> safe E n2 /\ get_voice_dir E n1 <> get_voice_dir E n2.
Proof.
  intros H1 H2 Hne.
  assert (Hs : safe E n1 <> safe E n2)
    by (rewrite !safe_fixpoint by assumption; exact Hne).
  split; [exact Hs|].
  intros Hd. apply Hs. apply pjoin_root_inj. exact Hd.
Qed.

End SanitizeFacts.

(** C3, as stated, fails: ["a b"] and ["ab"] are distinct requested names
    with one stored name and one directory, whatever the Unicode tables. *)
Lemma safe_collision :
  py "a b" <> py "ab"
  /\ (forall E, safe E (py "a b") = safe E (py "ab"))
  /\ (forall E, get_voice_dir E (py "a b") = get_voice_dir E (py "ab")).
Proof.
  split; [discriminate|]. split; intros E; reflexivity.
Qed.

Lemma safe_injective_on_allowed_witness :
  safe demo_env (py "alice") <> safe demo_env (py "bob")
  /\ get_voice_dir demo_env (py "alice") <> get_voice_dir demo_env (py "bob").
Proof.
  apply (safe_injective_on_allowed demo_env (py "alice") (py "bob")).
  - repeat constructor.
  - repeat constructor.
  - discriminate.
Defined.

(** ** The model loader *)

Section LoaderFacts.
Variable E : Env.

(** The loader touches the two handles only. *)
Lemma load_model_frame st r st' :
  load_model E st = (r, st') ->
  voice_presets st' = voice_presets st
  /\ active_voice st' = active_voice st
  /\ disk st' = disk st.
Proof.
  unfold load_model. intros H.
  break_in H; injection H as <- <-; repeat split.
Qed.

(** A call that returns leaves the loader loaded, with the handles it
    returned. *)
Lemma load_model_ok_loaded st m p st' :
  load_model E st = (Ok (m, p), st') ->
  bark_model st' = Some m /\ bark_processor st' = p.
Proof.
  unfold load_model. intros H.
  break_in H; try discriminate; injection H as <- <- <-; auto.
Qed.

(** C9: on a loaded engine [load_model] returns the stored model and
    processor handles and leaves the whole state as it was; no collaborator
    is consulted, so the same holds in every environment.  In particular
    the call after one that returned is such a call. *)
Theorem load_model_loaded_noop st m :
  bark_model st = Some m ->
  load_model E st = (Ok (m, bark_processor st), st)
  /\ (forall E', load_model E' st = load_model E st)
  /\ (forall st0 r, load_model E st0 = (Ok r, st) ->
        load_model E st = (Ok r, st)).
Proof.
  intros Hm.
  assert (Hnoop : forall E', load_model E' st = (Ok (m, bark_processor st), st))
    by (intros E'; unfold load_model; rewrite Hm; reflexivity).
  split; [apply Hnoop|]. split.
  - intros E'. rewrite !Hnoop. reflexivity.
  - intros st0 [m0 p0] H0.
    destruct (load_model_ok_loaded _ _ _ _ H0) as [Hm0 Hp0].
    rewrite Hnoop. congruence.
Qed.

End LoaderFacts.

Lemma load_model_loaded_noop_witness :
  let m := {| m_dtype := float32; m_device := cpu;
              m_eval := true; m_cpu_offload := false |} in
  let st := set_bark_processor (Some {| p_dtype := float32 |})
              (set_bark_model (Some m) fresh) in
  load_model demo_env st = (Ok (m, bark_processor st), st)
  /\ (forall E', load_model E' st = load_model demo_env st)
  /\ (forall st0 r, load_model demo_env st0 = (Ok r, st) ->
        load_model demo_env st = (Ok r, st)).
Proof.
  intros m st. apply (load_model_loaded_noop demo_env st m). reflexivity.
Defined.

(** ** Selecting the active voice *)

Section UseVoiceFacts.
Variable E : Env.

(** C7: [use_voice] on a name whose directory does not exist raises the
    404 and leaves the state, the active voice included, as it was; on a
    name whose directory exists it returns and the active voice is that
    name, nothing else being changed. *)
Theorem use_voice_spec (voice : list N) (st : state) :
  (path_exists (disk st) (get_voice_dir E voice) = false ->
   exists detail,
     use_voice E voice st = (Raise (HTTPException 404 detail), st))
  /\ (path_exists (disk st) (get_voice_dir E voice) = true ->
      exists st',
        use_voice E voice st = (Ok voice, st')
        /\ active_voice st' = Some voice
        /\ st' = set_active_voice (Some voice) st).
Proof.
  unfold use_voice. split; intros ->; cbn [negb]; eauto.
Qed.

End UseVoiceFacts.

Lemma use_voice_spec_witness :
  (exists detail,
     use_voice demo_env (py "unknown") fresh
     = (Raise (HTTPException 404 detail), fresh))
  /\ (exists st',
        use_voice demo_env (py "alice") (set_disk {[ [py "alice"] := Dir ]} fresh)
        = (Ok (py "alice"), st')
        /\ active_voice st' = Some (py "alice")
        /\ st' = set_active_voice (Some (py "alice"))
                   (set_disk {[ [py "alice"] := Dir ]} fresh)).
Proof.
  split.
  - apply (use_voice_spec demo_env (py "unknown") fresh). reflexivity.
  - apply (use_voice_spec demo_env (py "alice")
             (set_disk {[ [py "alice"] := Dir ]} fresh)).
    reflexivity.
Defined.

(** ** Deriving a preset *)

Section PresetFacts.
Variable E : Env.

(** What a returning [create_voice_preset] went through: the encoder ran on
    [encoder_input], its grid was cut by [bark_prompts], and the preset was
    written to the profile directory and cached under the raw name. *)
Lemma create_voice_preset_ok audio_path voice_name st p st' :
  create_voice_preset E audio_path voice_name st = (Ok p, st') ->
  exists waveform codes d',
    encoder_input E (disk st) audio_path = Ok waveform
    /\ encodec_encode E waveform = Some codes
    /\ bark_prompts codes = Ok p
    /\ write_file (disk st)
         (get_voice_dir E voice_name </> py "voice_preset.npz") (FNpz p)
       = Ok d'
    /\ st' = set_voice_presets (<[voice_name := p]> (voice_presets st))
               (set_disk d' st).
Proof.
  unfold create_voice_preset. intros H.
  break_in H; try discriminate.
  injection H as <- <-. eauto 10.
Qed.

(** A raising [create_voice_preset] has changed nothing. *)
Lemma create_voice_preset_raise audio_path voice_name st e st' :
  create_voice_preset E audio_path voice_name st = (Raise e, st') ->
  st' = st.
Proof.
  unfold create_voice_preset. intros H.
  break_in H; try discriminate; injection H as _ <-; reflexivity.
Qed.

Lemma firstn_rows_length {A} (n N : nat) (g : list (list A)) :
  Forall (fun row => length row = N) g ->
  Forall (fun row => length row = N) (firstn n g).
Proof.
  intros H. revert n.
  induction H as [|row g Hrow _ IH]; intros [|n]; cbn; constructor; auto.
Qed.

(** C6: from a grid of K rows (codebooks) of N frames each, K at least 2,
    the preset has [fine_prompt] the whole grid (K x N), [coarse_prompt]
    its first two rows (2 x N) and [semantic_prompt] its first row
    (N frames); this is the preset a returning [create_voice_preset]
    returns, stores on disk and caches. *)
Theorem bark_prompts_tiers (codes : list (list Z)) (K N : nat) :
  length codes = K ->
  Forall (fun row => length row = N) codes ->
  2 <= K ->
  exists p,
    bark_prompts codes = Ok p
    /\ fine_prompt p = codes
    /\ coarse_prompt p = firstn 2 codes
    /\ length (coarse_prompt p) = 2
    /\ Forall (fun row => length row = N) (coarse_prompt p)
    /\ [semantic_prompt p] = firstn 1 codes
    /\ length (semantic_prompt p) = N
    /\ length (fine_prompt p) = K
    /\ Forall (fun row => length row = N) (fine_prompt p)
    /\ (forall audio_path voice_name st waveform q st',
          encoder_input E (disk st) audio_path = Ok waveform ->
          encodec_encode E waveform = Some codes ->
          create_voice_preset E audio_path voice_name st = (Ok q, st') ->
          q = p
          /\ voice_presets st' !! voice_name = Some p
          /\ disk st'
               !! (get_voice_dir E voice_name </> py "voice_preset.npz")
             = Some (File (FNpz p))).
Proof.
  intros HK HN H2.
  destruct codes as [|row0 codes']; [cbn in HK; lia|].
  eexists. split; [reflexivity|].
  cbn [fine_prompt coarse_prompt semantic_prompt].
  split; [reflexivity|]. split; [reflexivity|].
  split; [destruct codes'; cbn in *; [lia|reflexivity]|].
  split; [apply firstn_rows_length; exact HN|].
  split; [reflexivity|].
  split; [inversion HN; assumption|].
  split; [exact HK|]. split; [exact HN|].
  intros audio_path voice_name st waveform q st' Hin Henc Hc.
  apply create_voice_preset_ok in Hc as (w & c & d' & Hw & Hc & Hp & Hwr & ->).
  rewrite Hin in Hw. injection Hw as <-.
  rewrite Henc in Hc. injection Hc as <-.
  cbn in Hp. injection Hp as <-.
  split; [reflexivity|]. split.
  - cbn. apply lookup_insert_eq.
  - cbn. unfold write_file in Hwr. break_in Hwr; [|discriminate].
    injection Hwr as <-. apply lookup_insert_eq.
Qed.

End PresetFacts.

Lemma bark_prompts_tiers_witness :
  exists p,
    bark_prompts [[1; 2; 3]; [4; 5; 6]; [7; 8; 9]]%Z = Ok p
    /\ fine_prompt p = [[1; 2; 3]; [4; 5; 6]; [7; 8; 9]]%Z
    /\ coarse_prompt p = firstn 2 [[1; 2; 3]; [4; 5; 6]; [7; 8; 9]]%Z
    /\ length (coarse_prompt p) = 2
    /\ Forall (fun row => length row = 3) (coarse_prompt p)
    /\ [semantic_prompt p] = firstn 1 [[1; 2; 3]; [4; 5; 6]; [7; 8; 9]]%Z
    /\ length (semantic_prompt p) = 3
    /\ length (fine_prompt p) = 3
    /\ Forall (fun row => length row = 3) (fine_prompt p)
    /\ (forall audio_path voice_name st waveform q st',
          encoder_input demo_env (disk st) audio_path = Ok waveform ->
          encodec_encode demo_env waveform
          = Some [[1; 2; 3]; [4; 5; 6]; [7; 8; 9]]%Z ->
          create_voice_preset demo_env audio_path voice_name st = (Ok q, st') ->
          q = p
          /\ voice_presets st' !! voice_name = Some p
          /\ disk st'
               !! (get_voice_dir demo_env voice_name </> py "voice_preset.npz")
             = Some (File (FNpz p))).
Proof.
  apply (bark_prompts_tiers demo_env [[1; 2; 3]; [4; 5; 6]; [7; 8; 9]]%Z 3 3).
  - reflexivity.
  - repeat constructor.
  - lia.
Defined.

(** ** Truncating the reference audio *)

Section TruncationFacts.
Variable E : Env.

Lemma bark_prompts_fine codes p :
  bark_prompts codes = Ok p -> fine_prompt p = codes.
Proof.
  unfold bark_prompts. destruct codes; [discriminate|].
  intros H. injection H as <-. reflexivity.
Qed.

Lemma trim_long {A} (max T : nat) (w : list (list A)) :
  Forall (fun row => length row = T) w ->
  max < T ->
  trim max w = List.map (firstn max) w.
Proof.
  intros Hw Hlt. unfold trim.
  destruct Hw as [|row w Hrow Hw]; cbn [shape_last].
  - reflexivity.
  - rewrite Hrow. destruct (Nat.ltb_spec max T); [reflexivity|lia].
Qed.

Lemma cut_rows_length {A} (max T : nat) (w : list (list A)) :
  Forall (fun row => length row = T) w ->
  max < T ->
  Forall (fun row => length row = max) (List.map (firstn max) w).
Proof.
  intros Hw Hlt. induction Hw as [|row w Hrow _ IH]; cbn; constructor.
  - rewrite length_firstn. lia.
  - exact IH.
Qed.

(** C5: when the converted waveform has more than [sample_rate * 10]
    samples per channel, [encoder_input] does not raise: it is the waveform
    with every channel cut to its first [sample_rate * 10] samples, and the
    grid of a returning [create_voice_preset] is the encoder's grid for
    that ten-second clip. *)
Theorem encoder_input_truncated
  (d : gmap (list (list N)) node) (audio_path : list (list N))
  (sample_rate channels sr T : nat) (f : file)
  (loaded w : list (list (sample E))) :
  encodec_model_24khz E = Some (sample_rate, channels) ->
  read_file d audio_path = Ok f ->
  torchaudio_load E f = Some (loaded, sr) ->
  convert_audio E loaded sr sample_rate channels = Some w ->
  Forall (fun row => length row = T) w ->
  sample_rate * 10 < T ->
  exists clip,
    encoder_input E d audio_path = Ok clip
    /\ clip = List.map (firstn (sample_rate * 10)) w
    /\ length clip = length w
    /\ Forall (fun row => length row = sample_rate * 10) clip
    /\ (forall voice_name st p st',
          disk st = d ->
          create_voice_preset E audio_path voice_name st = (Ok p, st') ->
          encodec_encode E clip = Some (fine_prompt p)).
Proof.
  intros Hm Hr Hl Hc Hw HT.
  assert (Hin : encoder_input E d audio_path
                = Ok (List.map (firstn (sample_rate * 10)) w)).
  { unfold encoder_input. rewrite Hm, Hr, Hl, Hc. unfold max_samples.
    rewrite (trim_long _ T) by assumption. reflexivity. }
  eexists. split; [exact Hin|]. split; [reflexivity|].
  split; [apply length_map|].
  split; [apply (cut_rows_length _ T); assumption|].
  intros voice_name st p st' Hd Hcreate.
  apply create_voice_preset_ok in Hcreate
    as (w' & codes & d' & Hw' & Henc & Hp & _ & _).
  rewrite Hd, Hin in Hw'. injection Hw' as <-.
  rewrite Henc. f_equal. symmetry. apply bark_prompts_fine, Hp.
Qed.

End TruncationFacts.

Lemma encoder_input_truncated_witness :
  exists clip,
    encoder_input demo_env
      {[ [py "reference.wav"] := File (FBytes long_reference) ]}
      [py "reference.wav"] = Ok clip
    /\ clip = List.map (firstn (2 * 10)) [List.map Z.of_N long_reference]
    /\ length clip = length [List.map Z.of_N long_reference]
    /\ Forall (fun row => length row = 2 * 10) clip
    /\ (forall voice_name st p st',
          disk st = {[ [py "reference.wav"] := File (FBytes long_reference) ]} ->
          create_voice_preset demo_env [py "reference.wav"] voice_name st
          = (Ok p, st') ->
          encodec_encode demo_env clip = Some (fine_prompt p)).
Proof.
  apply (encoder_input_truncated demo_env
           {[ [py "reference.wav"] := File (FBytes long_reference) ]}
           [py "reference.wav"] 2 1 2 25 (FBytes long_reference)
           [List.map Z.of_N long_reference]
           [List.map Z.of_N long_reference]).
  - reflexivity.
  - vm_compute. reflexivity.
  - reflexivity.
  - reflexivity.
  - repeat constructor.
  - cbn. lia.
Defined.

(** ** Resolving the voice of a synthesis request *)

Section ResolutionFacts.
Variable E : Env.

Lemma startswith_truthy p s :
  truthy p = true -> startswith p s = true -> truthy s = true.
Proof. destruct p, s; cbn; congruence. Qed.

(** A cached preset is returned as it is. *)
Lemma get_voice_preset_cached voice_name st p :
  voice_presets st !! voice_name = Some p ->
  get_voice_preset E voice_name st = (Ok (Some p), st).
Proof. unfold get_voice_preset. intros ->. reflexivity. Qed.

(** Without a cached preset and without an archive on disk, a missing
    reference or a failing derivation gives [None], and no exception. *)
Lemma get_voice_preset_fallback voice_name st :
  voice_presets st !! voice_name = None ->
  path_exists (disk st)
    (get_voice_dir E voice_name </> py "voice_preset.npz") = false ->
  (find_reference_audio E (disk st) voice_name = None
   \/ exists ref e st',
        find_reference_audio E (disk st) voice_name = Some ref
        /\ create_voice_preset E ref voice_name st = (Raise e, st')) ->
  get_voice_preset E voice_name st = (Ok None, st).
Proof.
  unfold get_voice_preset. intros -> -> [-> | (ref & e & st' & -> & Hc)].
  - reflexivity.
  - rewrite Hc. apply create_voice_preset_raise in Hc. subst st'. reflexivity.
Qed.

(** C1: with the engine available, (1) an explicit name carrying the
    ["v2/"] prefix is handed to the processor as it is, whatever the active
    voice, the cache and the disk hold, and neither cache nor disk is
    touched; (2) the effective [voice_name] is the explicit name when one
    is given (a non-empty string), else the active voice; (3) an effective
    name without the prefix is looked up by [get_voice_preset]; (4) without
    an effective name the processor gets no preset and the output is
    tagged ["default"]. *)
Theorem tts_voice_resolution
  (text language : list N) (voice : option (list N)) (st st1 : state)
  (m : BarkModel) (p : BarkProcessor) :
  load_model E st = (Ok (m, Some p), st1) ->
  (forall v,
     voice = Some v -> startswith (py "v2/") v = true ->
     tts E text voice language st
     = (Ok {| s_voice_name := Some v; s_model := m; s_processor := p;
              s_text := text; s_voice_preset := VPName v;
              s_voice_tag := v |}, st1)
     /\ voice_presets st1 = voice_presets st
     /\ disk st1 = disk st)
  /\ (forall r st',
        tts E text voice language st = (Ok r, st') ->
        (forall c v, voice = Some (c :: v) -> s_voice_name r = Some (c :: v))
        /\ (voice = None \/ voice = Some [] ->
            s_voice_name r = active_voice st))
  /\ (forall n,
        py_or voice (active_voice st) = Some n ->
        truthy n = true -> startswith (py "v2/") n = false ->
        tts E text voice language st
        = match get_voice_preset E n st1 with
          | (Raise e, st2) => (Raise e, st2)
          | (Ok found, st2) =>
            (Ok {| s_voice_name := Some n; s_model := m; s_processor := p;
                   s_text := text;
                   s_voice_preset :=
                     match found with
                     | Some preset_data => VPData preset_data
                     | None => VPNone
                     end;
                   s_voice_tag := n |}, st2)
          end)
  /\ (py_or voice (active_voice st) = None
      \/ py_or voice (active_voice st) = Some [] ->
      tts E text voice language st
      = (Ok {| s_voice_name := py_or voice (active_voice st);
               s_model := m; s_processor := p; s_text := text;
               s_voice_preset := VPNone; s_voice_tag := py "default" |},
         st1)).
Proof.
  intros Hload.
  destruct (load_model_frame _ _ _ _ Hload) as (Hpres & _ & Hdisk).
  split; [|split; [|split]].
  - intros v -> Hv.
    assert (Ht : truthy v = true)
      by (apply (startswith_truthy (py "v2/")); [reflexivity|exact Hv]).
    unfold tts. rewrite Hload.
    destruct v as [|c v]; [discriminate|].
    cbn [py_or]. rewrite Hv. cbn [truthy andb voice_tag_of]. auto.
  - intros r st' Htts. unfold tts in Htts. rewrite Hload in Htts.
    assert (Hname : s_voice_name r = py_or voice (active_voice st))
      by (break_in Htts; try discriminate; injection Htts as <- _;
          reflexivity).
    rewrite Hname. split.
    + intros c v ->. reflexivity.
    + intros [-> | ->]; reflexivity.
  - intros n Hn Ht Hv. unfold tts. rewrite Hload, Hn, Ht, Hv.
    cbn [andb]. destruct n as [|c n]; [discriminate|].
    destruct (get_voice_preset E (c :: n) st1) as [[[found|]|e] st2];
      reflexivity.
  - intros [Hn | Hn]; unfold tts; rewrite Hload, Hn; reflexivity.
Qed.

End ResolutionFacts.

Lemma tts_voice_resolution_witness :
  tts demo_env (py "test") (Some (py "v2/fr_speaker_0")) (py "fr")
    (set_active_voice (Some (py "alice")) fresh)
  = (Ok {| s_voice_name := Some (py "v2/fr_speaker_0");
           s_model := {| m_dtype := float32; m_device := cpu;
                         m_eval := true; m_cpu_offload := false |};
           s_processor := {| p_dtype := float32 |};
           s_text := py "test";
           s_voice_preset := VPName (py "v2/fr_speaker_0");
           s_voice_tag := py "v2/fr_speaker_0" |},
     set_bark_model
       (Some {| m_dtype := float32; m_device := cpu;
                m_eval := true; m_cpu_offload := false |})
       (set_bark_processor (Some {| p_dtype := float32 |})
          (set_active_voice (Some (py "alice")) fresh))).
Proof.
  refine (proj1 (proj1
    (tts_voice_resolution demo_env (py "test") (py "fr")
       (Some (py "v2/fr_speaker_0"))
       (set_active_voice (Some (py "alice")) fresh) _ _ _ _)
    (py "v2/fr_speaker_0") _ _)).
  - reflexivity.
  - reflexivity.
  - reflexivity.
Defined.

(** ** The directory tree *)

Lemma pjoin_nonempty (dir : list (list N)) (c : N) (n : list N) :
  dir </> (c :: n) = dir ++ [c :: n].
Proof. reflexivity. Qed.

Lemma pjoin_ne_dir (dir : list (list N)) (n : list N) :
  n <> [] -> dir </> n <> dir.
Proof.
  destruct n as [|c n]; [congruence|]. intros _ Heq.
  rewrite pjoin_nonempty in Heq.
  apply (f_equal (@length _)) in Heq. rewrite length_app in Heq.
  cbn in Heq. lia.
Qed.

Lemma pjoin_ne_name (dir : list (list N)) (a b : list N) :
  a <> [] -> b <> [] -> a <> b -> dir </> a <> dir </> b.
Proof.
  destruct a as [|x a], b as [|y b]; try congruence.
  intros _ _ Hne Heq. rewrite !pjoin_nonempty in Heq.
  apply app_inv_head in Heq. congruence.
Qed.

Lemma parent_pjoin (dir : list (list N)) (n : list N) :
  n <> [] -> parent (dir </> n) = dir.
Proof.
  destruct n as [|c n]; [congruence|]. intros _.
  rewrite pjoin_nonempty. apply removelast_last.
Qed.

Lemma name_of_pjoin (dir : list (list N)) (n : list N) :
  n <> [] -> name_of (dir </> n) = n.
Proof.
  destruct n as [|c n]; [congruence|]. intros _.
  rewrite pjoin_nonempty. apply last_last.
Qed.

Lemma is_dir_lookup (d : gmap (list (list N)) node) p :
  is_dir d p = true <-> d !! p = Some Dir.
Proof.
  unfold is_dir. destruct (d !! p) as [[|f]|]; split; congruence.
Qed.

Lemma is_dir_exists (d : gmap (list (list N)) node) p :
  is_dir d p = true -> path_exists d p = true.
Proof.
  rewrite is_dir_lookup. unfold path_exists. intros ->. reflexivity.
Qed.

(** [mkdir] makes the path and its prefixes directories and turns no
    directory into anything else. *)
Lemma mkdir_from_spec rest :
  forall (d : gmap (list (list N)) node) base d',
    mkdir_from d base rest = Ok d' ->
    d' !! base = Some Dir
    /\ d' !! (base ++ rest) = Some Dir
    /\ (forall q, d !! q = Some Dir -> d' !! q = Some Dir).
Proof.
  induction rest as [|s rest IH]; intros d base d' H; cbn in H.
  - assert (Hd : d' = <[base := Dir]> d)
      by (destruct (d !! base) as [[|f]|]; congruence).
    subst d'. rewrite app_nil_r, lookup_insert_eq.
    repeat split. intros q Hq.
    destruct (decide (base = q)) as [->|Hne];
      [apply lookup_insert_eq|rewrite lookup_insert_ne by exact Hne; exact Hq].
  - assert (Hd : mkdir_from (<[base := Dir]> d) (base ++ [s]) rest = Ok d')
      by (destruct (d !! base) as [[|f]|]; congruence).
    apply IH in Hd as (_ & Hfull & Hpres).
    assert (Hins : forall q, d !! q = Some Dir ->
                             <[base := Dir]> d !! q = Some Dir).
    { intros q Hq. destruct (decide (base = q)) as [->|Hne];
        [apply lookup_insert_eq
        |rewrite lookup_insert_ne by exact Hne; exact Hq]. }
    split; [apply Hpres, lookup_insert_eq|].
    split; [rewrite <- app_assoc in Hfull; exact Hfull|].
    intros q Hq. apply Hpres, Hins, Hq.
Qed.

Lemma mkdir_parents_spec (d d' : gmap (list (list N)) node) p :
  mkdir_parents d p = Ok d' ->
  d' !! VOICES_DIR = Some Dir /\ d' !! p = Some Dir.
Proof.
  intros H. apply mkdir_from_spec in H as (H0 & Hp & _). auto.
Qed.

Lemma write_file_ok (d d' : gmap (list (list N)) node) p f :
  write_file d p f = Ok d' ->
  d' = <[p := File f]> d /\ d !! p <> Some Dir.
Proof.
  unfold write_file.
  destruct (is_dir d (parent p)); cbn; [|discriminate].
  destruct (is_dir d p) eqn:Hp; cbn; [discriminate|].
  intros H. injection H as <-. split; [reflexivity|].
  intros Hd. apply is_dir_lookup in Hd. congruence.
Qed.

(** A write keeps what was at every other path, and every directory. *)
Lemma write_file_other (d d' : gmap (list (list N)) node) p f q :
  write_file d p f = Ok d' -> q <> p -> d' !! q = d !! q.
Proof.
  intros H Hne. apply write_file_ok in H as [-> _].
  apply lookup_insert_ne. congruence.
Qed.

Lemma write_file_same (d d' : gmap (list (list N)) node) p f :
  write_file d p f = Ok d' -> d' !! p = Some (File f).
Proof.
  intros H. apply write_file_ok in H as [-> _]. apply lookup_insert_eq.
Qed.

Lemma write_file_dir (d d' : gmap (list (list N)) node) p f q :
  write_file d p f = Ok d' -> d !! q = Some Dir -> d' !! q = Some Dir.
Proof.
  intros H Hq. destruct (decide (q = p)) as [->|Hne].
  - apply write_file_ok in H as [_ Hp]. contradiction.
  - rewrite (write_file_other _ _ _ _ _ H Hne). exact Hq.
Qed.

(** ** Listing the profiles *)

Lemma insert_by_In {A} (leb : A -> A -> bool) (x y : A) (l : list A) :
  In x (insert_by leb y l) <-> x = y \/ In x l.
Proof.
  induction l as [|z l IH]; cbn.
  - intuition.
  - destruct (leb y z); cbn; [intuition|]. rewrite IH. intuition.
Qed.

Lemma sorted_by_In {A} (leb : A -> A -> bool) (x : A) (l : list A) :
  In x (sorted_by leb l) <-> In x l.
Proof.
  induction l as [|y l IH]; cbn; [reflexivity|].
  rewrite insert_by_In, IH. intuition.
Qed.

Lemma children_In (d : gmap (list (list N)) node) p q n :
  d !! q = Some n -> is_child p q = true -> In q (children d p).
Proof.
  intros Hq Hc. unfold children. apply List.filter_In. split; [|exact Hc].
  apply List.in_map_iff. exists (q, n). split; [reflexivity|].
  apply list_elem_of_In, elem_of_map_to_list, Hq.
Qed.

Lemma profile_summary_name (d : gmap (list (list N)) node) p v :
  profile_summary d p = Ok v -> v_name v = name_of p.
Proof.
  unfold profile_summary. intros H.
  break_in H; try discriminate; injection H as <-; reflexivity.
Qed.

Lemma profiles_of_In (d : gmap (list (list N)) node) ds :
  forall vs,
    profiles_of d ds = Ok vs ->
    forall p, In p ds -> is_dir d p = true ->
              exists v, In v vs /\ v_name v = name_of p.
Proof.
  induction ds as [|q ds IH]; intros vs H p Hin Hdir; [destruct Hin|].
  cbn in H. destruct Hin as [->|Hin].
  - rewrite Hdir in H.
    destruct (profile_summary d p) as [v|] eqn:Hv; [|discriminate].
    destruct (profiles_of d ds) as [vs'|]; [|discriminate].
    injection H as <-. exists v. split; [left; reflexivity|].
    apply profile_summary_name in Hv. exact Hv.
  - destruct (is_dir d q).
    + destruct (profile_summary d q) as [v|]; [|discriminate].
      destruct (profiles_of d ds) as [vs'|] eqn:Hvs; [|discriminate].
      injection H as <-.
      destruct (IH _ eq_refl p Hin Hdir) as (v' & Hv' & Hn).
      exists v'. split; [right; exact Hv'|exact Hn].
    + apply (IH _ H p Hin Hdir).
Qed.

(** A directory directly below [VOICES_DIR] is listed under its own name. *)
Lemma listed_directory (d : gmap (list (list N)) node) (s : list N) vs :
  s <> [] ->
  d !! VOICES_DIR = Some Dir ->
  d !! [s] = Some Dir ->
  list_voice_profiles d = Ok vs ->
  exists v, In v vs /\ v_name v = s.
Proof.
  intros Hs Hroot Hdir H. unfold list_voice_profiles, iterdir in H.
  rewrite (is_dir_exists d VOICES_DIR) in H by (apply is_dir_lookup, Hroot).
  rewrite (proj2 (is_dir_lookup d VOICES_DIR) Hroot) in H. cbn [negb] in H.
  apply (profiles_of_In _ _ _ H [s]).
  - apply sorted_by_In. apply (children_In _ _ _ Dir Hdir). reflexivity.
  - apply is_dir_lookup, Hdir.
Qed.

(** ** Cloning a voice *)

Lemma bind_ok {A B} (m : M A) (k : A -> M B) st b st' :
  bind m k st = (Ok b, st') ->
  exists a st1, m st = (Ok a, st1) /\ k a st1 = (Ok b, st').
Proof.
  unfold bind. destruct (m st) as [[a|e] st1]; [eauto|discriminate].
Qed.

Lemma update_disk_ok f st u st' :
  update_disk f st = (Ok u, st') ->
  exists d', f (disk st) = Ok d' /\ st' = set_disk d' st.
Proof.
  unfold update_disk. destruct (f (disk st)) as [d'|e]; [|discriminate].
  intros H. injection H as _ <-. eauto.
Qed.

Section CloneFacts.
Variable E : Env.

(** The guarded derivation step of [clone_voice] and [get_voice_preset]
    never raises: it ends in the state [create_voice_preset] reached, or,
    when that raised, in the state it started from. *)
Lemma preset_step_nonfatal wav_path name st :
  exists st',
    try_except (_ <- create_voice_preset E wav_path name ;; ret tt)
      (fun _ => ret tt) st = (Ok tt, st')
    /\ ((exists p, create_voice_preset E wav_path name st = (Ok p, st'))
        \/ (exists e, create_voice_preset E wav_path name st = (Raise e, st))
           /\ st' = st).
Proof.
  unfold try_except, bind, ret.
  destruct (create_voice_preset E wav_path name st) as [[p|e] st1] eqn:Hc.
  - exists st1. eauto.
  - apply create_voice_preset_raise in Hc as Hst. subst st1.
    exists st. eauto.
Qed.

(** The steps a returning [clone_voice] went through. *)
Lemma clone_voice_ok name description language filename content created
  st resp st' :
  clone_voice E name description language filename content created st
  = (Ok resp, st') ->
  let dir := get_voice_dir E name in
  exists d1 d2 d3 st4 d5,
    mkdir_parents (disk st) dir = Ok d1
    /\ write_file d1 (dir </> (py "reference" ++ upload_ext E filename))
         (FBytes content) = Ok d2
    /\ (d3 = d2
        \/ exists out,
             write_file d2 (dir </> py "reference.wav") (FBytes out) = Ok d3)
    /\ (st4 = set_disk d3 st
        \/ exists p,
             create_voice_preset E (dir </> py "reference.wav") name
               (set_disk d3 st) = (Ok p, st4))
    /\ write_file (disk st4) (dir </> py "meta.json")
         (FJson (clone_meta name description language created filename
                   (length content))) = Ok d5
    /\ st' = set_active_voice (Some name) (set_disk d5 st4)
    /\ resp = {| r_name := name; r_description := description;
                 r_language := language; r_audio_file := py "reference.wav";
                 r_has_preset :=
                   path_exists d5 (dir </> py "voice_preset.npz");
                 r_active := true |}.
Proof.
  intros H dir. unfold clone_voice in H. fold dir in H.
  apply bind_ok in H as (u1 & st1 & H1 & H).
  apply update_disk_ok in H1 as (d1 & Hd1 & ->).
  apply bind_ok in H as (u2 & st2 & H2 & H).
  apply update_disk_ok in H2 as (d2 & Hd2 & ->). cbn [disk set_disk] in Hd2.
  apply bind_ok in H as (u3 & st3 & H3 & H).
  apply bind_ok in H as (u4 & st4 & H4 & H).
  apply bind_ok in H as (u5 & st5 & H5 & H).
  apply update_disk_ok in H5 as (d5 & Hd5 & ->).
  apply bind_ok in H as (u6 & st6 & H6 & H).
  apply bind_ok in H as (hp & st7 & H7 & H).
  unfold modify in H6. injection H6 as _ <-.
  unfold gets in H7. injection H7 as <- <-.
  unfold ret in H. injection H as <- <-.
  assert (H3' : exists d3, st3 = set_disk d3 st
                 /\ (d3 = d2 \/ exists out,
                       write_file d2 (dir </> py "reference.wav")
                         (FBytes out) = Ok d3)).
  { unfold try_except, raise, ret in H3.
    destruct (ffmpeg E _ _ _) as [out|msg].
    - destruct (update_disk _ _) as [[u|e] st3'] eqn:Hw.
      + injection H3 as _ <-.
        apply update_disk_ok in Hw as (d3 & Hd3 & ->). cbn in Hd3.
        exists d3. split; [reflexivity|]. right. eauto.
      + unfold update_disk in Hw. break_in Hw; [discriminate|].
        injection Hw as _ <-.
        destruct (negb _); [discriminate|]. injection H3 as _ <-.
        exists d2. split; [reflexivity|]. left. reflexivity.
    - destruct (negb _); [discriminate|]. injection H3 as _ <-.
      exists d2. split; [reflexivity|]. left. reflexivity. }
  destruct H3' as (d3 & -> & Hd3).
  destruct (preset_step_nonfatal (dir </> py "reference.wav") name
              (set_disk d3 st)) as (st4' & Hstep & Hcase).
  rewrite Hstep in H4. injection H4 as _ <-.
  exists d1, d2, d3, st4', d5.
  split; [exact Hd1|]. split; [exact Hd2|]. split; [exact Hd3|].
  split; [destruct Hcase as [Hp|[_ ->]]; [right; exact Hp|left; reflexivity]|].
  split; [exact Hd5|]. split; reflexivity.
Qed.

End CloneFacts.

Lemma reference_name_facts (ext : list N) :
  py "reference" ++ ext <> []
  /\ py "reference" ++ ext <> py "voice_preset.npz"
  /\ py "reference" ++ ext <> py "meta.json".
Proof. repeat split; cbn; discriminate. Qed.

Lemma fixed_name_facts :
  py "meta.json" <> [] /\ py "voice_preset.npz" <> []
  /\ py "reference.wav" <> []
  /\ py "meta.json" <> py "voice_preset.npz"
  /\ py "meta.json" <> py "reference.wav"
  /\ py "voice_preset.npz" <> py "reference.wav".
Proof. repeat split; cbn; discriminate. Qed.

Section CloneNameFacts.
Variable E : Env.

(** What the derivation step of [clone_voice] leaves on disk: the preset
    archive apart, every path is as before, and directories stay. *)
Lemma derivation_disk dir name d3 st st4 :
  (st4 = set_disk d3 st
   \/ exists p,
        create_voice_preset E (dir </> py "reference.wav") name
          (set_disk d3 st) = (Ok p, st4)) ->
  (forall q, q <> get_voice_dir E name </> py "voice_preset.npz" ->
             disk st4 !! q = d3 !! q)
  /\ (forall q, d3 !! q = Some Dir -> disk st4 !! q = Some Dir)
  /\ active_voice st4 = active_voice st.
Proof.
  intros [-> | (p & Hc)]; [cbn; auto|].
  apply create_voice_preset_ok in Hc as (_ & _ & d' & _ & _ & _ & Hw & ->).
  cbn in *. split; [|split; [|reflexivity]].
  - intros q Hq. apply (write_file_other _ _ _ _ _ Hw Hq).
  - intros q Hq. apply (write_file_dir _ _ _ _ _ Hw Hq).
Qed.

(** C10: a returning [clone_voice] for a name that differs from its
    sanitised form has written the reference audio and [meta.json] under
    the directory named by the sanitised form ([VOICES_DIR] itself when
    that form is empty), while the response and the active voice carry the
    raw name; the profile is listed under the sanitised name, which is not
    the active voice. *)
Theorem clone_voice_raw_name
  (name description language filename content created : list N)
  (st st' : state) (resp : clone_response) :
  safe E name <> name ->
  clone_voice E name description language filename content created st
  = (Ok resp, st') ->
  is_dir (disk st') (VOICES_DIR </> safe E name) = true
  /\ (exists b,
        disk st' !! (VOICES_DIR </> safe E name
                     </> (py "reference" ++ upload_ext E filename))
        = Some (File (FBytes b)))
  /\ disk st' !! (VOICES_DIR </> safe E name </> py "meta.json")
     = Some (File (FJson (clone_meta name description language created
                            filename (length content))))
  /\ (safe E name = [] ->
      disk st' !! [py "meta.json"]
      = Some (File (FJson (clone_meta name description language created
                             filename (length content)))))
  /\ r_name resp = name
  /\ active_voice st' = Some name
  /\ (safe E name <> [] ->
      forall vs,
        list_voice_profiles (disk st') = Ok vs ->
        exists v,
          In v vs /\ v_name v = safe E name
          /\ active_voice st' <> Some (v_name v)).
Proof.
  intros Hraw Hclone.
  apply clone_voice_ok in Hclone
    as (d1 & d2 & d3 & st4 & d5 & Hd1 & Hd2 & Hd3 & Hst4 & Hd5 & -> & ->).
  change (get_voice_dir E name) with (VOICES_DIR </> safe E name) in *.
  set (dir := VOICES_DIR </> safe E name) in *.
  set (ref := py "reference" ++ upload_ext E filename) in *.
  destruct (reference_name_facts (upload_ext E filename))
    as (Hr0 & Hrp & Hrm). fold ref in Hr0, Hrp, Hrm.
  destruct fixed_name_facts as (Hm0 & Hp0 & Hw0 & Hmp & Hmw & Hpw).
  apply mkdir_parents_spec in Hd1 as (Hroot1 & Hdir1).
  apply (derivation_disk dir) in Hst4 as (Hother4 & Hdirs4 & _).
  change (get_voice_dir E name) with dir in Hother4.
  (* directories survive every write *)
  assert (Hdirs : forall q, d1 !! q = Some Dir -> d5 !! q = Some Dir).
  { intros q Hq. apply (write_file_dir _ _ _ _ _ Hd5), Hdirs4.
    assert (Hq2 : d2 !! q = Some Dir) by apply (write_file_dir _ _ _ _ _ Hd2 Hq).
    destruct Hd3 as [-> | (out & Hd3)]; [exact Hq2|].
    apply (write_file_dir _ _ _ _ _ Hd3 Hq2). }
  (* the upload stays a byte file *)
  assert (Href : exists b, d5 !! (dir </> ref) = Some (File (FBytes b))).
  { assert (H2 : d2 !! (dir </> ref) = Some (File (FBytes content)))
      by apply (write_file_same _ _ _ _ Hd2).
    assert (H3 : exists b, d3 !! (dir </> ref) = Some (File (FBytes b))).
    { destruct Hd3 as [-> | (out & Hd3)]; [eauto|].
      destruct (decide (dir </> ref = dir </> py "reference.wav")) as [Heq|Hne].
      - rewrite Heq. exists out. apply (write_file_same _ _ _ _ Hd3).
      - exists content. rewrite (write_file_other _ _ _ _ _ Hd3 Hne). exact H2. }
    destruct H3 as (b & H3). exists b.
    rewrite (write_file_other _ _ _ _ _ Hd5)
      by (apply pjoin_ne_name; assumption).
    rewrite Hother4 by (apply pjoin_ne_name; assumption). exact H3. }
  assert (Hmeta : d5 !! (dir </> py "meta.json")
                  = Some (File (FJson (clone_meta name description language
                                         created filename (length content)))))
    by apply (write_file_same _ _ _ _ Hd5).
  cbn [disk active_voice set_active_voice set_disk r_name].
  split; [apply is_dir_lookup, Hdirs, Hdir1|].
  split; [exact Href|]. split; [exact Hmeta|].
  split; [intros Hempty; subst dir; rewrite Hempty in Hmeta; exact Hmeta|].
  split; [reflexivity|]. split; [reflexivity|].
  intros Hs vs Hlist.
  assert (Hdir : dir = [safe E name])
    by (subst dir; destruct (safe E name); [congruence|reflexivity]).
  destruct (listed_directory d5 (safe E name) vs Hs (Hdirs _ Hroot1))
    as (v & Hin & Hname); [rewrite <- Hdir; apply Hdirs, Hdir1|exact Hlist|].
  exists v. split; [exact Hin|]. split; [exact Hname|].
  rewrite Hname. congruence.
Qed.

End CloneNameFacts.

Lemma clone_voice_raw_name_witness :
  safe demo_env (py "a b") = py "ab"
  /\ is_dir (disk (snd clone_spaced)) [py "ab"] = true
  /\ active_voice (snd clone_spaced) = Some (py "a b")
  /\ exists v,
       In v (ok_or [] (list_voice_profiles (disk (snd clone_spaced))))
       /\ v_name v = py "ab"
       /\ active_voice (snd clone_spaced) <> Some (v_name v).
Proof.
  assert (Hraw : safe demo_env (py "a b") <> py "a b") by discriminate.
  assert (Hrun : clone_voice demo_env (py "a b") (py "") (py "fr")
                   (py "sample.wav") [1; 2; 3; 4]%N
                   (py "2025-01-01T00:00:00Z") fresh
                 = (Ok {| r_name := py "a b"; r_description := py "";
                          r_language := py "fr";
                          r_audio_file := py "reference.wav";
                          r_has_preset := true; r_active := true |},
                    snd clone_spaced))
    by (vm_compute; reflexivity).
  destruct (clone_voice_raw_name demo_env _ _ _ _ _ _ _ _ _ Hraw Hrun)
    as (Hdir & _ & _ & _ & _ & Hactive & Hlist).
  split; [reflexivity|]. split; [exact Hdir|]. split; [exact Hactive|].
  apply Hlist; [discriminate|]. vm_compute. reflexivity.
Defined.

(** ** A derivation that fails on a second clone *)

(** C8, where the code departs from it: "alice" is cloned from decodable
    audio, then cloned again from an empty upload.  The decoder rejects the
    new reference, so the derivation raises and is caught; the request
    still returns, the new reference and metadata are saved, but the
    response reports a preset: the archive and the cache entry derived
    from the first reference are still there, and [get_voice_preset]
    serves them. *)
Lemma reclone_failed_derivation_keeps_preset :
  fst clone_alice
  = Ok {| r_name := py "alice"; r_description := py "";
          r_language := py "fr"; r_audio_file := py "reference.wav";
          r_has_preset := true; r_active := true |}
  /\ (forall st,
        disk st !! [py "alice"; py "reference.wav"] = Some (File (FBytes [])) ->
        create_voice_preset demo_env [py "alice"; py "reference.wav"]
          (py "alice") st = (Raise EngineError, st))
  /\ fst reclone_alice
     = Ok {| r_name := py "alice"; r_description := py "";
             r_language := py "fr"; r_audio_file := py "reference.wav";
             r_has_preset := true; r_active := true |}
  /\ disk (snd reclone_alice) !! [py "alice"; py "reference.wav"]
     = Some (File (FBytes []))
  /\ disk (snd reclone_alice) !! [py "alice"; py "voice_preset.npz"]
     = Some (File (FNpz alice_preset))
  /\ voice_presets (snd reclone_alice) !! py "alice" = Some alice_preset
  /\ get_voice_preset demo_env (py "alice") (snd reclone_alice)
     = (Ok (Some alice_preset), snd reclone_alice).
Proof.
  split; [vm_compute; reflexivity|].
  split.
  { intros st Hst. unfold create_voice_preset, encoder_input, read_file.
    rewrite Hst. reflexivity. }
  split; [vm_compute; reflexivity|].
  split; [vm_compute; reflexivity|].
  split; [vm_compute; reflexivity|].
  assert (Hcache : voice_presets (snd reclone_alice) !! py "alice"
                   = Some alice_preset) by (vm_compute; reflexivity).
  split; [exact Hcache|].
  apply get_voice_preset_cached, Hcache.
Qed.

(** ** A failing derivation is not fatal *)

Lemma mkdir_from_frame rest :
  forall (d : gmap (list (list N)) node) base d' q,
    mkdir_from d base rest = Ok d' ->
    (forall k, base ++ rest <> q ++ k) ->
    d' !! q = d !! q.
Proof.
  induction rest as [|s rest IH]; intros d base d' q H Hq; cbn in H.
  - assert (Hd : d' = <[base := Dir]> d)
      by (destruct (d !! base) as [[|f]|]; congruence).
    subst d'. apply lookup_insert_ne. intros ->. apply (Hq []). reflexivity.
  - assert (Hd : mkdir_from (<[base := Dir]> d) (base ++ [s]) rest = Ok d')
      by (destruct (d !! base) as [[|f]|]; congruence).
    rewrite (IH _ _ _ q Hd) by (intros k; rewrite <- app_assoc; apply Hq).
    apply lookup_insert_ne. intros ->. apply (Hq (s :: rest)). reflexivity.
Qed.

Lemma mkdir_parents_below (d d' : gmap (list (list N)) node) dir n :
  n <> [] ->
  mkdir_parents d dir = Ok d' ->
  d' !! (dir </> n) = d !! (dir </> n).
Proof.
  intros Hn H. destruct n as [|c n]; [congruence|].
  apply (mkdir_from_frame _ _ _ _ _ H). intros k Hk.
  rewrite pjoin_nonempty in Hk. cbn in Hk.
  apply (f_equal (@length _)) in Hk. rewrite !length_app in Hk.
  cbn in Hk. lia.
Qed.

Section NonFatalFacts.
Variable E : Env.

(** The guarded derivation step of [clone_voice] (lines 353-358) returns
    in every state: with the preset stored when [create_voice_preset]
    returned, and with the state untouched when it raised. *)
Theorem derivation_step_never_raises
  (wav_path : list (list N)) (name : list N) (st : state) :
  exists st',
    try_except (_ <- create_voice_preset E wav_path name ;; ret tt)
      (fun _ => ret tt) st = (Ok tt, st')
    /\ (forall e st1,
          create_voice_preset E wav_path name st = (Raise e, st1) ->
          st' = st)
    /\ (forall p st1,
          create_voice_preset E wav_path name st = (Ok p, st1) ->
          st' = st1 /\ voice_presets st' !! name = Some p).
Proof.
  destruct (preset_step_nonfatal E wav_path name st)
    as (st' & Hstep & [(p & Hp) | ((e & He) & ->)]);
    exists st' || exists st; (split; [exact Hstep|]); split.
  - intros e st1 H. congruence.
  - intros q st1 H. rewrite Hp in H. injection H as <- <-.
    split; [reflexivity|].
    apply create_voice_preset_ok in Hp as (_ & _ & d' & _ & _ & _ & _ & ->).
    cbn. apply lookup_insert_eq.
  - reflexivity.
  - intros q st1 H. congruence.
Qed.

(** The steps of a returning [clone_voice], with the tree its derivation
    step starts from: the upload stored, and over it the conversion of
    ffmpeg when there is one and it could be written. *)
Lemma clone_voice_steps name description language filename content created
  st resp st' :
  clone_voice E name description language filename content created st
  = (Ok resp, st') ->
  let dir := get_voice_dir E name in
  let audio_path := dir </> (py "reference" ++ upload_ext E filename) in
  let wav_path := dir </> py "reference.wav" in
  exists d1 d2 st4 d5,
    mkdir_parents (disk st) dir = Ok d1
    /\ write_file d1 audio_path (FBytes content) = Ok d2
    /\ let d3 :=
         match ffmpeg E audio_path wav_path (FBytes content) with
         | Converted out =>
           match write_file d2 wav_path (FBytes out) with
           | Ok d => d
           | Raise _ => d2
           end
         | Failed _ => d2
         end in
       (d3 = d2
        \/ exists out, write_file d2 wav_path (FBytes out) = Ok d3)
       /\ (st4 = set_disk d3 st
           \/ exists p,
                create_voice_preset E wav_path name (set_disk d3 st)
                = (Ok p, st4))
       /\ write_file (disk st4) (dir </> py "meta.json")
            (FJson (clone_meta name description language created filename
                      (length content))) = Ok d5
       /\ st' = set_active_voice (Some name) (set_disk d5 st4)
       /\ resp = {| r_name := name; r_description := description;
                    r_language := language;
                    r_audio_file := py "reference.wav";
                    r_has_preset :=
                      path_exists d5 (dir </> py "voice_preset.npz");
                    r_active := true |}.
Proof.
  intros H dir audio_path wav_path. unfold clone_voice in H.
  fold dir in H. fold audio_path wav_path in H.
  apply bind_ok in H as (u1 & st1 & H1 & H).
  apply update_disk_ok in H1 as (d1 & Hd1 & ->).
  apply bind_ok in H as (u2 & st2 & H2 & H).
  apply update_disk_ok in H2 as (d2 & Hd2 & ->). cbn [disk set_disk] in Hd2.
  apply bind_ok in H as (u3 & st3 & H3 & H).
  apply bind_ok in H as (u4 & st4 & H4 & H).
  apply bind_ok in H as (u5 & st5 & H5 & H).
  apply update_disk_ok in H5 as (d5 & Hd5 & ->).
  apply bind_ok in H as (u6 & st6 & H6 & H).
  apply bind_ok in H as (hp & st7 & H7 & H).
  unfold modify in H6. injection H6 as _ <-.
  unfold gets in H7. injection H7 as <- <-.
  unfold ret in H. injection H as <- <-.
  exists d1, d2.
  set (d3 := match ffmpeg E audio_path wav_path (FBytes content) with
             | Converted out =>
               match write_file d2 wav_path (FBytes out) with
               | Ok d => d
               | Raise _ => d2
               end
             | Failed _ => d2
             end).
  assert (H3' : st3 = set_disk d3 st
                /\ (d3 = d2
                    \/ exists out,
                         write_file d2 wav_path (FBytes out) = Ok d3)).
  { unfold try_except, raise, ret in H3. unfold d3.
    destruct (ffmpeg E audio_path wav_path (FBytes content)) as [out|msg].
    - unfold update_disk in H3. cbn [disk set_disk] in H3.
      destruct (write_file d2 wav_path (FBytes out)) as [d|e] eqn:Hw.
      + injection H3 as _ <-. split; [reflexivity|]. right. eauto.
      + destruct (negb _); [discriminate|]. injection H3 as _ <-.
        split; [reflexivity|]. left. reflexivity.
    - destruct (negb _); [discriminate|]. injection H3 as _ <-.
      split; [reflexivity|]. left. reflexivity. }
  destruct H3' as (-> & Hd3).
  destruct (preset_step_nonfatal E wav_path name (set_disk d3 st))
    as (st4' & Hstep & Hcase).
  rewrite Hstep in H4. injection H4 as _ <-.
  exists st4', d5.
  split; [exact Hd1|]. split; [exact Hd2|]. cbv zeta. fold d3.
  split; [exact Hd3|].
  split; [destruct Hcase as [Hp|[_ ->]]; [right; exact Hp|left; reflexivity]|].
  split; [exact Hd5|]. split; reflexivity.
Qed.

(** A clone whose derivation raises, into a directory without a preset
    archive: when the request returns, the response reports no preset,
    the cache is as before, and the upload and the metadata are saved
    under the raw name's directory with the voice made active.  The
    derivation is the one of this request: it runs on the tree that holds
    the upload and, where ffmpeg converted it, the conversion. *)
Theorem clone_voice_without_preset
  (name description language filename content created : list N)
  (st st' : state) (resp : clone_response)
  (d1 d2 : gmap (list (list N)) node) (e : exn) (st3 : state) :
  let dir := get_voice_dir E name in
  let audio_path := dir </> (py "reference" ++ upload_ext E filename) in
  let wav_path := dir </> py "reference.wav" in
  mkdir_parents (disk st) dir = Ok d1 ->
  write_file d1 audio_path (FBytes content) = Ok d2 ->
  create_voice_preset E wav_path name
    (set_disk
       match ffmpeg E audio_path wav_path (FBytes content) with
       | Converted out =>
         match write_file d2 wav_path (FBytes out) with
         | Ok d => d
         | Raise _ => d2
         end
       | Failed _ => d2
       end st)
  = (Raise e, st3) ->
  path_exists (disk st) (dir </> py "voice_preset.npz") = false ->
  clone_voice E name description language filename content created st
  = (Ok resp, st') ->
  r_has_preset resp = false
  /\ resp = {| r_name := name; r_description := description;
               r_language := language; r_audio_file := py "reference.wav";
               r_has_preset := false; r_active := true |}
  /\ voice_presets st' = voice_presets st
  /\ active_voice st' = Some name
  /\ (exists b, disk st' !! audio_path = Some (File (FBytes b)))
  /\ disk st' !! (dir </> py "meta.json")
     = Some (File (FJson (clone_meta name description language created
                            filename (length content)))).
Proof.
  intros dir audio_path wav_path Hmk Hwr Hraise Hnone Hclone.
  apply clone_voice_steps in Hclone
    as (d1' & d2' & st4 & d5 & Hd1 & Hd2 & Hd3 & Hst4 & Hd5 & -> & ->).
  fold dir in Hd1, Hd2, Hd3, Hst4, Hd5 |- *.
  fold audio_path wav_path in Hd2, Hd3, Hst4.
  rewrite Hmk in Hd1. injection Hd1 as <-.
  rewrite Hwr in Hd2. injection Hd2 as <-.
  set (d3 := match ffmpeg E audio_path wav_path (FBytes content) with
             | Converted out =>
               match write_file d2 wav_path (FBytes out) with
               | Ok d => d
               | Raise _ => d2
               end
             | Failed _ => d2
             end) in *.
  set (ref := py "reference" ++ upload_ext E filename) in *.
  destruct (reference_name_facts (upload_ext E filename))
    as (Hr0 & Hrp & Hrm). fold ref in Hr0, Hrp, Hrm.
  destruct fixed_name_facts as (Hm0 & Hp0 & Hw0 & Hmp & Hmw & Hpw).
  destruct Hst4 as [-> | (p & Hp)]; [|congruence].
  cbn [disk set_disk] in Hd5.
  assert (Hpre : d5 !! (dir </> py "voice_preset.npz") = None).
  { rewrite (write_file_other _ _ _ _ _ Hd5)
      by (apply pjoin_ne_name; congruence).
    assert (H2 : d2 !! (dir </> py "voice_preset.npz") = None).
    { rewrite (write_file_other _ _ _ _ _ Hwr)
        by (apply pjoin_ne_name; congruence).
      rewrite (mkdir_parents_below _ _ _ _ Hp0 Hmk).
      unfold path_exists in Hnone.
      destruct (disk st !! (dir </> py "voice_preset.npz"));
        [discriminate|reflexivity]. }
    destruct Hd3 as [-> | (out & Hd3)]; [exact H2|].
    rewrite (write_file_other _ _ _ _ _ Hd3)
      by (apply pjoin_ne_name; congruence).
    exact H2. }
  assert (Hflag : path_exists d5 (dir </> py "voice_preset.npz") = false)
    by (unfold path_exists; rewrite Hpre; reflexivity).
  rewrite Hflag. cbn [r_has_preset voice_presets active_voice disk
                      set_active_voice set_disk].
  split; [reflexivity|]. split; [reflexivity|]. split; [reflexivity|].
  split; [reflexivity|]. split.
  - assert (H2 : d2 !! audio_path = Some (File (FBytes content)))
      by apply (write_file_same _ _ _ _ Hwr).
    assert (H3 : exists b, d3 !! audio_path = Some (File (FBytes b))).
    { destruct Hd3 as [-> | (out & Hd3)]; [eauto|].
      destruct (decide (audio_path = wav_path)) as [Heq|Hne].
      - rewrite Heq. exists out. apply (write_file_same _ _ _ _ Hd3).
      - exists content.
        rewrite (write_file_other _ _ _ _ _ Hd3 Hne). exact H2. }
    destruct H3 as (b & H3). exists b.
    rewrite (write_file_other _ _ _ _ _ Hd5)
      by (apply pjoin_ne_name; assumption).
    exact H3.
  - apply (write_file_same _ _ _ _ Hd5).
Qed.

(** Synthesis for a named voice that has no preset in the cache or on
    disk, and whose reference audio is missing or fails to derive: the
    request goes on with no preset (the default voice). *)
Theorem tts_default_without_preset
  (text language : list N) (voice : option (list N)) (n : list N)
  (st st1 : state) (m : BarkModel) (p : BarkProcessor) :
  load_model E st = (Ok (m, Some p), st1) ->
  py_or voice (active_voice st) = Some n ->
  truthy n = true ->
  startswith (py "v2/") n = false ->
  voice_presets st !! n = None ->
  path_exists (disk st) (get_voice_dir E n </> py "voice_preset.npz")
  = false ->
  (find_reference_audio E (disk st) n = None
   \/ exists ref e st2,
        find_reference_audio E (disk st) n = Some ref
        /\ create_voice_preset E ref n st1 = (Raise e, st2)) ->
  tts E text voice language st
  = (Ok {| s_voice_name := Some n; s_model := m; s_processor := p;
           s_text := text; s_voice_preset := VPNone; s_voice_tag := n |},
     st1).
Proof.
  intros Hload Hn Ht Hv Hcache Hdisk Href.
  destruct (load_model_frame _ _ _ _ Hload) as (Hpres & _ & Hd).
  assert (Hget : get_voice_preset E n st1 = (Ok None, st1)).
  { apply get_voice_preset_fallback.
    - rewrite Hpres. exact Hcache.
    - rewrite Hd. exact Hdisk.
    - rewrite Hd. exact Href. }
  unfold tts. rewrite Hload, Hn, Hv, Ht, Hget. cbn [andb].
  destruct n; [discriminate|]. reflexivity.
Qed.

End NonFatalFacts.

Lemma clone_voice_without_preset_witness :
  fst clone_zed
  = Ok {| r_name := py "zed"; r_description := py "";
          r_language := py "fr"; r_audio_file := py "reference.wav";
          r_has_preset := false; r_active := true |}
  /\ voice_presets (snd clone_zed) = voice_presets fresh
  /\ active_voice (snd clone_zed) = Some (py "zed").
Proof.
  destruct (clone_voice_without_preset demo_env (py "zed") (py "") (py "fr")
              (py "zed.wav") [] (py "2025-01-06T00:00:00Z") fresh
              (snd clone_zed)
              {| r_name := py "zed"; r_description := py "";
                 r_language := py "fr"; r_audio_file := py "reference.wav";
                 r_has_preset := false; r_active := true |}
              (<[ [py "zed"] := Dir ]> {[ VOICES_DIR := Dir ]})
              (<[ [py "zed"; py "reference.wav"] := File (FBytes []) ]>
                 (<[ [py "zed"] := Dir ]> {[ VOICES_DIR := Dir ]}))
              EngineError
              (set_disk
                 (<[ [py "zed"; py "reference.wav"] := File (FBytes []) ]>
                    (<[ [py "zed"] := Dir ]> {[ VOICES_DIR := Dir ]}))
                 fresh))
    as (_ & Hresp & Hcache & Hactive & _).
  - vm_compute. reflexivity.
  - vm_compute. reflexivity.
  - vm_compute. reflexivity.
  - vm_compute. reflexivity.
  - vm_compute. reflexivity.
  - split; [vm_compute; reflexivity|]. split; [exact Hcache|exact Hactive].
Defined.

Lemma tts_default_without_preset_witness :
  tts demo_env (py "bonjour") (Some (py "ghost")) (py "fr") fresh
  = (Ok {| s_voice_name := Some (py "ghost");
           s_model := {| m_dtype := float32; m_device := cpu;
                         m_eval := true; m_cpu_offload := false |};
           s_processor := {| p_dtype := float32 |};
           s_text := py "bonjour"; s_voice_preset := VPNone;
           s_voice_tag := py "ghost" |},
     set_bark_model
       (Some {| m_dtype := float32; m_device := cpu;
                m_eval := true; m_cpu_offload := false |})
       (set_bark_processor (Some {| p_dtype := float32 |}) fresh)).
Proof.
  apply (tts_default_without_preset demo_env (py "bonjour") (py "fr")
           (Some (py "ghost")) (py "ghost") fresh).
  - reflexivity.
  - reflexivity.
  - reflexivity.
  - reflexivity.
  - reflexivity.
  - reflexivity.
  - left. vm_compute. reflexivity.
Defined.

(** * Further properties of the server *)

(** ** What sanitisation does to a name *)

Section SanitizeMore.
Variable E : Env.

Lemma safe_sublist name : sublist (safe E name) name.
Proof.
  induction name as [|c name IH]; [constructor|].
  rewrite safe_cons. destruct (keep E c); constructor; exact IH.
Qed.

Lemma safe_In c name : In c (safe E name) -> keep E c = true /\ In c name.
Proof.
  unfold safe. rewrite List.filter_In. tauto.
Qed.

(** Sanitisation only deletes characters: the stored name is a
    subsequence of the requested one, never longer, and it is the requested
    name itself exactly when every character is alphanumeric, ['-'] or
    ['_']. *)
Theorem safe_only_deletes (name : list N) :
  sublist (safe E name) name
  /\ length (safe E name) <= length name
  /\ (safe E name = name <-> Forall (fun c => keep E c = true) name).
Proof.
  split; [apply safe_sublist|].
  split; [apply sublist_length, safe_sublist|].
  split.
  - intros Heq. rewrite <- Heq. apply safe_keeps.
  - apply safe_fixpoint.
Qed.

(** [get_voice_dir] is path-safe: the directory is [VOICES_DIR] itself
    (exactly when no character of the name is kept) or one entry directly
    below it, whose name holds no ['/'], no ['\'], no ['.'] and no NUL;
    so it is never [".."], never nested and never outside [VOICES_DIR]. *)
Theorem get_voice_dir_path_safe (name : list N) :
  (safe E name = [] /\ get_voice_dir E name = VOICES_DIR)
  \/ (exists s,
        s <> [] /\ s = safe E name /\ get_voice_dir E name = [s]
        /\ parent (get_voice_dir E name) = VOICES_DIR
        /\ ~ In 47%N s /\ ~ In 92%N s /\ ~ In 46%N s /\ ~ In 0%N s).
Proof.
  unfold get_voice_dir.
  destruct (safe E name) as [|c s] eqn:Hs; [left; split; reflexivity|].
  right. exists (c :: s).
  assert (Hno : forall x, keep E x = false -> ~ In x (c :: s)).
  { intros x Hx Hin. rewrite <- Hs in Hin. apply safe_In in Hin as [Hk _].
    congruence. }
  split; [discriminate|]. split; [reflexivity|]. split; [reflexivity|].
  split; [reflexivity|].
  repeat split; apply Hno; reflexivity.
Qed.

End SanitizeMore.

(** ** The order of [sorted] *)

Section LexOrder.
Context {A : Type} (ltb eqb : A -> A -> bool).
Hypothesis eqb_eq : forall x y, eqb x y = true <-> x = y.
Hypothesis ltb_irrefl : forall x, ltb x x = false.
Hypothesis ltb_trans :
  forall x y z, ltb x y = true -> ltb y z = true -> ltb x z = true.
Hypothesis ltb_total : forall x y, ltb x y = true \/ x = y \/ ltb y x = true.

Lemma lex_leb_refl a : lex_leb ltb eqb a a = true.
Proof.
  induction a as [|x a IH]; [reflexivity|]. cbn.
  rewrite (proj2 (eqb_eq x x) eq_refl), IH. apply orb_true_r.
Qed.

Lemma lex_leb_total a :
  forall b, lex_leb ltb eqb a b = true \/ lex_leb ltb eqb b a = true.
Proof.
  induction a as [|x a IH]; intros [|y b]; cbn; auto.
  destruct (ltb_total x y) as [H | [-> | H]].
  - left. rewrite H. reflexivity.
  - rewrite (proj2 (eqb_eq y y) eq_refl), ltb_irrefl. cbn. apply IH.
  - right. rewrite H. reflexivity.
Qed.

Lemma lex_leb_trans a :
  forall b c,
    lex_leb ltb eqb a b = true -> lex_leb ltb eqb b c = true ->
    lex_leb ltb eqb a c = true.
Proof.
  induction a as [|x a IH]; intros [|y b] [|z c]; cbn; try congruence.
  rewrite !orb_true_iff, !andb_true_iff, !eqb_eq.
  intros [Hxy | [-> Hab]] [Hyz | [-> Hbc]].
  - left. eapply ltb_trans; eassumption.
  - left. exact Hxy.
  - left. exact Hyz.
  - right. split; [reflexivity|]. eapply IH; eassumption.
Qed.

Lemma lex_leb_antisym a :
  forall b,
    lex_leb ltb eqb a b = true -> lex_leb ltb eqb b a = true -> a = b.
Proof.
  induction a as [|x a IH]; intros [|y b]; cbn; try congruence.
  rewrite !orb_true_iff, !andb_true_iff, !eqb_eq.
  intros [Hxy | [-> Hab]] [Hyx | [Heq Hba]].
  - pose proof (ltb_trans _ _ _ Hxy Hyx) as H. rewrite ltb_irrefl in H.
    discriminate.
  - subst. rewrite ltb_irrefl in Hxy. discriminate.
  - rewrite ltb_irrefl in Hyx. discriminate.
  - f_equal. apply IH; assumption.
Qed.

End LexOrder.

Lemma str_leb_total (a b : list N) : str_leb a b = true \/ str_leb b a = true.
Proof.
  apply lex_leb_total.
  - apply N.eqb_eq.
  - apply N.ltb_irrefl.
  - intros x y. rewrite !N.ltb_lt. lia.
Qed.

Lemma str_leb_trans (a b c : list N) :
  str_leb a b = true -> str_leb b c = true -> str_leb a c = true.
Proof.
  apply lex_leb_trans.
  - apply N.eqb_eq.
  - intros x y z. rewrite !N.ltb_lt. lia.
Qed.

Lemma str_leb_antisym (a b : list N) :
  str_leb a b = true -> str_leb b a = true -> a = b.
Proof.
  apply lex_leb_antisym.
  - apply N.eqb_eq.
  - apply N.ltb_irrefl.
  - intros x y z. rewrite !N.ltb_lt. lia.
Qed.

Lemma str_eqb_eq (a b : list N) : str_eqb a b = true <-> a = b.
Proof. unfold str_eqb. apply bool_decide_eq_true. Qed.

Lemma str_ltb_spec (a b : list N) :
  str_ltb a b = true <-> str_leb a b = true /\ a <> b.
Proof.
  unfold str_ltb. rewrite andb_true_iff, negb_true_iff.
  unfold str_eqb. rewrite bool_decide_eq_false. tauto.
Qed.

Lemma path_leb_total (p q : list (list N)) :
  path_leb p q = true \/ path_leb q p = true.
Proof.
  apply lex_leb_total.
  - apply str_eqb_eq.
  - intros x. unfold str_ltb, str_eqb.
    rewrite bool_decide_eq_true_2 by reflexivity. apply andb_false_r.
  - intros x y. rewrite !str_ltb_spec.
    destruct (decide (x = y)) as [->|Hne]; [auto|].
    destruct (str_leb_total x y); [left|right; right]; split; congruence.
Qed.

Lemma path_leb_trans (p q r : list (list N)) :
  path_leb p q = true -> path_leb q r = true -> path_leb p r = true.
Proof.
  apply lex_leb_trans.
  - apply str_eqb_eq.
  - intros x y z. rewrite !str_ltb_spec. intros [Hxy Hne] [Hyz Hne'].
    split; [eapply str_leb_trans; eassumption|].
    intros ->. apply Hne. apply str_leb_antisym; assumption.
Qed.

(** Insertion keeps an ordered list ordered, and permutes. *)
Section Sorting.
Context {A : Type} (leb : A -> A -> bool).
Hypothesis leb_total : forall x y, leb x y = true \/ leb y x = true.
Hypothesis leb_trans :
  forall x y z, leb x y = true -> leb y z = true -> leb x z = true.

Lemma insert_by_perm x l : Permutation (insert_by leb x l) (x :: l).
Proof.
  induction l as [|y l IH]; cbn; [reflexivity|].
  destruct (leb x y); [reflexivity|].
  rewrite IH. apply perm_swap.
Qed.

Lemma sorted_by_perm l : Permutation (sorted_by leb l) l.
Proof.
  induction l as [|x l IH]; cbn; [reflexivity|].
  rewrite insert_by_perm, IH. reflexivity.
Qed.

Lemma insert_by_sorted x l :
  StronglySorted (fun a b => leb a b = true) l ->
  StronglySorted (fun a b => leb a b = true) (insert_by leb x l).
Proof.
  induction 1 as [|y l Hl IH Hy]; cbn; [repeat constructor|].
  destruct (leb x y) eqn:Hxy.
  - constructor; [constructor; assumption|].
    constructor; [exact Hxy|].
    eapply List.Forall_impl; [|exact Hy].
    intros z Hz. eapply leb_trans; eassumption.
  - constructor; [exact IH|].
    assert (Hyx : leb y x = true)
      by (destruct (leb_total x y); congruence).
    apply List.Forall_forall. intros z Hz.
    apply (Permutation_in _ (insert_by_perm x l)) in Hz.
    destruct Hz as [<-|Hz]; [exact Hyx|].
    rewrite List.Forall_forall in Hy. apply Hy, Hz.
Qed.

Lemma sorted_by_sorted l :
  StronglySorted (fun a b => leb a b = true) (sorted_by leb l).
Proof.
  induction l as [|x l IH]; cbn; [constructor|].
  apply insert_by_sorted, IH.
Qed.

End Sorting.

(** ** Directory entries *)

Lemma is_child_spec (p q : list (list N)) :
  is_child p q = true <-> exists s, q = p ++ [s].
Proof.
  unfold is_child, parent. split.
  - destruct q as [|x q]; [discriminate|].
    rewrite bool_decide_eq_true. intros <-.
    exists (List.last (x :: q) []). apply app_removelast_last. discriminate.
  - intros (s & ->). destruct (p ++ [s]) eqn:Hp.
    + destruct p; discriminate.
    + rewrite <- Hp. apply bool_decide_eq_true. apply removelast_last.
Qed.

Lemma children_spec (d : gmap (list (list N)) node) p q :
  In q (children d p) <-> is_Some (d !! q) /\ exists s, q = p ++ [s].
Proof.
  unfold children. rewrite List.filter_In, is_child_spec, List.in_map_iff.
  split.
  - intros [((q' & n) & Hq & Hin) Hs]. cbn in Hq. subst q'.
    apply list_elem_of_In, elem_of_map_to_list in Hin.
    split; [eauto|exact Hs].
  - intros [[n Hn] Hs]. split; [|exact Hs].
    exists (q, n). split; [reflexivity|].
    apply list_elem_of_In, elem_of_map_to_list, Hn.
Qed.

Lemma children_NoDup (d : gmap (list (list N)) node) p :
  List.NoDup (children d p).
Proof.
  unfold children. apply List.NoDup_filter.
  apply NoDup_ListNoDup. exact (NoDup_fst_map_to_list d).
Qed.

Lemma glob_ext_spec (d : gmap (list (list N)) node) p ext q :
  In q (glob_ext d p ext)
  <-> is_dir d p = true
      /\ is_Some (d !! q)
      /\ exists s, q = p ++ [s] /\ endswith ext s = true.
Proof.
  unfold glob_ext. destruct (is_dir d p).
  - rewrite List.filter_In, children_spec. split.
    + intros [[Hq (s & ->)] He]. unfold name_of in He.
      rewrite last_last in He. eauto 6.
    + intros (_ & Hq & s & -> & He). unfold name_of.
      rewrite last_last. eauto.
  - split; [intros []|intros [? _]; discriminate].
Qed.

Lemma path_leb_siblings (p : list (list N)) (a b : list N) :
  path_leb (p ++ [a]) (p ++ [b]) = str_leb a b.
Proof.
  induction p as [|x p IH]; cbn.
  - unfold str_ltb, str_eqb.
    destruct (decide (a = b)) as [->|Hne].
    + rewrite bool_decide_eq_true_2 by reflexivity.
      rewrite andb_true_r, orb_true_r.
      symmetry. apply lex_leb_refl. apply N.eqb_eq.
    + rewrite bool_decide_eq_false_2 by exact Hne. cbn.
      rewrite andb_true_r, orb_false_r. reflexivity.
  - fold (path_leb (p ++ [a]) (p ++ [b])). rewrite IH.
    unfold str_ltb at 1, str_eqb.
    rewrite bool_decide_eq_true_2 by reflexivity.
    rewrite andb_false_r. reflexivity.
Qed.

(** The head of a sorted list is its least element. *)
Lemma sorted_paths_head (l : list (list (list N))) f rest :
  sorted_by path_leb l = f :: rest ->
  In f l /\ forall q, In q l -> path_leb f q = true.
Proof.
  intros Hs.
  pose proof (sorted_by_perm path_leb l) as Hperm.
  pose proof (sorted_by_sorted path_leb path_leb_total path_leb_trans l)
    as Hsorted.
  rewrite Hs in Hperm, Hsorted.
  split; [apply (Permutation_in _ Hperm); left; reflexivity|].
  intros q Hq. apply (Permutation_in _ (Permutation_sym Hperm)) in Hq.
  destruct Hq as [<-|Hq].
  - apply lex_leb_refl. apply str_eqb_eq.
  - apply StronglySorted_inv in Hsorted as [_ Hall].
    rewrite List.Forall_forall in Hall. apply Hall, Hq.
Qed.

Lemma sorted_by_nil {A} (leb : A -> A -> bool) l :
  sorted_by leb l = [] <-> l = [].
Proof.
  split; [|intros ->; reflexivity].
  intros H. pose proof (sorted_by_perm leb l) as Hp. rewrite H in Hp.
  apply Permutation_nil in Hp. exact Hp.
Qed.

Lemma glob_ext_nil (d : gmap (list (list N)) node) p ext :
  glob_ext d p ext = []
  <-> is_dir d p = false
      \/ forall t, is_Some (d !! (p ++ [t])) -> endswith ext t = false.
Proof.
  split.
  - intros Hnil. destruct (is_dir d p) eqn:Hdir; [right|left; reflexivity].
    intros t Ht. destruct (endswith ext t) eqn:He; [|reflexivity].
    assert (Hin : In (p ++ [t]) (glob_ext d p ext))
      by (apply glob_ext_spec; eauto 6).
    rewrite Hnil in Hin. destruct Hin.
  - intros H. destruct (glob_ext d p ext) as [|q l] eqn:Hg; [reflexivity|].
    assert (Hin : In q (glob_ext d p ext)) by (rewrite Hg; left; reflexivity).
    apply glob_ext_spec in Hin as (Hdir & Hq & s & -> & He).
    destruct H as [H|H]; [congruence|].
    rewrite (H s Hq) in He. discriminate.
Qed.

(** The first match of a sorted glob: an entry of the directory with the
    extension, and the least such entry by name. *)
Lemma glob_ext_first (d : gmap (list (list N)) node) p ext f rest :
  sorted_by path_leb (glob_ext d p ext) = f :: rest ->
  exists s,
    f = p ++ [s] /\ is_Some (d !! f) /\ is_dir d p = true
    /\ endswith ext s = true
    /\ forall t, is_Some (d !! (p ++ [t])) -> endswith ext t = true ->
                 str_leb s t = true.
Proof.
  intros Hs. apply sorted_paths_head in Hs as [Hin Hmin].
  apply glob_ext_spec in Hin as (Hdir & Hf & s & -> & He).
  exists s. repeat split; try assumption.
  intros t Ht Het. rewrite <- (path_leb_siblings p). apply Hmin.
  apply glob_ext_spec. eauto 6.
Qed.

(** ** Locating the reference audio *)

Section ReferenceFacts.
Variable E : Env.

(** [find_reference_audio] returns an entry of the profile directory whose
    name ends in [".wav"], or in [".mp3"] when no entry ends in [".wav"],
    and among those the least by name; it returns [None] exactly when the
    profile directory is no directory or holds no such entry. *)
Theorem find_reference_audio_spec
  (d : gmap (list (list N)) node) (name : list N) :
  (forall f,
     find_reference_audio E d name = Some f ->
     exists s ext,
       f = get_voice_dir E name ++ [s]
       /\ is_Some (d !! f)
       /\ is_dir d (get_voice_dir E name) = true
       /\ endswith ext s = true
       /\ (ext = py ".wav"
           \/ ext = py ".mp3"
              /\ forall t, is_Some (d !! (get_voice_dir E name ++ [t])) ->
                           endswith (py ".wav") t = false)
       /\ forall t, is_Some (d !! (get_voice_dir E name ++ [t])) ->
                    endswith ext t = true -> str_leb s t = true)
  /\ (find_reference_audio E d name = None
      <-> is_dir d (get_voice_dir E name) = false
          \/ forall t, is_Some (d !! (get_voice_dir E name ++ [t])) ->
                       endswith (py ".wav") t = false
                       /\ endswith (py ".mp3") t = false).
Proof.
  unfold find_reference_audio.
  set (dir := get_voice_dir E name).
  destruct (path_exists d dir) eqn:Hex; cbn [negb].
  - destruct (sorted_by path_leb (glob_ext d dir (py ".wav")))
      as [|f rest] eqn:Hwav.
    + apply sorted_by_nil in Hwav.
      destruct (sorted_by path_leb (glob_ext d dir (py ".mp3")))
        as [|g rest] eqn:Hmp3.
      * apply sorted_by_nil in Hmp3. split; [discriminate|].
        split; [intros _|reflexivity].
        apply glob_ext_nil in Hwav as [Hd|Hw]; [left; exact Hd|].
        apply glob_ext_nil in Hmp3 as [Hd|Hm]; [left; exact Hd|].
        right. intros t Ht. split; [apply Hw|apply Hm]; exact Ht.
      * apply glob_ext_first in Hmp3 as (s & -> & Hf & Hdir & He & Hmin).
        split.
        -- intros f' Hf'. injection Hf' as <-. exists s, (py ".mp3").
           repeat split; try assumption. right. split; [reflexivity|].
           apply glob_ext_nil in Hwav as [Hd|Hw]; [congruence|exact Hw].
        -- split; [discriminate|].
           intros [Hd|Hno]; [congruence|].
           destruct (Hno s Hf) as [_ Hm]. congruence.
    + apply glob_ext_first in Hwav as (s & -> & Hf & Hdir & He & Hmin).
      split.
      * intros f' Hf'. injection Hf' as <-. exists s, (py ".wav").
        repeat split; try assumption. left. reflexivity.
      * split; [discriminate|].
        intros [Hd|Hno]; [congruence|].
        destruct (Hno s Hf) as [Hw _]. congruence.
  - split; [discriminate|]. split; [intros _|reflexivity].
    left. destruct (is_dir d dir) eqn:Hd; [|reflexivity].
    apply is_dir_exists in Hd. congruence.
Qed.

End ReferenceFacts.

Lemma find_reference_audio_spec_witness :
  find_reference_audio demo_env (disk (snd clone_alice)) (py "alice")
  = Some [py "alice"; py "reference.wav"]
  /\ exists s ext,
       [py "alice"; py "reference.wav"]
       = get_voice_dir demo_env (py "alice") ++ [s]
       /\ endswith ext s = true
       /\ (ext = py ".wav" \/ ext = py ".mp3").
Proof.
  assert (Hfind : find_reference_audio demo_env (disk (snd clone_alice))
                    (py "alice") = Some [py "alice"; py "reference.wav"])
    by (vm_compute; reflexivity).
  split; [exact Hfind|].
  destruct (proj1 (find_reference_audio_spec demo_env
                     (disk (snd clone_alice)) (py "alice")) _ Hfind)
    as (s & ext & Hf & _ & _ & He & Hext & _).
  exists s, ext. split; [exact Hf|]. split; [exact He|].
  destruct Hext as [H|[H _]]; [left|right]; exact H.
Defined.

(** ** Listing the profiles: names, order, metadata *)

Lemma profiles_of_rows (d : gmap (list (list N)) node) ds :
  forall vs,
    profiles_of d ds = Ok vs ->
    Forall2 (fun p v => profile_summary d p = Ok v)
      (List.filter (is_dir d) ds) vs.
Proof.
  induction ds as [|p ds IH]; intros vs H; cbn in H.
  - injection H as <-. constructor.
  - cbn [List.filter]. destruct (is_dir d p); [|apply IH, H].
    destruct (profile_summary d p) as [v|] eqn:Hv; [|discriminate].
    destruct (profiles_of d ds) as [vs'|]; [|discriminate].
    injection H as <-. constructor; [exact Hv|]. apply IH. reflexivity.
Qed.

Lemma profiles_of_raise (d : gmap (list (list N)) node) ds p e :
  In p ds -> is_dir d p = true -> profile_summary d p = Raise e ->
  exists e', profiles_of d ds = Raise e'.
Proof.
  induction ds as [|q ds IH]; intros Hin Hdir Hraise; [destruct Hin|].
  cbn. destruct Hin as [->|Hin].
  - rewrite Hdir, Hraise. eauto.
  - destruct (IH Hin Hdir Hraise) as (e' & He').
    rewrite He'. destruct (is_dir d q); [|eauto].
    destruct (profile_summary d q); eauto.
Qed.

Lemma rows_names (d : gmap (list (list N)) node) ps vs :
  Forall2 (fun p v => profile_summary d p = Ok v) ps vs ->
  List.map v_name vs = List.map name_of ps.
Proof.
  induction 1 as [|p v ps vs Hv _ IH]; [reflexivity|].
  cbn. rewrite IH. f_equal. apply (profile_summary_name d), Hv.
Qed.

Lemma StronglySorted_filter {A} (R : A -> A -> Prop) (f : A -> bool) l :
  StronglySorted R l -> StronglySorted R (List.filter f l).
Proof.
  induction 1 as [|x l Hl IH Hx]; cbn; [constructor|].
  destruct (f x); [|exact IH].
  constructor; [exact IH|].
  rewrite List.Forall_forall in *. intros y Hy.
  apply List.filter_In in Hy as [Hy _]. apply Hx, Hy.
Qed.

Lemma entry_names_sorted (l : list (list (list N))) :
  Forall (fun p => exists s, p = [s]) l ->
  StronglySorted (fun p q => path_leb p q = true) l ->
  StronglySorted (fun a b => str_leb a b = true) (List.map name_of l).
Proof.
  intros Hall Hs. induction Hs as [|p l Hl IH Hp]; cbn; [constructor|].
  apply Forall_cons_1 in Hall as [(s & ->) Hall].
  constructor; [apply IH, Hall|].
  rewrite List.Forall_forall in *. intros b Hb.
  apply List.in_map_iff in Hb as (q & <- & Hq).
  destruct (Hall q Hq) as (t & ->).
  change (str_leb s t = true).
  rewrite <- (path_leb_siblings [] s t). apply Hp, Hq.
Qed.

Lemma entry_names_nodup (l : list (list (list N))) :
  Forall (fun p => exists s, p = [s]) l ->
  List.NoDup l -> List.NoDup (List.map name_of l).
Proof.
  intros Hall Hnd. apply NoDup_map_NoDup_ForallPairs; [|exact Hnd].
  rewrite List.Forall_forall in Hall.
  intros p q Hp Hq Heq.
  destruct (Hall p Hp) as (s & ->). destruct (Hall q Hq) as (t & ->).
  cbn in Heq. congruence.
Qed.

(** The directories [list_voice_profiles] walks through, in order. *)
Lemma listed_rows (d : gmap (list (list N)) node) vs :
  d !! VOICES_DIR = Some Dir ->
  list_voice_profiles d = Ok vs ->
  Forall2 (fun p v => profile_summary d p = Ok v)
    (List.filter (is_dir d) (sorted_by path_leb (children d VOICES_DIR))) vs.
Proof.
  intros Hroot H. unfold list_voice_profiles, iterdir in H.
  rewrite (is_dir_exists d VOICES_DIR) in H by (apply is_dir_lookup, Hroot).
  rewrite (proj2 (is_dir_lookup d VOICES_DIR) Hroot) in H. cbn [negb] in H.
  apply profiles_of_rows, H.
Qed.

Lemma listed_dirs_spec (d : gmap (list (list N)) node) p :
  In p (List.filter (is_dir d) (sorted_by path_leb (children d VOICES_DIR)))
  <-> exists s, p = [s] /\ d !! [s] = Some Dir.
Proof.
  rewrite List.filter_In, sorted_by_In, children_spec, is_dir_lookup.
  split.
  - intros [[_ (s & ->)] Hd]. eauto.
  - intros (s & -> & Hd). rewrite Hd. eauto.
Qed.

(** A listing that returns names exactly the directories directly below
    [VOICES_DIR] (plain files there are not profiles), each once, in
    ascending order of their names. *)
Theorem list_voice_profiles_names
  (d : gmap (list (list N)) node) (vs : list voice_summary) :
  d !! VOICES_DIR = Some Dir ->
  list_voice_profiles d = Ok vs ->
  (forall s, In s (List.map v_name vs) <-> d !! [s] = Some Dir)
  /\ List.NoDup (List.map v_name vs)
  /\ StronglySorted (fun a b => str_leb a b = true) (List.map v_name vs).
Proof.
  intros Hroot Hlist.
  pose proof (listed_rows d vs Hroot Hlist) as Hrows.
  rewrite (rows_names _ _ _ Hrows).
  set (ps := List.filter (is_dir d)
               (sorted_by path_leb (children d VOICES_DIR))) in *.
  assert (Hsingle : Forall (fun p => exists s, p = [s]) ps).
  { apply List.Forall_forall. intros p Hp.
    apply listed_dirs_spec in Hp as (s & -> & _). eauto. }
  split; [|split].
  - intros s. rewrite List.in_map_iff. split.
    + intros (p & <- & Hp). apply listed_dirs_spec in Hp as (t & -> & Hd).
      exact Hd.
    + intros Hd. exists [s]. split; [reflexivity|].
      apply listed_dirs_spec. eauto.
  - apply entry_names_nodup; [exact Hsingle|].
    apply List.NoDup_filter.
    apply (Permutation_NoDup (Permutation_sym (sorted_by_perm path_leb _))).
    apply children_NoDup.
  - apply entry_names_sorted; [exact Hsingle|].
    apply StronglySorted_filter.
    apply sorted_by_sorted; [apply path_leb_total|apply path_leb_trans].
Qed.

Lemma list_voice_profiles_names_witness :
  (forall s,
     In s (List.map v_name
             (ok_or [] (list_voice_profiles (disk (snd clone_alice)))))
     <-> disk (snd clone_alice) !! [s] = Some Dir)
  /\ List.NoDup
       (List.map v_name
          (ok_or [] (list_voice_profiles (disk (snd clone_alice)))))
  /\ StronglySorted (fun a b => str_leb a b = true)
       (List.map v_name
          (ok_or [] (list_voice_profiles (disk (snd clone_alice))))).
Proof.
  apply (list_voice_profiles_names (disk (snd clone_alice))).
  - vm_compute. reflexivity.
  - vm_compute. reflexivity.
Defined.

Lemma Forall2_In_left {A B} (P : A -> B -> Prop) l l' x :
  Forall2 P l l' -> In x l -> exists y, In y l' /\ P x y.
Proof.
  induction 1 as [|a b l l' Hab _ IH]; intros Hin; [destruct Hin|].
  destruct Hin as [->|Hin].
  - exists b. split; [left; reflexivity|exact Hab].
  - destruct (IH Hin) as (y & Hy & Hp). exists y. split; [right|]; assumption.
Qed.

(** The row a returning listing holds for a directory below
    [VOICES_DIR]. *)
Lemma listed_row (d : gmap (list (list N)) node) (s : list N) vs :
  d !! VOICES_DIR = Some Dir ->
  d !! [s] = Some Dir ->
  list_voice_profiles d = Ok vs ->
  exists v, In v vs /\ profile_summary d [s] = Ok v.
Proof.
  intros Hroot Hdir Hlist.
  apply (Forall2_In_left _ _ _ [s] (listed_rows d vs Hroot Hlist)).
  apply listed_dirs_spec. eauto.
Qed.

(** Metadata of a listed profile: without [meta.json] the row carries the
    defaults (no description, language ["fr"], no creation date); with a
    JSON object each field is the object's value, or its default when the
    key is missing; and a [meta.json] that is anything else makes the
    whole listing raise. *)
Theorem list_voice_profiles_metadata
  (d : gmap (list (list N)) node) (s : list N) :
  d !! VOICES_DIR = Some Dir ->
  d !! [s] = Some Dir ->
  (d !! ([s] </> py "meta.json") = None ->
   forall vs,
     list_voice_profiles d = Ok vs ->
     exists v,
       In v vs /\ v_name v = s
       /\ v_description v = JStr (py "")
       /\ v_language v = JStr (py "fr")
       /\ v_created v = JStr (py ""))
  /\ (forall m,
        d !! ([s] </> py "meta.json") = Some (File (FJson m)) ->
        forall vs,
          list_voice_profiles d = Ok vs ->
          exists v,
            In v vs /\ v_name v = s
            /\ v_description v
               = match m !! py "description" with
                 | Some x => x
                 | None => JStr (py "")
                 end
            /\ v_language v
               = match m !! py "language" with
                 | Some x => x
                 | None => JStr (py "fr")
                 end
            /\ v_created v
               = match m !! py "created" with
                 | Some x => x
                 | None => JStr (py "")
                 end)
  /\ (d !! ([s] </> py "meta.json") <> None ->
      (forall m, d !! ([s] </> py "meta.json") <> Some (File (FJson m))) ->
      exists e, list_voice_profiles d = Raise e).
Proof.
  intros Hroot Hdir. split; [|split].
  - intros Hmeta vs Hlist.
    destruct (listed_row d s vs Hroot Hdir Hlist) as (v & Hin & Hv).
    exists v. split; [exact Hin|].
    unfold profile_summary, path_exists in Hv. rewrite Hmeta in Hv.
    injection Hv as <-. repeat split.
  - intros m Hmeta vs Hlist.
    destruct (listed_row d s vs Hroot Hdir Hlist) as (v & Hin & Hv).
    exists v. split; [exact Hin|].
    unfold profile_summary, path_exists in Hv. rewrite Hmeta in Hv.
    injection Hv as <-. repeat split.
  - intros Hsome Hnot.
    assert (Hraise : exists e, profile_summary d [s] = Raise e).
    { unfold profile_summary, path_exists.
      destruct (d !! ([s] </> py "meta.json")) as [[|[b|p|m]]|];
        try (eexists; reflexivity);
        [destruct (Hnot m eq_refl)|congruence]. }
    destruct Hraise as (e & He).
    unfold list_voice_profiles, iterdir.
    rewrite (is_dir_exists d VOICES_DIR) by (apply is_dir_lookup, Hroot).
    rewrite (proj2 (is_dir_lookup d VOICES_DIR) Hroot). cbn [negb].
    apply (profiles_of_raise d _ [s] e).
    + apply sorted_by_In, children_spec. split; [eauto|]. exists s. reflexivity.
    + apply is_dir_lookup, Hdir.
    + exact He.
Qed.

Lemma list_voice_profiles_metadata_witness :
  exists v,
    In v (ok_or [] (list_voice_profiles bare_profile_disk))
    /\ v_name v = py "bob"
    /\ v_description v = JStr (py "")
    /\ v_language v = JStr (py "fr")
    /\ v_created v = JStr (py "").
Proof.
  refine (proj1 (list_voice_profiles_metadata bare_profile_disk (py "bob")
                   _ _) _ _ _).
  - vm_compute. reflexivity.
  - vm_compute. reflexivity.
  - vm_compute. reflexivity.
  - vm_compute. reflexivity.
Defined.

(** ** What a returning clone leaves behind *)

Lemma clone_meta_fields name description language created filename size :
  clone_meta name description language created filename size
    !! py "description" = Some (JStr description)
  /\ clone_meta name description language created filename size
       !! py "language" = Some (JStr language)
  /\ clone_meta name description language created filename size
       !! py "created" = Some (JStr created)
  /\ clone_meta name description language created filename size
       !! py "name" = Some (JStr name).
Proof. repeat split; vm_compute; reflexivity. Qed.

Section CloneAftermath.
Variable E : Env.

(** The tree and the globals after a returning clone. *)
Lemma clone_voice_saved
  (name description language filename content created : list N)
  (st st' : state) (resp : clone_response) :
  clone_voice E name description language filename content created st
  = (Ok resp, st') ->
  disk st' !! VOICES_DIR = Some Dir
  /\ disk st' !! get_voice_dir E name = Some Dir
  /\ disk st' !! (get_voice_dir E name </> py "meta.json")
     = Some (File (FJson (clone_meta name description language created
                            filename (length content))))
  /\ active_voice st' = Some name
  /\ resp = {| r_name := name; r_description := description;
               r_language := language; r_audio_file := py "reference.wav";
               r_has_preset :=
                 path_exists (disk st')
                   (get_voice_dir E name </> py "voice_preset.npz");
               r_active := true |}
  /\ bark_model st' = bark_model st
  /\ bark_processor st' = bark_processor st.
Proof.
  intros Hclone.
  apply clone_voice_ok in Hclone
    as (d1 & d2 & d3 & st4 & d5 & Hd1 & Hd2 & Hd3 & Hst4 & Hd5 & -> & ->).
  set (dir := get_voice_dir E name) in *.
  apply mkdir_parents_spec in Hd1 as (Hroot1 & Hdir1).
  assert (Hmodel : bark_model st4 = bark_model st
                   /\ bark_processor st4 = bark_processor st).
  { destruct Hst4 as [-> | (p & Hp)]; [split; reflexivity|].
    apply create_voice_preset_ok in Hp as (_ & _ & d' & _ & _ & _ & _ & ->).
    split; reflexivity. }
  apply (derivation_disk E dir) in Hst4 as (_ & Hdirs4 & _).
  assert (Hdirs : forall q, d1 !! q = Some Dir -> d5 !! q = Some Dir).
  { intros q Hq. apply (write_file_dir _ _ _ _ _ Hd5), Hdirs4.
    assert (Hq2 : d2 !! q = Some Dir)
      by apply (write_file_dir _ _ _ _ _ Hd2 Hq).
    destruct Hd3 as [-> | (out & Hd3)]; [exact Hq2|].
    apply (write_file_dir _ _ _ _ _ Hd3 Hq2). }
  cbn [disk active_voice bark_model bark_processor set_active_voice set_disk].
  split; [apply Hdirs, Hroot1|]. split; [apply Hdirs, Hdir1|].
  split; [apply (write_file_same _ _ _ _ Hd5)|].
  split; [reflexivity|]. split; [reflexivity|]. exact Hmodel.
Qed.

(** After a returning clone the voice can be selected by the name it was
    cloned under: [use_voice] returns, and since the clone already made the
    voice active it changes nothing. *)
Theorem clone_then_use_voice
  (name description language filename content created : list N)
  (st st' : state) (resp : clone_response) :
  clone_voice E name description language filename content created st
  = (Ok resp, st') ->
  use_voice E name st' = (Ok name, st').
Proof.
  intros Hclone.
  apply clone_voice_saved in Hclone as (_ & Hdir & _ & Hactive & _).
  unfold use_voice, path_exists. rewrite Hdir. cbn [negb].
  f_equal. destruct st'. cbn in *. subst. reflexivity.
Qed.

(** After a returning clone under a name that keeps at least one
    character, a listing that returns shows the profile under the
    sanitised name with the description and language of the request, the
    creation time stamped by the clone, and the preset flag the clone
    answered with. *)
Theorem clone_then_list
  (name description language filename content created : list N)
  (st st' : state) (resp : clone_response) (vs : list voice_summary) :
  clone_voice E name description language filename content created st
  = (Ok resp, st') ->
  safe E name <> [] ->
  list_voice_profiles (disk st') = Ok vs ->
  exists v,
    In v vs
    /\ v_name v = safe E name
    /\ v_description v = JStr description
    /\ v_language v = JStr language
    /\ v_created v = JStr created
    /\ v_has_preset v = r_has_preset resp.
Proof.
  intros Hclone Hs Hlist.
  apply clone_voice_saved in Hclone as (Hroot & Hdir & Hmeta & _ & -> & _).
  assert (Hd : get_voice_dir E name = [safe E name])
    by (unfold get_voice_dir; destruct (safe E name);
        [congruence|reflexivity]).
  rewrite Hd in Hdir, Hmeta |- *.
  destruct (listed_row _ _ _ Hroot Hdir Hlist) as (v & Hin & Hv).
  exists v. split; [exact Hin|].
  unfold profile_summary, path_exists in Hv. rewrite Hmeta in Hv.
  injection Hv as <-. cbn [v_name v_description v_language v_created
                           v_has_preset r_has_preset].
  destruct (clone_meta_fields name description language created filename
              (length content)) as (Hdesc & Hlang & Hcreated & _).
  unfold meta_get. rewrite Hdesc, Hlang, Hcreated.
  repeat split.
Qed.

End CloneAftermath.

Lemma clone_then_use_voice_witness :
  use_voice demo_env (py "a b") (snd clone_spaced)
  = (Ok (py "a b"), snd clone_spaced).
Proof.
  apply (clone_then_use_voice demo_env (py "a b") (py "") (py "fr")
           (py "sample.wav") [1; 2; 3; 4]%N (py "2025-01-01T00:00:00Z")
           fresh (snd clone_spaced)
           {| r_name := py "a b"; r_description := py "";
              r_language := py "fr"; r_audio_file := py "reference.wav";
              r_has_preset := true; r_active := true |}).
  vm_compute. reflexivity.
Defined.

Lemma clone_then_list_witness :
  exists v,
    In v (ok_or [] (list_voice_profiles (disk (snd clone_spaced))))
    /\ v_name v = safe demo_env (py "a b")
    /\ v_description v = JStr (py "")
    /\ v_language v = JStr (py "fr")
    /\ v_created v = JStr (py "2025-01-01T00:00:00Z")
    /\ v_has_preset v = true.
Proof.
  apply (clone_then_list demo_env (py "a b") (py "") (py "fr")
           (py "sample.wav") [1; 2; 3; 4]%N (py "2025-01-01T00:00:00Z")
           fresh (snd clone_spaced)
           {| r_name := py "a b"; r_description := py "";
              r_language := py "fr"; r_audio_file := py "reference.wav";
              r_has_preset := true; r_active := true |}).
  - vm_compute. reflexivity.
  - discriminate.
  - vm_compute. reflexivity.
Defined.

Section CloneThenSynthesis.
Variable E : Env.

(** A returning clone into a directory that held no preset archive either
    derived no preset (flag false, cache as before) or derived one, which
    is then both archived and cached under the raw name (flag true). *)
Lemma clone_preset_outcome
  (name description language filename content created : list N)
  (st st' : state) (resp : clone_response) :
  clone_voice E name description language filename content created st
  = (Ok resp, st') ->
  path_exists (disk st) (get_voice_dir E name </> py "voice_preset.npz")
  = false ->
  (r_has_preset resp = false /\ voice_presets st' = voice_presets st)
  \/ (exists p,
        r_has_preset resp = true
        /\ voice_presets st' = <[name := p]> (voice_presets st)
        /\ disk st' !! (get_voice_dir E name </> py "voice_preset.npz")
           = Some (File (FNpz p))).
Proof.
  intros Hclone Hnone.
  apply clone_voice_ok in Hclone
    as (d1 & d2 & d3 & st4 & d5 & Hd1 & Hd2 & Hd3 & Hst4 & Hd5 & -> & ->).
  set (dir := get_voice_dir E name) in *.
  set (ref := py "reference" ++ upload_ext E filename) in *.
  destruct (reference_name_facts (upload_ext E filename))
    as (Hr0 & Hrp & Hrm). fold ref in Hr0, Hrp, Hrm.
  destruct fixed_name_facts as (Hm0 & Hp0 & Hw0 & Hmp & Hmw & Hpw).
  cbn [r_has_preset voice_presets disk set_active_voice set_disk].
  assert (Hmeta_ne : dir </> py "voice_preset.npz" <> dir </> py "meta.json")
    by (apply pjoin_ne_name; congruence).
  rewrite (write_file_other _ _ _ _ _ Hd5 Hmeta_ne).
  unfold path_exists. rewrite (write_file_other _ _ _ _ _ Hd5 Hmeta_ne).
  destruct Hst4 as [-> | (p & Hp)].
  - left. cbn [disk set_disk voice_presets].
    assert (H3 : d3 !! (dir </> py "voice_preset.npz") = None).
    { assert (H2 : d2 !! (dir </> py "voice_preset.npz") = None).
      { rewrite (write_file_other _ _ _ _ _ Hd2)
          by (apply pjoin_ne_name; congruence).
        rewrite (mkdir_parents_below _ _ _ _ Hp0 Hd1).
        unfold path_exists in Hnone.
        destruct (disk st !! (dir </> py "voice_preset.npz"));
          [discriminate|reflexivity]. }
      destruct Hd3 as [-> | (out & Hd3)]; [exact H2|].
      rewrite (write_file_other _ _ _ _ _ Hd3)
        by (apply pjoin_ne_name; congruence).
      exact H2. }
    rewrite H3. split; reflexivity.
  - right. exists p.
    apply create_voice_preset_ok in Hp as (_ & _ & d' & _ & _ & _ & Hw & ->).
    cbn [disk set_disk voice_presets set_voice_presets].
    pose proof (write_file_same _ _ _ _ Hw) as Hsame. fold dir in Hsame.
    rewrite Hsame. repeat split.
Qed.

(** Clone, then speak: after a returning first clone (no archive before)
    that reports a preset, a synthesis request without an explicit voice
    uses the cloned name and hands the processor the preset archived for
    it, provided the name is not empty and does not start with ["v2/"]. *)
Theorem clone_then_tts
  (name description language filename content created text lang : list N)
  (st st' st1 : state) (resp : clone_response)
  (m : BarkModel) (pr : BarkProcessor) :
  clone_voice E name description language filename content created st
  = (Ok resp, st') ->
  path_exists (disk st) (get_voice_dir E name </> py "voice_preset.npz")
  = false ->
  r_has_preset resp = true ->
  truthy name = true ->
  startswith (py "v2/") name = false ->
  load_model E st' = (Ok (m, Some pr), st1) ->
  exists p,
    disk st' !! (get_voice_dir E name </> py "voice_preset.npz")
    = Some (File (FNpz p))
    /\ tts E text None lang st'
       = (Ok {| s_voice_name := Some name; s_model := m; s_processor := pr;
                s_text := text; s_voice_preset := VPData p;
                s_voice_tag := name |}, st1).
Proof.
  intros Hclone Hnone Hflag Hname Hv2 Hload.
  destruct (clone_preset_outcome _ _ _ _ _ _ _ _ _ Hclone Hnone)
    as [[Hf _] | (p & _ & Hcache & Harchive)]; [congruence|].
  apply clone_voice_saved in Hclone as (_ & _ & _ & Hactive & _).
  exists p. split; [exact Harchive|].
  destruct (load_model_frame _ _ _ _ Hload) as (Hpres & _ & _).
  unfold tts. rewrite Hload, Hactive. cbn [py_or].
  rewrite Hv2, Hname. cbn [andb].
  rewrite (get_voice_preset_cached E name st1 p)
    by (rewrite Hpres, Hcache; apply lookup_insert_eq).
  destruct name; [discriminate|]. reflexivity.
Qed.

(** A voice cloned under a name that starts with ["v2/"] is shadowed: a
    later synthesis request without an explicit voice hands the name to
    the processor as a built-in preset tag, and the cloned preset is not
    looked up. *)
Theorem clone_v2_name_shadowed
  (name description language filename content created text lang : list N)
  (st st' st1 : state) (resp : clone_response)
  (m : BarkModel) (pr : BarkProcessor) :
  clone_voice E name description language filename content created st
  = (Ok resp, st') ->
  startswith (py "v2/") name = true ->
  load_model E st' = (Ok (m, Some pr), st1) ->
  tts E text None lang st'
  = (Ok {| s_voice_name := Some name; s_model := m; s_processor := pr;
           s_text := text; s_voice_preset := VPName name;
           s_voice_tag := name |}, st1)
  /\ voice_presets st1 = voice_presets st'
  /\ disk st1 = disk st'.
Proof.
  intros Hclone Hv2 Hload.
  apply clone_voice_saved in Hclone as (_ & _ & _ & Hactive & _).
  destruct (load_model_frame _ _ _ _ Hload) as (Hpres & _ & Hdisk).
  split; [|split; assumption].
  unfold tts. rewrite Hload, Hactive. cbn [py_or]. rewrite Hv2.
  destruct name; [discriminate|]. reflexivity.
Qed.

End CloneThenSynthesis.

Lemma clone_then_tts_witness :
  exists p,
    disk (snd clone_alice)
      !! (get_voice_dir demo_env (py "alice") </> py "voice_preset.npz")
    = Some (File (FNpz p))
    /\ tts demo_env (py "bonjour") None (py "fr") (snd clone_alice)
       = (Ok {| s_voice_name := Some (py "alice"); s_model := demo_model;
                s_processor := demo_processor; s_text := py "bonjour";
                s_voice_preset := VPData p; s_voice_tag := py "alice" |},
          snd (load_model demo_env (snd clone_alice))).
Proof.
  apply (clone_then_tts demo_env (py "alice") (py "") (py "fr")
           (py "alice.wav") [1; 2; 3; 4]%N (py "2025-01-01T00:00:00Z")
           (py "bonjour") (py "fr") fresh (snd clone_alice)
           (snd (load_model demo_env (snd clone_alice)))
           {| r_name := py "alice"; r_description := py "";
              r_language := py "fr"; r_audio_file := py "reference.wav";
              r_has_preset := true; r_active := true |}).
  - vm_compute. reflexivity.
  - vm_compute. reflexivity.
  - reflexivity.
  - reflexivity.
  - reflexivity.
  - vm_compute. reflexivity.
Defined.

Lemma clone_v2_name_shadowed_witness :
  tts demo_env (py "bonjour") None (py "fr") (snd clone_v2)
  = (Ok {| s_voice_name := Some (py "v2/bob"); s_model := demo_model;
           s_processor := demo_processor; s_text := py "bonjour";
           s_voice_preset := VPName (py "v2/bob");
           s_voice_tag := py "v2/bob" |},
     snd (load_model demo_env (snd clone_v2)))
  /\ voice_presets (snd (load_model demo_env (snd clone_v2)))
     = voice_presets (snd clone_v2)
  /\ disk (snd (load_model demo_env (snd clone_v2))) = disk (snd clone_v2).
Proof.
  apply (clone_v2_name_shadowed demo_env (py "v2/bob") (py "") (py "fr")
           (py "bob.wav") [5; 6; 7]%N (py "2025-01-04T00:00:00Z")
           (py "bonjour") (py "fr") fresh (snd clone_v2)
           (snd (load_model demo_env (snd clone_v2)))
           {| r_name := py "v2/bob"; r_description := py "";
              r_language := py "fr"; r_audio_file := py "reference.wav";
              r_has_preset := true; r_active := true |}).
  - vm_compute. reflexivity.
  - reflexivity.
  - vm_compute. reflexivity.
Defined.

(** ** A clone whose conversion fails *)

Section CloneFailure.
Variable E : Env.

(** When ffmpeg fails on an upload whose extension is not [".wav"], the
    clone answers with the 500, yet it is not undone: the profile
    directory and the uploaded file are there, no metadata has been
    written, the active voice is as before, and [use_voice] now accepts
    the name. *)
Theorem clone_conversion_failure
  (name description language filename content created msg : list N)
  (st : state) (d1 d2 : gmap (list (list N)) node) :
  mkdir_parents (disk st) (get_voice_dir E name) = Ok d1 ->
  write_file d1
    (get_voice_dir E name </> (py "reference" ++ upload_ext E filename))
    (FBytes content) = Ok d2 ->
  ffmpeg E
    (get_voice_dir E name </> (py "reference" ++ upload_ext E filename))
    (get_voice_dir E name </> py "reference.wav") (FBytes content)
  = Failed msg ->
  str_lower E (upload_ext E filename) <> py ".wav" ->
  clone_voice E name description language filename content created st
  = (Raise (HTTPException 500
              (py "Cannot convert audio: ffmpeg needed. Error: " ++ msg)),
     set_disk d2 st)
  /\ active_voice (set_disk d2 st) = active_voice st
  /\ d2 !! get_voice_dir E name = Some Dir
  /\ d2 !! (get_voice_dir E name
            </> (py "reference" ++ upload_ext E filename))
     = Some (File (FBytes content))
  /\ d2 !! (get_voice_dir E name </> py "meta.json")
     = disk st !! (get_voice_dir E name </> py "meta.json")
  /\ use_voice E name (set_disk d2 st)
     = (Ok name, set_active_voice (Some name) (set_disk d2 st)).
Proof.
  intros Hd1 Hd2 Hff Hext.
  destruct (reference_name_facts (upload_ext E filename))
    as (Hr0 & Hrp & Hrm).
  destruct fixed_name_facts as (Hm0 & _).
  assert (Hdir : d2 !! get_voice_dir E name = Some Dir).
  { apply (write_file_dir _ _ _ _ _ Hd2).
    apply mkdir_parents_spec in Hd1 as [_ H]. exact H. }
  split; [|split; [reflexivity|split; [exact Hdir|split; [|split]]]].
  - unfold clone_voice, bind, update_disk, try_except, raise.
    rewrite Hd1. cbn [disk set_disk]. rewrite Hd2. rewrite Hff.
    unfold str_eqb. rewrite bool_decide_eq_false_2 by exact Hext.
    cbn [negb]. destruct st; reflexivity.
  - apply (write_file_same _ _ _ _ Hd2).
  - rewrite (write_file_other _ _ _ _ _ Hd2)
      by (apply pjoin_ne_name; congruence).
    apply (mkdir_parents_below _ _ _ _ Hm0 Hd1).
  - unfold use_voice, path_exists. cbn [disk set_disk]. rewrite Hdir.
    reflexivity.
Qed.

End CloneFailure.

Lemma clone_conversion_failure_witness :
  clone_voice no_ffmpeg_env (py "carol") (py "") (py "fr") (py "carol.mp3")
    [7; 7; 7]%N (py "2025-01-05T00:00:00Z") fresh
  = (Raise (HTTPException 500
              (py "Cannot convert audio: ffmpeg needed. Error: "
               ++ py "ffmpeg not found")),
     set_disk carol_upload_disk fresh)
  /\ use_voice no_ffmpeg_env (py "carol") (set_disk carol_upload_disk fresh)
     = (Ok (py "carol"),
        set_active_voice (Some (py "carol"))
          (set_disk carol_upload_disk fresh)).
Proof.
  destruct (clone_conversion_failure no_ffmpeg_env (py "carol") (py "")
              (py "fr") (py "carol.mp3") [7; 7; 7]%N
              (py "2025-01-05T00:00:00Z") (py "ffmpeg not found") fresh
              carol_dir_disk carol_upload_disk)
    as (Hclone & _ & _ & _ & _ & Huse).
  - vm_compute. reflexivity.
  - vm_compute. reflexivity.
  - reflexivity.
  - discriminate.
  - split; [exact Hclone|exact Huse].
Defined.

(** ** Loading the engine for the first time *)

Section FirstLoad.
Variable E : Env.

(** First use: when both sub-models load (and, on cuda, offload can be
    enabled) the loader returns the two handles it has stored, half
    precision and offload on cuda, single precision on cpu, in eval mode,
    touching nothing but the handles; the next call returns the same. *)
Theorem load_model_first_use (st : state) :
  bark_model st = None ->
  processor_from_pretrained E (torch_dtype E) = true ->
  model_from_pretrained E (torch_dtype E) = true ->
  (cuda_available E = true -> enable_cpu_offload E = true) ->
  exists m p st',
    load_model E st = (Ok (m, Some p), st')
    /\ st' = set_bark_model (Some m) (set_bark_processor (Some p) st)
    /\ m_dtype m = (if cuda_available E then float16 else float32)
    /\ p_dtype p = (if cuda_available E then float16 else float32)
    /\ m_device m = (if cuda_available E then cuda else cpu)
    /\ m_eval m = true
    /\ m_cpu_offload m = cuda_available E
    /\ load_model E st' = (Ok (m, Some p), st').
Proof.
  intros Hm Hp Hmod Hoff. unfold load_model at 1. rewrite Hm, Hp, Hmod.
  unfold torch_dtype, device in *.
  destruct (cuda_available E) eqn:Hcuda.
  - rewrite (Hoff eq_refl). do 3 eexists.
    split; [reflexivity|]. repeat split.
  - do 3 eexists. split; [reflexivity|]. repeat split.
Qed.

(** A failed first load: a processor that cannot be loaded leaves the
    state as it was; a model that cannot be loaded leaves the processor
    handle stored and the loader unloaded; but when only
    [enable_cpu_offload] fails, the model handle is already stored, so the
    loader counts as loaded and the next call returns that model, offload
    off, without raising. *)
Theorem load_model_failures (st : state) :
  bark_model st = None ->
  (processor_from_pretrained E (torch_dtype E) = false ->
   load_model E st = (Raise EngineError, st))
  /\ (processor_from_pretrained E (torch_dtype E) = true ->
      model_from_pretrained E (torch_dtype E) = false ->
      exists st',
        load_model E st = (Raise EngineError, st')
        /\ st' = set_bark_processor (Some {| p_dtype := torch_dtype E |}) st
        /\ bark_model st' = None
        /\ load_model E st' = (Raise EngineError, st'))
  /\ (processor_from_pretrained E (torch_dtype E) = true ->
      model_from_pretrained E (torch_dtype E) = true ->
      cuda_available E = true ->
      enable_cpu_offload E = false ->
      exists m st',
        load_model E st = (Raise EngineError, st')
        /\ bark_model st' = Some m
        /\ m_cpu_offload m = false
        /\ load_model E st' = (Ok (m, bark_processor st'), st')).
Proof.
  intros Hm. split; [|split].
  - intros Hp. unfold load_model. rewrite Hm, Hp. reflexivity.
  - intros Hp Hmod. eexists. unfold load_model at 1.
    rewrite Hm, Hp, Hmod. split; [reflexivity|]. split; [reflexivity|].
    split; [exact Hm|].
    unfold load_model. cbn [bark_model set_bark_processor].
    rewrite Hm, Hp, Hmod. reflexivity.
  - intros Hp Hmod Hcuda Hoff. do 2 eexists. unfold load_model at 1.
    rewrite Hm, Hp, Hmod. unfold device. rewrite Hcuda, Hoff.
    split; [reflexivity|]. split; [reflexivity|]. split; reflexivity.
Qed.

End FirstLoad.

Lemma load_model_first_use_witness :
  exists m p st',
    load_model (loader_env true true true true) fresh = (Ok (m, Some p), st')
    /\ st' = set_bark_model (Some m) (set_bark_processor (Some p) fresh)
    /\ m_dtype m = float16
    /\ p_dtype p = float16
    /\ m_device m = cuda
    /\ m_eval m = true
    /\ m_cpu_offload m = true
    /\ load_model (loader_env true true true true) st'
       = (Ok (m, Some p), st').
Proof.
  apply (load_model_first_use (loader_env true true true true) fresh).
  - reflexivity.
  - reflexivity.
  - reflexivity.
  - reflexivity.
Defined.

Lemma load_model_failures_witness :
  exists m st',
    load_model (loader_env true true true false) fresh
    = (Raise EngineError, st')
    /\ bark_model st' = Some m
    /\ m_cpu_offload m = false
    /\ load_model (loader_env true true true false) st'
       = (Ok (m, bark_processor st'), st').
Proof.
  refine (proj2 (proj2 (load_model_failures
                          (loader_env true true true false) fresh _))
            _ _ _ _).
  - reflexivity.
  - reflexivity.
  - reflexivity.
  - reflexivity.
  - reflexivity.
Defined.

(** ** The preset cache and the archive on disk *)

Section PresetCache.
Variable E : Env.

(** What [create_voice_preset] changes: the archive of the profile
    directory and the cache entry of the raw name, nothing else. *)
Lemma create_voice_preset_frame audio_path name st p st' :
  create_voice_preset E audio_path name st = (Ok p, st') ->
  voice_presets st' = <[name := p]> (voice_presets st)
  /\ disk st' = <[get_voice_dir E name </> py "voice_preset.npz"
                  := File (FNpz p)]> (disk st)
  /\ active_voice st' = active_voice st
  /\ bark_model st' = bark_model st
  /\ bark_processor st' = bark_processor st.
Proof.
  intros H.
  apply create_voice_preset_ok in H as (_ & _ & d' & _ & _ & _ & Hw & ->).
  apply write_file_ok in Hw as [-> _]. repeat split.
Qed.

(** Every way [get_voice_preset] can end.  A preset that is found is
    cached under the raw name from then on and served from the cache
    whatever the disk holds later; found without having been cached, it is
    the archive of the profile directory (read from it, or just written to
    it).  A miss changes nothing and is not remembered.  An exception
    changes nothing either, and is raised only over an archive path that
    holds something else than an archive. *)
Theorem get_voice_preset_outcomes (name : list N) (st st' : state) :
  (forall p,
     get_voice_preset E name st = (Ok (Some p), st') ->
     voice_presets st' !! name = Some p
     /\ (forall st2, voice_presets st2 !! name = Some p ->
                     get_voice_preset E name st2 = (Ok (Some p), st2))
     /\ (voice_presets st !! name = None ->
         disk st' !! (get_voice_dir E name </> py "voice_preset.npz")
         = Some (File (FNpz p)))
     /\ active_voice st' = active_voice st
     /\ bark_model st' = bark_model st
     /\ bark_processor st' = bark_processor st
     /\ (forall other, other <> name ->
                       voice_presets st' !! other = voice_presets st !! other)
     /\ (forall q, q <> get_voice_dir E name </> py "voice_preset.npz" ->
                   disk st' !! q = disk st !! q))
  /\ (get_voice_preset E name st = (Ok None, st') ->
      st' = st
      /\ voice_presets st !! name = None
      /\ disk st !! (get_voice_dir E name </> py "voice_preset.npz") = None)
  /\ (forall e,
        get_voice_preset E name st = (Raise e, st') ->
        st' = st
        /\ voice_presets st !! name = None
        /\ (disk st !! (get_voice_dir E name </> py "voice_preset.npz")
            = Some Dir
            \/ exists f,
                 disk st !! (get_voice_dir E name </> py "voice_preset.npz")
                 = Some (File f)
                 /\ forall p, f <> FNpz p)).
Proof.
  unfold get_voice_preset, path_exists.
  set (archive := get_voice_dir E name </> py "voice_preset.npz").
  destruct (voice_presets st !! name) as [cached|] eqn:Hcache.
  - split; [|split]; [|discriminate|discriminate].
    intros p H. injection H as <- <-.
    split; [exact Hcache|].
    split; [intros st2 H2; rewrite H2; reflexivity|].
    split; [discriminate|]. repeat split.
  - destruct (disk st !! archive) as [[|[b|p0|m]]|] eqn:Harch.
    + split; [discriminate|]. split; [discriminate|].
      intros e H. injection H as _ <-. auto.
    + split; [discriminate|]. split; [discriminate|].
      intros e H. injection H as _ <-.
      split; [reflexivity|]. split; [reflexivity|].
      right. eexists. split; [reflexivity|]. discriminate.
    + split; [|split; discriminate].
      intros p H. injection H as <- <-.
      cbn [voice_presets disk active_voice bark_model bark_processor
           set_voice_presets].
      split; [apply lookup_insert_eq|].
      split; [intros st2 H2; rewrite H2; reflexivity|].
      split; [intros _; exact Harch|].
      repeat split. intros other Hne. apply lookup_insert_ne. congruence.
    + split; [discriminate|]. split; [discriminate|].
      intros e H. injection H as _ <-.
      split; [reflexivity|]. split; [reflexivity|].
      right. eexists. split; [reflexivity|]. discriminate.
    + destruct (find_reference_audio E (disk st) name) as [ref|].
      * destruct (create_voice_preset E ref name st) as [[p0|e0] st0] eqn:Hc.
        -- split; [|split; discriminate].
           intros p H. injection H as <- <-.
           destruct (create_voice_preset_frame _ _ _ _ _ Hc)
             as (Hp & Hd & Ha & Hm & Hpr).
           rewrite Hp, Hd.
           split; [apply lookup_insert_eq|].
           split; [intros st2 H2; rewrite H2; reflexivity|].
           split; [intros _; apply lookup_insert_eq|].
           split; [exact Ha|]. split; [exact Hm|]. split; [exact Hpr|].
           split.
           ++ intros other Hne. apply lookup_insert_ne. congruence.
           ++ intros q Hq. apply lookup_insert_ne.
              intros Heq. apply Hq. symmetry. exact Heq.
        -- apply create_voice_preset_raise in Hc. subst st0.
           split; [discriminate|]. split; [|discriminate].
           intros H. injection H as <-. auto.
      * split; [discriminate|]. split; [|discriminate].
        intros H. injection H as <-. auto.
Qed.

(** Round trip through the archive, and aliases: the preset
    [create_voice_preset] returns is what [get_voice_preset] then serves
    for the same name; and a different requested name with the same
    sanitised form, not cached itself, is served that very preset from the
    shared archive and cached under the alias. *)
Theorem create_then_get_voice_preset
  (audio_path : list (list N)) (name : list N) (st st' : state) (p : preset) :
  create_voice_preset E audio_path name st = (Ok p, st') ->
  get_voice_preset E name st' = (Ok (Some p), st')
  /\ forall alias,
       safe E alias = safe E name ->
       voice_presets st' !! alias = None ->
       get_voice_preset E alias st'
       = (Ok (Some p),
          set_voice_presets (<[alias := p]> (voice_presets st')) st').
Proof.
  intros Hc.
  destruct (create_voice_preset_frame _ _ _ _ _ Hc) as (Hp & Hd & _).
  split.
  - apply get_voice_preset_cached. rewrite Hp. apply lookup_insert_eq.
  - intros alias Hsafe Hnone. unfold get_voice_preset, path_exists.
    rewrite Hnone. unfold get_voice_dir. rewrite Hsafe.
    fold (get_voice_dir E name). rewrite Hd, lookup_insert_eq. reflexivity.
Qed.

End PresetCache.

Lemma create_then_get_voice_preset_witness :
  get_voice_preset demo_env (py "a b") (snd derive_spaced)
  = (Ok (Some alice_preset), snd derive_spaced)
  /\ get_voice_preset demo_env (py "ab") (snd derive_spaced)
     = (Ok (Some alice_preset),
        set_voice_presets
          (<[py "ab" := alice_preset]> (voice_presets (snd derive_spaced)))
          (snd derive_spaced)).
Proof.
  destruct (create_then_get_voice_preset demo_env
              [py "ab"; py "reference.wav"] (py "a b") (snd clone_spaced)
              (snd derive_spaced) alice_preset) as [Hsame Halias].
  - vm_compute. reflexivity.
  - split; [exact Hsame|]. apply Halias.
    + reflexivity.
    + vm_compute. reflexivity.
Defined.

(** * Extraction of a reference from a video *)

Lemma write_file_succeeds (d : gmap (list (list N)) node) p f :
  d !! parent p = Some Dir -> is_dir d p = false ->
  write_file d p f = Ok (<[p := File f]> d).
Proof.
  intros Hp Hf. unfold write_file.
  apply is_dir_lookup in Hp. rewrite Hp, Hf. reflexivity.
Qed.

Lemma pjoin_ne_root (dir : list (list N)) (n : list N) :
  n <> [] -> dir </> n <> VOICES_DIR.
Proof.
  destruct n as [|c n]; [congruence|]. intros _.
  rewrite pjoin_nonempty. unfold VOICES_DIR. intros H.
  apply (f_equal (@length _)) in H. rewrite length_app in H.
  cbn in H. lia.
Qed.

Lemma is_dir_congr (d d' : gmap (list (list N)) node) p :
  d' !! p = d !! p -> is_dir d' p = is_dir d p.
Proof. unfold is_dir. intros ->. reflexivity. Qed.

(** [round_kb] is a nearest integer of [n / 1024]. *)
Lemma round_kb_near (n : N) :
  (1024 * round_kb n <= n + 512 /\ n <= 1024 * round_kb n + 512)%N.
Proof.
  unfold round_kb. cbv zeta.
  pose proof (N.div_mod n 1024 ltac:(discriminate)) as Hdm.
  pose proof (N.mod_lt n 1024 ltac:(discriminate)) as Hlt.
  set (q := (n / 1024)%N) in *. set (r := (n mod 1024)%N) in *.
  destruct (r <? 512)%N eqn:H1;
    [apply N.ltb_lt in H1; lia|apply N.ltb_ge in H1].
  destruct (512 <? r)%N eqn:H2;
    [apply N.ltb_lt in H2; lia|apply N.ltb_ge in H2].
  destruct (N.even q); lia.
Qed.

Section ExtractionFacts.
Variable E : Env.
Variable ffmpeg_cut : list N -> list N -> list N -> extraction.

(** The run of a request whose upload was stored and whose ffmpeg run
    exits with code 0, on a tree where the profile directory can be made
    and neither [reference.wav] nor [meta.json] is a directory: it
    returns, through these steps. *)
Lemma extract_audio_steps
  (voice_name filename content start_time duration created : list N)
  (now : Z) (outs : gmap (list N) (list N))
  (out : list N) (d1 : gmap (list (list N)) node) (st : state) :
  let dir := get_voice_dir E voice_name in
  mkdir_parents (disk st) dir = Ok d1 ->
  is_dir (disk st) (dir </> py "reference.wav") = false ->
  is_dir (disk st) (dir </> py "meta.json") = false ->
  ffmpeg_cut content start_time duration = Exit0 out ->
  exists st4,
    let d2 := <[dir </> py "reference.wav" := File (FBytes out)]> d1 in
    let d5 := <[dir </> py "meta.json"
                := File (FJson (extract_meta voice_name filename created
                                  start_time duration))]> (disk st4) in
    let st' := set_active_voice (Some voice_name) (set_disk d5 st4) in
    (st4 = set_disk d2 st
     \/ exists p,
          create_voice_preset E (dir </> py "reference.wav") voice_name
            (set_disk d2 st) = (Ok p, st4))
    /\ ((exists p,
           create_voice_preset E (dir </> py "reference.wav") voice_name
             (set_disk d2 st) = (Ok p, st4))
        \/ (exists e,
              create_voice_preset E (dir </> py "reference.wav") voice_name
                (set_disk d2 st) = (Raise e, set_disk d2 st))
           /\ st4 = set_disk d2 st)
    /\ extract_audio E ffmpeg_cut voice_name filename content start_time
         duration created now Stored None st outs
       = (Ok {| x_name := voice_name; x_audio_file := py "reference.wav";
                x_size_kb := round_kb (N.of_nat (length out));
                x_has_preset :=
                  path_exists (disk st') (dir </> py "voice_preset.npz");
                x_active := true |},
          st', delete (temp_name now filename) outs).
Proof.
  intros dir Hmk Hwav Hmeta Hcut.
  destruct fixed_name_facts as (Hm0 & Hp0 & Hw0 & Hmp & Hmw & Hpw).
  pose proof (mkdir_parents_spec _ _ _ Hmk) as [Hroot1 Hdir1].
  set (wav := dir </> py "reference.wav") in *.
  set (meta := dir </> py "meta.json") in *.
  set (npz := dir </> py "voice_preset.npz").
  set (d2 := <[wav := File (FBytes out)]> d1).
  assert (Hw : write_file d1 wav (FBytes out) = Ok d2).
  { apply write_file_succeeds.
    - unfold wav. rewrite parent_pjoin by exact Hw0. exact Hdir1.
    - rewrite <- Hwav. apply is_dir_congr.
      apply (mkdir_parents_below _ _ _ _ Hw0 Hmk). }
  destruct (preset_step_nonfatal E wav voice_name (set_disk d2 st))
    as (st4 & Hstep & Hcase).
  assert (Hst4 : st4 = set_disk d2 st
                 \/ exists p,
                      create_voice_preset E wav voice_name (set_disk d2 st)
                      = (Ok p, st4)).
  { destruct Hcase as [Hp|[_ ->]]; [right; exact Hp|left; reflexivity]. }
  pose proof (derivation_disk E dir voice_name d2 st st4 Hst4)
    as (Hother4 & Hdirs4 & Hactive4).
  fold npz in Hother4.
  assert (Hmeta4 : is_dir (disk st4) meta = false).
  { rewrite <- Hmeta. apply is_dir_congr.
    rewrite Hother4 by (apply pjoin_ne_name; congruence).
    unfold d2. rewrite lookup_insert_ne by (apply pjoin_ne_name; congruence).
    apply (mkdir_parents_below _ _ _ _ Hm0 Hmk). }
  set (m := extract_meta voice_name filename created start_time duration).
  set (d5 := <[meta := File (FJson m)]> (disk st4)).
  assert (Hw5 : write_file (disk st4) meta (FJson m) = Ok d5).
  { apply write_file_succeeds; [|exact Hmeta4].
    unfold meta. rewrite parent_pjoin by exact Hm0.
    apply Hdirs4. unfold d2.
    rewrite lookup_insert_ne by (unfold wav; apply pjoin_ne_dir, Hw0).
    exact Hdir1. }
  assert (Hwav5 : d5 !! wav = Some (File (FBytes out))).
  { unfold d5. rewrite lookup_insert_ne by (apply pjoin_ne_name; congruence).
    rewrite Hother4 by (apply pjoin_ne_name; congruence).
    apply lookup_insert_eq. }
  exists st4. cbn zeta. fold wav meta npz d2 m d5.
  split; [exact Hst4|]. split; [exact Hcase|].
  unfold extract_audio, update_disk. fold dir wav. rewrite Hmk.
  cbn [write_bytes unlink]. rewrite Hcut.
  cbn [disk set_disk]. rewrite Hw.
  change (set_disk d2 (set_disk d1 st)) with (set_disk d2 st).
  unfold save_profile. fold dir wav meta npz m.
  unfold bind at 1. rewrite Hstep.
  unfold bind at 1. unfold update_disk. rewrite Hw5.
  unfold bind, modify, gets, ret, stat_size.
  cbn [disk set_disk set_active_voice]. rewrite Hwav5.
  rewrite delete_insert_eq. reflexivity.
Qed.


(** The tree and the globals after such a request. *)
Lemma extract_audio_saved
  (voice_name filename content start_time duration created : list N)
  (now : Z) (outs : gmap (list N) (list N))
  (out : list N) (d1 : gmap (list (list N)) node) (st : state) :
  mkdir_parents (disk st) (get_voice_dir E voice_name) = Ok d1 ->
  is_dir (disk st) (get_voice_dir E voice_name </> py "reference.wav")
  = false ->
  is_dir (disk st) (get_voice_dir E voice_name </> py "meta.json") = false ->
  ffmpeg_cut content start_time duration = Exit0 out ->
  exists resp st',
    extract_audio E ffmpeg_cut voice_name filename content start_time
      duration created now Stored None st outs
    = (Ok resp, st', delete (temp_name now filename) outs)
    /\ resp = {| x_name := voice_name; x_audio_file := py "reference.wav";
                 x_size_kb := round_kb (N.of_nat (length out));
                 x_has_preset :=
                   path_exists (disk st')
                     (get_voice_dir E voice_name </> py "voice_preset.npz");
                 x_active := true |}
    /\ disk st' !! VOICES_DIR = Some Dir
    /\ disk st' !! get_voice_dir E voice_name = Some Dir
    /\ disk st' !! (get_voice_dir E voice_name </> py "reference.wav")
       = Some (File (FBytes out))
    /\ disk st' !! (get_voice_dir E voice_name </> py "meta.json")
       = Some (File (FJson (extract_meta voice_name filename created
                              start_time duration)))
    /\ active_voice st' = Some voice_name
    /\ bark_model st' = bark_model st
    /\ bark_processor st' = bark_processor st.
Proof.
  intros Hmk Hwav Hmeta Hcut.
  destruct fixed_name_facts as (Hm0 & Hp0 & Hw0 & Hmp & Hmw & Hpw).
  destruct (extract_audio_steps voice_name filename content start_time
              duration created now outs out d1 st Hmk Hwav Hmeta Hcut)
    as (st4 & Hst4 & _ & Hrun).
  cbn zeta in *.
  pose proof (mkdir_parents_spec _ _ _ Hmk) as [Hroot1 Hdir1].
  set (dir := get_voice_dir E voice_name) in *.
  set (d2 := <[dir </> py "reference.wav" := File (FBytes out)]> d1) in *.
  assert (Hmodel : bark_model st4 = bark_model st
                   /\ bark_processor st4 = bark_processor st).
  { destruct Hst4 as [-> | (p & Hp)]; [split; reflexivity|].
    apply create_voice_preset_ok in Hp as (_ & _ & d' & _ & _ & _ & _ & ->).
    split; reflexivity. }
  pose proof (derivation_disk E dir voice_name d2 st st4 Hst4)
    as (Hother4 & Hdirs4 & _).
  assert (Hdirs2 : forall q, d1 !! q = Some Dir -> d2 !! q = Some Dir).
  { intros q Hq. unfold d2.
    destruct (decide (dir </> py "reference.wav" = q)) as [<-|Hne].
    - apply (mkdir_parents_below _ _ _ _ Hw0) in Hmk. rewrite Hmk in Hq.
      apply is_dir_lookup in Hq. fold dir in Hwav. congruence.
    - rewrite lookup_insert_ne by exact Hne. exact Hq. }
  eexists _, _. split; [exact Hrun|].
  cbn [disk active_voice bark_model bark_processor set_active_voice
       set_disk].
  split; [reflexivity|].
  split.
  { rewrite lookup_insert_ne by (apply pjoin_ne_root, Hm0).
    apply Hdirs4, Hdirs2, Hroot1. }
  split.
  { rewrite lookup_insert_ne by (apply pjoin_ne_dir, Hm0).
    apply Hdirs4, Hdirs2, Hdir1. }
  split.
  { rewrite lookup_insert_ne by (apply pjoin_ne_name; congruence).
    rewrite Hother4 by (apply pjoin_ne_name; congruence).
    apply lookup_insert_eq. }
  split; [apply lookup_insert_eq|].
  split; [reflexivity|]. exact Hmodel.
Qed.


(** A request whose upload was stored and whose ffmpeg run exits with code
    0, on a tree where the profile directory can be made and neither
    [reference.wav] nor [meta.json] is a directory, returns: the audio
    ffmpeg wrote is the profile's [reference.wav], [meta.json] holds the
    metadata of the request, the voice is active under the raw name, the
    answer carries the raw name and a size within half a KB of the audio's
    (four bytes are 0 KB), the temporary video is gone, and any other entry
    of the profile directory, the preset archive apart, is as it was. *)
Theorem extract_audio_saves_profile
  (voice_name filename content start_time duration created : list N)
  (now : Z) (outs : gmap (list N) (list N))
  (out : list N) (d1 : gmap (list (list N)) node) (st : state) :
  mkdir_parents (disk st) (get_voice_dir E voice_name) = Ok d1 ->
  is_dir (disk st) (get_voice_dir E voice_name </> py "reference.wav")
  = false ->
  is_dir (disk st) (get_voice_dir E voice_name </> py "meta.json") = false ->
  ffmpeg_cut content start_time duration = Exit0 out ->
  exists resp st',
    extract_audio E ffmpeg_cut voice_name filename content start_time
      duration created now Stored None st outs
    = (Ok resp, st', delete (temp_name now filename) outs)
    /\ x_name resp = voice_name
    /\ x_audio_file resp = py "reference.wav"
    /\ x_active resp = true
    /\ (1024 * x_size_kb resp <= N.of_nat (length out) + 512
        /\ N.of_nat (length out) <= 1024 * x_size_kb resp + 512)%N
    /\ disk st' !! get_voice_dir E voice_name = Some Dir
    /\ disk st' !! (get_voice_dir E voice_name </> py "reference.wav")
       = Some (File (FBytes out))
    /\ disk st' !! (get_voice_dir E voice_name </> py "meta.json")
       = Some (File (FJson (extract_meta voice_name filename created
                              start_time duration)))
    /\ active_voice st' = Some voice_name
    /\ (forall n, n <> [] -> n <> py "reference.wav" ->
          n <> py "meta.json" -> n <> py "voice_preset.npz" ->
          disk st' !! (get_voice_dir E voice_name </> n)
          = disk st !! (get_voice_dir E voice_name </> n)).
Proof.
  intros Hmk Hwav Hmeta Hcut.
  destruct fixed_name_facts as (Hm0 & Hp0 & Hw0 & Hmp & Hmw & Hpw).
  destruct (extract_audio_saved voice_name filename content start_time
              duration created now outs out d1 st Hmk Hwav Hmeta Hcut)
    as (resp & st' & Hrun & Hresp & _ & Hdir & Hw & Hm & Hact & _).
  exists resp, st'. split; [exact Hrun|].
  split; [rewrite Hresp; reflexivity|].
  split; [rewrite Hresp; reflexivity|].
  split; [rewrite Hresp; reflexivity|].
  split; [rewrite Hresp; apply round_kb_near|].
  split; [exact Hdir|]. split; [exact Hw|]. split; [exact Hm|].
  split; [exact Hact|].
  intros n Hn0 Hnw Hnm Hnp.
  destruct (extract_audio_steps voice_name filename content start_time
              duration created now outs out d1 st Hmk Hwav Hmeta Hcut)
    as (st4 & Hst4 & _ & Hrun').
  cbv zeta in Hrun'. rewrite Hrun' in Hrun.
  pose proof (f_equal (fun x => snd (fst x)) Hrun) as Hst.
  cbv beta iota delta [fst snd] in Hst. rewrite <- Hst.
  pose proof (derivation_disk E (get_voice_dir E voice_name) voice_name _
                st st4 Hst4) as (Hother4 & _ & _).
  cbn [disk set_active_voice set_disk].
  rewrite lookup_insert_ne by (apply pjoin_ne_name; congruence).
  rewrite Hother4 by (apply pjoin_ne_name; congruence).
  rewrite lookup_insert_ne by (apply pjoin_ne_name; congruence).
  apply (mkdir_parents_below _ _ _ _ Hn0 Hmk).
Qed.

(** The preset flag of a returning extraction.  When the derivation from
    the new reference raises, the flag is whatever the tree held before the
    request: an archive derived from an earlier reference stays, is
    reported as the profile's preset, and the cache is left as it was.
    When the derivation returns, the flag is set, and the new preset is in
    the archive and in the cache under the raw name. *)
Theorem extract_audio_preset_flag
  (voice_name filename content start_time duration created : list N)
  (now : Z) (outs : gmap (list N) (list N))
  (out : list N) (d1 : gmap (list (list N)) node) (st st' : state)
  (resp : extract_response) :
  mkdir_parents (disk st) (get_voice_dir E voice_name) = Ok d1 ->
  is_dir (disk st) (get_voice_dir E voice_name </> py "reference.wav")
  = false ->
  is_dir (disk st) (get_voice_dir E voice_name </> py "meta.json") = false ->
  ffmpeg_cut content start_time duration = Exit0 out ->
  extract_audio E ffmpeg_cut voice_name filename content start_time
    duration created now Stored None st outs
  = (Ok resp, st', delete (temp_name now filename) outs) ->
  let wav := get_voice_dir E voice_name </> py "reference.wav" in
  let npz := get_voice_dir E voice_name </> py "voice_preset.npz" in
  let st2 := set_disk (<[wav := File (FBytes out)]> d1) st in
  ((exists e, create_voice_preset E wav voice_name st2 = (Raise e, st2)) ->
   x_has_preset resp = path_exists (disk st) npz
   /\ disk st' !! npz = disk st !! npz
   /\ voice_presets st' = voice_presets st)
  /\ (forall p st4,
        create_voice_preset E wav voice_name st2 = (Ok p, st4) ->
        x_has_preset resp = true
        /\ disk st' !! npz = Some (File (FNpz p))
        /\ voice_presets st' = <[voice_name := p]> (voice_presets st)).
Proof.
  intros Hmk Hwav Hmeta Hcut Hrun wav npz st2.
  destruct fixed_name_facts as (Hm0 & Hp0 & Hw0 & Hmp & Hmw & Hpw).
  destruct (extract_audio_steps voice_name filename content start_time
              duration created now outs out d1 st Hmk Hwav Hmeta Hcut)
    as (st4 & Hst4 & Hraise & Hrun').
  cbn zeta in *. rewrite Hrun' in Hrun. clear Hrun'.
  set (dir := get_voice_dir E voice_name) in *.
  fold wav npz in Hst4, Hraise, Hrun. fold st2 in Hst4, Hraise.
  injection Hrun as <- <-.
  cbn [x_has_preset disk voice_presets set_active_voice set_disk].
  assert (Hnpz : forall d : gmap (list (list N)) node,
            <[dir </> py "meta.json"
              := File (FJson (extract_meta voice_name filename created
                                start_time duration))]> d !! npz
            = d !! npz).
  { intros d. apply lookup_insert_ne, pjoin_ne_name; congruence. }
  unfold path_exists. rewrite !Hnpz.
  split.
  - intros (e & He).
    assert (Hst : st4 = st2)
      by (destruct Hraise as [(p & Hp)|[_ ->]]; [congruence|reflexivity]).
    rewrite Hst. unfold st2. cbn [disk set_disk].
    unfold npz, wav.
    rewrite lookup_insert_ne by (apply pjoin_ne_name; congruence).
    rewrite (mkdir_parents_below _ _ _ _ Hp0 Hmk).
    repeat split.
  - intros p st5 Hp.
    assert (Hst5 : st4 = st5)
      by (destruct Hraise as [(p' & Hp')|[(e & He) _]]; congruence).
    subst st5.
    apply create_voice_preset_ok in Hp as (_ & _ & d' & _ & _ & _ & Hw & ->).
    cbn [disk voice_presets set_voice_presets set_disk].
    fold dir npz in Hw. rewrite (write_file_same _ _ _ _ Hw).
    repeat split.
Qed.

(** A failed extraction: when ffmpeg exits with another code, or
    [subprocess.run] raises, the request answers 500 with at most the first
    500 characters of stderr (or the text of the exception); the temporary
    video is removed, the profile directory made at the start stays, no
    metadata is written, and the cache, the engine and the active voice
    are as before. *)
Theorem extract_audio_failure
  (voice_name filename content start_time duration created : list N)
  (now : Z) (outs : gmap (list N) (list N))
  (text : list N) (partial : option (list N))
  (d1 : gmap (list (list N)) node) (st : state) :
  mkdir_parents (disk st) (get_voice_dir E voice_name) = Ok d1 ->
  (ffmpeg_cut content start_time duration = RunRaised text partial
   \/ exists stderr,
        ffmpeg_cut content start_time duration = ExitNonzero stderr partial
        /\ text = firstn 500 stderr) ->
  exists st',
    extract_audio E ffmpeg_cut voice_name filename content start_time
      duration created now Stored None st outs
    = (Raise (HTTPException 500 (py "Audio extraction failed: " ++ text)),
       st', delete (temp_name now filename) outs)
    /\ disk st' !! get_voice_dir E voice_name = Some Dir
    /\ disk st' !! (get_voice_dir E voice_name </> py "meta.json")
       = disk st !! (get_voice_dir E voice_name </> py "meta.json")
    /\ disk st' !! (get_voice_dir E voice_name </> py "voice_preset.npz")
       = disk st !! (get_voice_dir E voice_name </> py "voice_preset.npz")
    /\ (partial = None -> st' = set_disk d1 st)
    /\ voice_presets st' = voice_presets st
    /\ active_voice st' = active_voice st
    /\ bark_model st' = bark_model st
    /\ bark_processor st' = bark_processor st
    /\ use_voice E voice_name st'
       = (Ok voice_name, set_active_voice (Some voice_name) st').
Proof.
  intros Hmk Hcut.
  destruct fixed_name_facts as (Hm0 & Hp0 & Hw0 & Hmp & Hmw & Hpw).
  pose proof (mkdir_parents_spec _ _ _ Hmk) as [Hroot1 Hdir1].
  set (dir := get_voice_dir E voice_name) in *.
  set (wav := dir </> py "reference.wav").
  exists (leave partial wav (set_disk d1 st)).
  assert (Hrun : extract_audio E ffmpeg_cut voice_name filename content
                   start_time duration created now Stored None st outs
                 = (Raise (HTTPException 500
                             (py "Audio extraction failed: " ++ text)),
                    leave partial wav (set_disk d1 st),
                    delete (temp_name now filename) outs)).
  { unfold extract_audio, update_disk. fold dir wav. rewrite Hmk.
    cbn [write_bytes unlink].
    destruct Hcut as [->|(stderr & -> & ->)];
      rewrite delete_delete_eq, delete_insert_eq; reflexivity. }
  assert (Hleft : forall q, q <> wav ->
            disk (leave partial wav (set_disk d1 st)) !! q = d1 !! q).
  { intros q Hq. unfold leave. destruct partial as [b|]; [|reflexivity].
    cbn [disk set_disk].
    destruct (write_file d1 wav (FBytes b)) as [d'|e] eqn:Hw; [|reflexivity].
    cbn [disk set_disk]. apply (write_file_other _ _ _ _ _ Hw Hq). }
  assert (Hfields : voice_presets (leave partial wav (set_disk d1 st))
                    = voice_presets st
                    /\ active_voice (leave partial wav (set_disk d1 st))
                       = active_voice st
                    /\ bark_model (leave partial wav (set_disk d1 st))
                       = bark_model st
                    /\ bark_processor (leave partial wav (set_disk d1 st))
                       = bark_processor st).
  { unfold leave. destruct partial as [b|]; [|repeat split].
    cbn [disk set_disk].
    destruct (write_file d1 wav (FBytes b)); repeat split. }
  assert (Hdir : disk (leave partial wav (set_disk d1 st)) !! dir
                 = Some Dir).
  { rewrite Hleft by (apply not_eq_sym, pjoin_ne_dir, Hw0). exact Hdir1. }
  split; [exact Hrun|]. split; [exact Hdir|].
  split.
  { rewrite Hleft by (apply pjoin_ne_name; congruence).
    apply (mkdir_parents_below _ _ _ _ Hm0 Hmk). }
  split.
  { rewrite Hleft by (apply pjoin_ne_name; congruence).
    apply (mkdir_parents_below _ _ _ _ Hp0 Hmk). }
  split; [intros ->; reflexivity|].
  destruct Hfields as (H1 & H2 & H3 & H4).
  split; [exact H1|]. split; [exact H2|]. split; [exact H3|].
  split; [exact H4|].
  unfold use_voice, path_exists. fold dir. rewrite Hdir. reflexivity.
Qed.

(** The temporary video in [OUTPUT_DIR].  When the upload is stored and
    unlinking works, the request, returning or raising, leaves
    [OUTPUT_DIR] without the temporary file and with every other file as
    it was; a file that had the temporary name before is gone with it.
    When the write breaks off, the request raises that error and never
    unlinks: what was written stays.  When the unlink is refused, the
    request raises the unlink's error whatever ffmpeg did, the video stays
    in [OUTPUT_DIR], and after a successful ffmpeg run the reference audio
    is already in the profile but no metadata is written and the active
    voice is as before. *)
Theorem extract_audio_temp_video
  (voice_name filename content start_time duration created : list N)
  (now : Z) (outs : gmap (list N) (list N)) (st : state)
  (d1 : gmap (list (list N)) node) :
  mkdir_parents (disk st) (get_voice_dir E voice_name) = Ok d1 ->
  let video := temp_name now filename in
  let run w fault :=
    extract_audio E ffmpeg_cut voice_name filename content start_time
      duration created now w fault st outs in
  (snd (run Stored None) = delete video outs
   /\ snd (run Stored None) !! video = None
   /\ forall n, n <> video -> snd (run Stored None) !! n = outs !! n)
  /\ (forall e kept,
        run (WriteError e kept)  None
        = (Raise e, set_disk d1 st,
           match kept with
           | Some b => <[video := b]> outs
           | None => outs
           end))
  /\ (forall e,
        fst (fst (run Stored (Some e))) = Raise e
        /\ snd (run Stored (Some e)) = <[video := content]> outs
        /\ active_voice (snd (fst (run Stored (Some e)))) = active_voice st
        /\ disk (snd (fst (run Stored (Some e))))
             !! (get_voice_dir E voice_name </> py "meta.json")
           = disk st !! (get_voice_dir E voice_name </> py "meta.json")
        /\ forall out d2,
             ffmpeg_cut content start_time duration = Exit0 out ->
             write_file d1 (get_voice_dir E voice_name </> py "reference.wav")
               (FBytes out) = Ok d2 ->
             snd (fst (run Stored (Some e))) = set_disk d2 st).
Proof.
  intros Hmk video run. subst run. cbv beta.
  destruct fixed_name_facts as (Hm0 & Hp0 & Hw0 & Hmp & Hmw & Hpw).
  set (dir := get_voice_dir E voice_name) in *.
  set (wav := dir </> py "reference.wav").
  assert (Hleave : forall partial q, q <> wav ->
            disk (leave partial wav (set_disk d1 st)) !! q = d1 !! q).
  { intros partial q Hq. unfold leave. destruct partial as [b|]; [|reflexivity].
    cbn [disk set_disk].
    destruct (write_file d1 wav (FBytes b)) as [d'|e] eqn:Hw; [|reflexivity].
    cbn [disk set_disk]. apply (write_file_other _ _ _ _ _ Hw Hq). }
  assert (Hleave_active : forall partial,
            active_voice (leave partial wav (set_disk d1 st))
            = active_voice st).
  { intros partial. unfold leave. destruct partial as [b|]; [|reflexivity].
    cbn [disk set_disk].
    destruct (write_file d1 wav (FBytes b)); reflexivity. }
  assert (Hmeta1 : d1 !! (dir </> py "meta.json")
                   = disk st !! (dir </> py "meta.json"))
    by apply (mkdir_parents_below _ _ _ _ Hm0 Hmk).
  split; [|split].
  - assert (Hout : snd (extract_audio E ffmpeg_cut voice_name filename
                          content start_time duration created now Stored
                          None st outs)
                   = delete video outs).
    { unfold extract_audio, update_disk. fold dir wav video. rewrite Hmk.
      cbn [write_bytes unlink disk set_disk].
      destruct (ffmpeg_cut content start_time duration)
        as [out|stderr partial|text partial]; cbn [snd].
      - destruct (write_file d1 wav (FBytes out)) as [d2|e]; cbn [snd].
        + destruct (save_profile _ _ _ _ _ _ _) as [r st3]. cbn [snd].
          apply delete_insert_eq.
        + rewrite delete_delete_eq. apply delete_insert_eq.
      - rewrite delete_delete_eq. apply delete_insert_eq.
      - rewrite delete_delete_eq. apply delete_insert_eq. }
    rewrite Hout. split; [reflexivity|]. split.
    + apply lookup_delete_eq.
    + intros n Hn. apply lookup_delete_ne. congruence.
  - intros e kept. unfold extract_audio, update_disk. fold dir video.
    rewrite Hmk. reflexivity.
  - intros e. unfold extract_audio, update_disk. fold dir wav video.
    rewrite Hmk. cbn [write_bytes unlink disk set_disk].
    destruct (ffmpeg_cut content start_time duration)
      as [out|stderr partial|text partial]; cbn [fst snd].
    + destruct (write_file d1 wav (FBytes out)) as [d2|e0] eqn:Hw;
        cbn [fst snd disk set_disk active_voice].
      * split; [reflexivity|]. split; [reflexivity|].
        split; [reflexivity|]. split.
        -- rewrite (write_file_other _ _ _ _ _ Hw)
             by (apply pjoin_ne_name; congruence).
           exact Hmeta1.
        -- intros out' d2' Hcut Hw'. injection Hcut as <-.
           rewrite Hw in Hw'. injection Hw' as <-. reflexivity.
      * split; [reflexivity|]. split; [reflexivity|].
        split; [reflexivity|]. split; [exact Hmeta1|].
        intros out' d2' Hcut Hw'. injection Hcut as <-. congruence.
    + split; [reflexivity|]. split; [reflexivity|].
      split; [apply Hleave_active|]. split.
      * rewrite Hleave by (apply pjoin_ne_name; congruence). exact Hmeta1.
      * intros out' d2' Hcut. discriminate.
    + split; [reflexivity|]. split; [reflexivity|].
      split; [apply Hleave_active|]. split.
      * rewrite Hleave by (apply pjoin_ne_name; congruence). exact Hmeta1.
      * intros out' d2' Hcut. discriminate.
Qed.

(** After a returning extraction under a name that keeps at least one
    character, a listing that returns shows the profile under the
    sanitised name, described as extracted from the upload's file name,
    with the language ["fr"] whatever was spoken, the creation time of the
    request, and the preset flag the extraction answered with. *)
Theorem extract_then_list
  (voice_name filename content start_time duration created : list N)
  (now : Z) (outs : gmap (list N) (list N))
  (out : list N) (d1 : gmap (list (list N)) node) (st st' : state)
  (resp : extract_response) (outs' : gmap (list N) (list N))
  (vs : list voice_summary) :
  mkdir_parents (disk st) (get_voice_dir E voice_name) = Ok d1 ->
  is_dir (disk st) (get_voice_dir E voice_name </> py "reference.wav")
  = false ->
  is_dir (disk st) (get_voice_dir E voice_name </> py "meta.json") = false ->
  ffmpeg_cut content start_time duration = Exit0 out ->
  extract_audio E ffmpeg_cut voice_name filename content start_time
    duration created now Stored None st outs
  = (Ok resp, st', outs') ->
  safe E voice_name <> [] ->
  list_voice_profiles (disk st') = Ok vs ->
  exists v,
    In v vs
    /\ v_name v = safe E voice_name
    /\ v_description v = JStr (py "Extracted from " ++ filename)
    /\ v_language v = JStr (py "fr")
    /\ v_created v = JStr created
    /\ v_has_preset v = x_has_preset resp.
Proof.
  intros Hmk Hwav Hmeta Hcut Hrun Hs Hlist.
  destruct (extract_audio_saved voice_name filename content
              start_time duration created now outs out d1 st Hmk Hwav Hmeta Hcut)
    as (resp0 & st0 & Hrun0 & Hresp & Hroot & Hdir & _ & Hm & _).
  rewrite Hrun0 in Hrun. injection Hrun as <- <- _.
  assert (Hd : get_voice_dir E voice_name = [safe E voice_name])
    by (unfold get_voice_dir; destruct (safe E voice_name);
        [congruence|reflexivity]).
  rewrite Hd in Hdir, Hm, Hresp.
  destruct (listed_row _ _ _ Hroot Hdir Hlist) as (v & Hin & Hv).
  exists v. split; [exact Hin|].
  unfold profile_summary, path_exists in Hv. rewrite Hm in Hv.
  injection Hv as <-. rewrite Hresp.
  cbn [v_name v_description v_language v_created v_has_preset
       x_has_preset].
  unfold meta_get.
  assert (Hdesc : extract_meta voice_name filename created start_time
                    duration !! py "description"
                  = Some (JStr (py "Extracted from " ++ filename)))
    by (vm_compute; reflexivity).
  assert (Hlang : extract_meta voice_name filename created start_time
                    duration !! py "language" = Some (JStr (py "fr")))
    by (vm_compute; reflexivity).
  assert (Hcr : extract_meta voice_name filename created start_time
                  duration !! py "created" = Some (JStr created))
    by (vm_compute; reflexivity).
  rewrite Hdesc, Hlang, Hcr. repeat split.
Qed.

End ExtractionFacts.

Lemma extract_audio_saves_profile_witness :
  exists resp st',
    extract_dave = (Ok resp, st', ∅)
    /\ x_name resp = py "dave"
    /\ disk st' !! [py "dave"; py "reference.wav"]
       = Some (File (FBytes [5; 6; 7; 8]%N))
    /\ active_voice st' = Some (py "dave").
Proof.
  destruct (extract_audio_saves_profile demo_env demo_cut (py "dave")
              (py "clip.mp4") [0; 5; 6; 7; 8]%N (py "0") (py "30")
              (py "2025-02-01T00:00:00Z") 1738368000 ∅
              [5; 6; 7; 8]%N
              (<[ [py "dave"] := Dir ]> {[ VOICES_DIR := Dir ]}) fresh)
    as (resp & st' & Hrun & Hname & _ & _ & _ & _ & Hwav & _ & Hact & _).
  - vm_compute. reflexivity.
  - vm_compute. reflexivity.
  - vm_compute. reflexivity.
  - reflexivity.
  - exists resp, st'. split; [exact Hrun|]. split; [exact Hname|].
    split; [exact Hwav|exact Hact].
Defined.

Lemma extract_audio_preset_flag_witness :
  x_has_preset
    (ok_or {| x_name := []; x_audio_file := []; x_size_kb := 0;
              x_has_preset := false; x_active := false |}
       (fst (fst extract_alice)))
  = path_exists (disk (snd clone_alice))
      [py "alice"; py "voice_preset.npz"]
  /\ voice_presets (snd (fst extract_alice))
     = voice_presets (snd clone_alice).
Proof.
  destruct (extract_audio_preset_flag demo_env demo_cut (py "alice")
              (py "silent.mp4") [0]%N (py "0") (py "30")
              (py "2025-02-03T00:00:00Z") 1738540800 ∅ []
              (disk (snd clone_alice)) (snd clone_alice)
              (snd (fst extract_alice))
              (ok_or {| x_name := []; x_audio_file := []; x_size_kb := 0;
                        x_has_preset := false; x_active := false |}
                 (fst (fst extract_alice)))) as [Hstale _].
  - vm_compute. reflexivity.
  - vm_compute. reflexivity.
  - vm_compute. reflexivity.
  - reflexivity.
  - vm_compute. reflexivity.
  - destruct Hstale as (Hflag & _ & Hcache).
    + exists EngineError. vm_compute. reflexivity.
    + split; [exact Hflag|exact Hcache].
Defined.

Lemma extract_audio_failure_witness :
  exists st',
    extract_erin
    = (Raise (HTTPException 500
                (py "Audio extraction failed: "
                 ++ py "Invalid data found when processing input")),
       st', ∅)
    /\ disk st' !! [py "erin"] = Some Dir
    /\ active_voice st' = None.
Proof.
  destruct (extract_audio_failure demo_env demo_cut (py "erin")
              (py "empty.mp4") [] (py "0") (py "30")
              (py "2025-02-02T00:00:00Z") 1738454400 ∅
              (py "Invalid data found when processing input") None
              (<[ [py "erin"] := Dir ]> {[ VOICES_DIR := Dir ]}) fresh)
    as (st' & Hrun & Hdir & _ & _ & _ & _ & Hact & _).
  - vm_compute. reflexivity.
  - right. exists (py "Invalid data found when processing input").
    split; vm_compute; reflexivity.
  - exists st'. split; [exact Hrun|]. split; [exact Hdir|exact Hact].
Defined.

Lemma extract_then_list_witness :
  exists v,
    In v (ok_or [] (list_voice_profiles (disk (snd (fst extract_dave)))))
    /\ v_name v = safe demo_env (py "dave")
    /\ v_description v = JStr (py "Extracted from " ++ py "clip.mp4")
    /\ v_language v = JStr (py "fr")
    /\ v_created v = JStr (py "2025-02-01T00:00:00Z")
    /\ v_has_preset v
       = x_has_preset
           (ok_or {| x_name := []; x_audio_file := []; x_size_kb := 0;
                     x_has_preset := false; x_active := false |}
              (fst (fst extract_dave))).
Proof.
  apply (extract_then_list demo_env demo_cut (py "dave") (py "clip.mp4")
           [0; 5; 6; 7; 8]%N (py "0") (py "30") (py "2025-02-01T00:00:00Z")
           1738368000 ∅ [5; 6; 7; 8]%N
           (<[ [py "dave"] := Dir ]> {[ VOICES_DIR := Dir ]}) fresh
           (snd (fst extract_dave)) _ (snd extract_dave)).
  - vm_compute. reflexivity.
  - vm_compute. reflexivity.
  - vm_compute. reflexivity.
  - reflexivity.
  - vm_compute. reflexivity.
  - vm_compute. discriminate.
  - vm_compute. reflexivity.
Defined.

Lemma extract_audio_temp_video_witness :
  snd (extract_audio demo_env demo_cut (py "dave") (py "clip.mp4")
         [0; 5; 6; 7; 8]%N (py "0") (py "30") (py "2025-02-01T00:00:00Z")
         1738368000 Stored None fresh used_outputs)
  = used_outputs
  /\ extract_audio demo_env demo_cut (py "dave") (py "clip.mp4")
       [0; 5; 6; 7; 8]%N (py "0") (py "30") (py "2025-02-01T00:00:00Z")
       1738368000 (WriteError OSError (Some [0; 5]%N)) None fresh
       used_outputs
     = (Raise OSError,
        set_disk (<[ [py "dave"] := Dir ]> {[ VOICES_DIR := Dir ]}) fresh,
        <[ py "temp_1738368000_clip.mp4" := [0; 5]%N ]> used_outputs)
  /\ snd (extract_audio demo_env demo_cut (py "dave") (py "clip.mp4")
            [0; 5; 6; 7; 8]%N (py "0") (py "30")
            (py "2025-02-01T00:00:00Z") 1738368000 Stored (Some OSError)
            fresh used_outputs)
     = <[ py "temp_1738368000_clip.mp4" := [0; 5; 6; 7; 8]%N ]>
         used_outputs.
Proof.
  destruct (extract_audio_temp_video demo_env demo_cut (py "dave")
              (py "clip.mp4") [0; 5; 6; 7; 8]%N (py "0") (py "30")
              (py "2025-02-01T00:00:00Z") 1738368000 used_outputs fresh
              (<[ [py "dave"] := Dir ]> {[ VOICES_DIR := Dir ]}))
    as ((Hgone & _) & Hwrite & Hunlink).
  - vm_compute. reflexivity.
  - split; [rewrite Hgone; vm_compute; reflexivity|]. split.
    + exact (Hwrite OSError (Some [0; 5]%N)).
    + exact (proj1 (proj2 (Hunlink OSError))).
Defined.

(** * Normalisation of the generated audio *)

Section Float32Facts.
Local Open Scope Z_scope.

(** ** Digits and shifts *)

Lemma digits2_pos_bounds (m : positive) :
  2 ^ (Zpos (digits2_pos m) - 1) <= Zpos m < 2 ^ Zpos (digits2_pos m).
Proof.
  induction m as [m IH|m IH|]; cbn [digits2_pos].
  - rewrite Pos2Z.inj_succ.
    replace (Z.succ (Zpos (digits2_pos m)) - 1) with (Zpos (digits2_pos m))
      by lia.
    rewrite Z.pow_succ_r by lia.
    assert (H : 2 ^ Zpos (digits2_pos m)
                = 2 * 2 ^ (Zpos (digits2_pos m) - 1)).
    { rewrite <- Z.pow_succ_r by lia. f_equal. lia. }
    lia.
  - rewrite Pos2Z.inj_succ.
    replace (Z.succ (Zpos (digits2_pos m)) - 1) with (Zpos (digits2_pos m))
      by lia.
    rewrite Z.pow_succ_r by lia.
    assert (H : 2 ^ Zpos (digits2_pos m)
                = 2 * 2 ^ (Zpos (digits2_pos m) - 1)).
    { rewrite <- Z.pow_succ_r by lia. f_equal. lia. }
    lia.
  - cbn. lia.
Qed.

Lemma Zdigits2_nonneg (m : Z) : 0 <= Zdigits2 m.
Proof. destruct m; cbn; lia. Qed.

(** A non-negative number below [2^n] has at most [n] digits. *)
Lemma Zdigits2_le (m n : Z) :
  0 <= m -> 0 <= n -> m < 2 ^ n -> Zdigits2 m <= n.
Proof.
  intros Hm Hn Hlt. destruct m as [|p|p]; cbn; [lia| |lia].
  destruct (digits2_pos_bounds p) as [Hlo _].
  destruct (Z_le_gt_dec (Zpos (digits2_pos p)) n) as [H|H]; [exact H|].
  assert (2 ^ n <= 2 ^ (Zpos (digits2_pos p) - 1))
    by (apply Z.pow_le_mono_r; lia).
  lia.
Qed.

Lemma Zdigits2_pow2 (n : Z) : 0 <= n -> Zdigits2 (2 ^ n) = n + 1.
Proof.
  intros Hn. assert (Hpos : 0 < 2 ^ n) by (apply Z.pow_pos_nonneg; lia).
  destruct (2 ^ n) as [|p|p] eqn:Hp; try lia. cbn.
  destruct (digits2_pos_bounds p) as [Hlo Hhi]. rewrite <- Hp in Hlo, Hhi.
  apply Z.pow_le_mono_r_iff in Hlo; [|lia|lia].
  apply Z.pow_lt_mono_r_iff in Hhi; [|lia|lia]. lia.
Qed.

Lemma iter_pos_nat {A} (f : A -> A) (p : positive) (x : A) :
  SpecFloat.iter_pos f p x = Nat.iter (Pos.to_nat p) f x.
Proof.
  revert x. induction p as [p IH|p IH|]; intros x; cbn [SpecFloat.iter_pos].
  - rewrite !IH, Pos2Nat.inj_xI.
    replace (S (2 * Pos.to_nat p))%nat
      with (Pos.to_nat p + (Pos.to_nat p + 1))%nat by lia.
    rewrite !Nat.iter_add. reflexivity.
  - rewrite !IH, Pos2Nat.inj_xO.
    replace (2 * Pos.to_nat p)%nat
      with (Pos.to_nat p + Pos.to_nat p)%nat by lia.
    rewrite Nat.iter_add. reflexivity.
  - reflexivity.
Qed.

Lemma shr_1_m (mrs : shr_record) :
  0 <= shr_m mrs -> shr_m (shr_1 mrs) = shr_m mrs / 2.
Proof.
  destruct mrs as [m r s]. cbn [shr_m]. intros Hm.
  destruct m as [|[p|p|]|p]; cbn [shr_1 shr_m]; try lia.
  - reflexivity.
  - rewrite Pos2Z.inj_xI.
    apply (Z.div_unique (2 * Zpos p + 1) 2 (Zpos p) 1); lia.
  - rewrite Pos2Z.inj_xO.
    apply (Z.div_unique (2 * Zpos p) 2 (Zpos p) 0); lia.
  - reflexivity.
Qed.

Lemma shr_iter_m (n : nat) (mrs : shr_record) :
  0 <= shr_m mrs ->
  shr_m (Nat.iter n shr_1 mrs) = shr_m mrs / 2 ^ Z.of_nat n.
Proof.
  intros Hm. induction n as [|n IH].
  - cbn. rewrite Z.div_1_r. reflexivity.
  - rewrite Nat.iter_succ. rewrite shr_1_m, IH.
    + rewrite Nat2Z.inj_succ, Z.pow_succ_r by lia.
      rewrite Z.div_div by (try apply Z.pow_pos_nonneg; lia).
      f_equal. lia.
    + rewrite IH. apply Z.div_pos; [lia|apply Z.pow_pos_nonneg; lia].
Qed.

(** [shr_fexp] divides the mantissa by a power of two and moves the
    exponent by as much. *)
Lemma shr_fexp_spec (m e : Z) (l : location) :
  0 <= m ->
  let k := Z.max (fexp 24 128 (Zdigits2 m + e) - e) 0 in
  shr_m (fst (shr_fexp 24 128 m e l)) = m / 2 ^ k
  /\ snd (shr_fexp 24 128 m e l) = e + k.
Proof.
  intros Hm k. unfold shr_fexp, shr. subst k.
  assert (Hrec : shr_m (shr_record_of_loc m l) = m)
    by (destruct l as [|[| |]]; reflexivity).
  destruct (fexp 24 128 (Zdigits2 m + e) - e) as [|p|p] eqn:Hn;
    cbn [fst snd].
  - rewrite Hrec. cbn. rewrite Z.div_1_r. split; [reflexivity|lia].
  - rewrite iter_pos_nat, shr_iter_m by (rewrite Hrec; exact Hm).
    rewrite Hrec, positive_nat_Z.
    rewrite Z.max_l by lia. split; reflexivity.
  - rewrite Hrec. rewrite Z.max_r by lia. cbn. rewrite Z.div_1_r.
    split; [reflexivity|lia].
Qed.

Lemma round_nearest_even_bounds (m : Z) (l : location) :
  m <= round_nearest_even m l <= m + 1.
Proof.
  destruct l as [|[| |]]; cbn; try lia. destruct (Z.even m); lia.
Qed.

(** The rounding of [mx * 2^ex]: the mantissa is cut to [m1], rounded to
    [m2], which is [m1] or [m1 + 1], and cut once more if it gained a
    digit. *)
Lemma binary_round_aux_spec (sx : bool) (mx ex : Z) (lx : location) :
  0 <= mx ->
  let k1 := Z.max (fexp 24 128 (Zdigits2 mx + ex) - ex) 0 in
  exists m2,
    mx / 2 ^ k1 <= m2 <= mx / 2 ^ k1 + 1
    /\ let T := ex + k1 in
       let k2 := Z.max (fexp 24 128 (Zdigits2 m2 + T) - T) 0 in
       binary_round_aux 24 128 sx mx ex lx
       = match m2 / 2 ^ k2 with
         | Z0 => S754_zero sx
         | Zpos m =>
           if T + k2 <=? 128 - 24 then S754_finite sx m (T + k2)
           else S754_infinity sx
         | Zneg _ => S754_nan
         end.
Proof.
  intros Hm k1. unfold binary_round_aux.
  destruct (shr_fexp_spec mx ex lx Hm) as [H1m H1e]. fold k1 in H1m, H1e.
  destruct (shr_fexp 24 128 mx ex lx) as [mrs1 e1]. cbn [fst snd] in *.
  set (m2 := round_nearest_even (shr_m mrs1) (loc_of_shr_record mrs1)).
  assert (Hm2 : mx / 2 ^ k1 <= m2 <= mx / 2 ^ k1 + 1).
  { rewrite <- H1m. apply round_nearest_even_bounds. }
  assert (Hm1 : 0 <= mx / 2 ^ k1).
  { apply Z.div_pos; [exact Hm|apply Z.pow_pos_nonneg; lia]. }
  exists m2. split; [exact Hm2|]. cbn zeta. subst e1.
  destruct (shr_fexp_spec m2 (ex + k1) loc_Exact ltac:(lia)) as [H2m H2e].
  destruct (shr_fexp 24 128 m2 (ex + k1) loc_Exact) as [mrs2 e2].
  cbn [fst snd] in *. rewrite H2m, H2e. reflexivity.
Qed.


(** ** The two operations of the normalisation *)

Lemma f32_0_95_value : f32_0_95 = S754_finite false 15938355 (-24).
Proof. vm_compute. reflexivity. Qed.

Lemma fexp_le (x : Z) : x <= 0 -> fexp 24 128 x <= -24.
Proof. unfold fexp, emin. lia. Qed.

Lemma pow2_pos (n : Z) : 0 <= n -> 0 < 2 ^ n.
Proof. intros H. apply Z.pow_pos_nonneg; lia. Qed.

(** A mantissa below [2^(-e)] forces a negative exponent. *)
Lemma below_one_exp (m : positive) (e : Z) : Zpos m < 2 ^ (- e) -> e < 0.
Proof.
  intros H. destruct (Z_lt_ge_dec e 0) as [He|He]; [exact He|].
  destruct (Z.eq_dec e 0) as [->|Hne]; [cbn in H; lia|].
  rewrite Z.pow_neg_r in H by lia. lia.
Qed.

(** A number below one times 0.95 rounds to at most 0.95. *)
Lemma mul_within (s : bool) (m : positive) (e : Z) :
  Zpos m < 2 ^ (- e) ->
  within_0_95 (f32_mul (S754_finite s m e) f32_0_95).
Proof.
  intros Hlt. pose proof (below_one_exp m e Hlt) as He.
  rewrite f32_0_95_value. unfold f32_mul. cbn [SFmul].
  destruct (binary_round_aux_spec (xorb s false)
              (Zpos (m * 15938355)) (e + -24) loc_Exact ltac:(lia))
    as (m2 & Hm2 & Heq).
  cbv zeta in Heq. rewrite Heq. clear Heq.
  rewrite Pos2Z.inj_mul in *.
  set (M := Zpos m * 15938355) in *.
  set (ex := e + -24) in *.
  set (k1 := Z.max (fexp 24 128 (Zdigits2 M + ex) - ex) 0) in *.
  set (T := ex + k1) in *.
  assert (HM : 0 <= M < 2 ^ (24 - e)).
  { split; [unfold M; lia|].
    replace (24 - e) with (24 + - e) by lia.
    rewrite Z.pow_add_r by lia.
    change (2 ^ 24) with 16777216. unfold M. nia. }
  assert (Hd : Zdigits2 M <= 24 - e)
    by (apply Zdigits2_le; [lia|lia|apply HM]).
  assert (Hex : ex = e - 24) by (unfold ex; lia).
  assert (Hf1 : fexp 24 128 (Zdigits2 M + ex) <= -24)
    by (apply fexp_le; lia).
  assert (HT : T <= -24) by (unfold T, k1; lia).
  assert (Hk1 : 0 <= k1) by (unfold k1; lia).
  set (K := 15938355 * 2 ^ (-24 - T)).
  assert (HK : K < 2 ^ (- T)).
  { unfold K. replace (- T) with (24 + (-24 - T)) by lia.
    rewrite Z.pow_add_r by lia. change (2 ^ 24) with 16777216.
    pose proof (pow2_pos (-24 - T) ltac:(lia)). nia. }
  assert (Hm1 : M / 2 ^ k1 < K).
  { apply Z.div_lt_upper_bound; [apply pow2_pos; lia|].
    unfold K. rewrite Z.mul_comm, <- Z.mul_assoc, <- Z.pow_add_r by lia.
    replace (-24 - T + k1) with (- e) by (unfold T; lia).
    unfold M. pose proof (pow2_pos (- e) ltac:(lia)). nia. }
  assert (Hm1' : 0 <= M / 2 ^ k1)
    by (apply Z.div_pos; [lia|apply pow2_pos; lia]).
  assert (Hd2 : Zdigits2 m2 <= - T) by (apply Zdigits2_le; lia).
  assert (Hf2 : fexp 24 128 (Zdigits2 m2 + T) <= -24)
    by (apply fexp_le; lia).
  set (k2 := Z.max (fexp 24 128 (Zdigits2 m2 + T) - T) 0) in *.
  assert (Hk2 : 0 <= k2) by (unfold k2; lia).
  assert (HE : T + k2 <= -24) by (unfold k2; lia).
  assert (Hm3 : 0 <= m2 / 2 ^ k2)
    by (apply Z.div_pos; [lia|apply pow2_pos; lia]).
  destruct (m2 / 2 ^ k2) as [|p|p] eqn:Hp; [exact I| |lia].
  replace (T + k2 <=? 128 - 24) with true
    by (symmetry; apply Z.leb_le; lia).
  cbn [within_0_95].
  destruct (Z.eq_dec (T + k2) (-24)) as [Heq|Hne]; [right|left; lia].
  split; [exact Heq|]. rewrite <- Hp.
  replace k2 with (-24 - T) by lia.
  apply Z.le_trans with (K / 2 ^ (-24 - T)).
  - apply Z.div_le_mono; [apply pow2_pos; lia|lia].
  - unfold K. rewrite Z.div_mul; [lia|].
    pose proof (pow2_pos (-24 - T) ltac:(lia)). lia.
Qed.


Lemma bounded_canonical (m : positive) (e : Z) :
  bounded 24 128 m e = true ->
  Z.max (Zpos (digits2_pos m) + e - 24) (-149) = e.
Proof.
  unfold bounded, canonical_mantissa, fexp, emin.
  rewrite andb_true_iff, Z.eqb_eq. intros [H _]. exact H.
Qed.

(** On canonical numbers the comparison of exponents, then mantissas, is
    the comparison of the values. *)
Lemma compare_lt_value (mx mp : positive) (ex ep : Z) :
  bounded 24 128 mx ex = true -> bounded 24 128 mp ep = true ->
  SFcompare (S754_finite false mx ex) (S754_finite false mp ep) = Some Lt ->
  ex <= ep
  /\ Zpos mx < Zpos mp * 2 ^ (ep - ex)
  /\ Zpos (digits2_pos mx) + ex - (Zpos (digits2_pos mp) + ep) <= 0.
Proof.
  intros Hx Hp Hcmp.
  apply bounded_canonical in Hx, Hp.
  destruct (digits2_pos_bounds mx) as [Hxlo Hxhi].
  destruct (digits2_pos_bounds mp) as [Hplo Hphi].
  cbn [SFcompare] in Hcmp.
  destruct (Z.compare_spec ex ep) as [Heq|Hlt|Hgt].
  - subst ep. change (Pos.compare_cont Eq mx mp) with (Pos.compare mx mp)
      in Hcmp.
    assert (Hm : (mx < mp)%positive)
      by (apply Pos.compare_lt_iff; congruence).
    rewrite Z.sub_diag. cbn [Z.pow]. split; [lia|]. split; [lia|].
    assert (Hd : Zpos (digits2_pos mx) - 1 < Zpos (digits2_pos mp)).
    { apply (Z.pow_lt_mono_r_iff 2); lia. }
    lia.
  - assert (Hdp : Zpos (digits2_pos mp) = 24) by lia.
    assert (Hdx : Zpos (digits2_pos mx) <= 24) by lia.
    rewrite Hdp in Hplo. change (2 ^ (24 - 1)) with 8388608 in Hplo.
    assert (Hmx : Zpos mx < 16777216).
    { apply Z.lt_le_trans with (2 ^ Zpos (digits2_pos mx)); [lia|].
      change 16777216 with (2 ^ 24). apply Z.pow_le_mono_r; lia. }
    assert (Hpow : 2 <= 2 ^ (ep - ex)).
    { change 2 with (2 ^ 1) at 1. apply Z.pow_le_mono_r; lia. }
    split; [lia|]. split; [nia|lia].
  - discriminate.
Qed.

(** A canonical number divided by a greater one rounds to at most one. *)
Lemma div_at_most_one (sx : bool) (mx mp : positive) (ex ep : Z) :
  bounded 24 128 mx ex = true -> bounded 24 128 mp ep = true ->
  SFcompare (S754_finite false mx ex) (S754_finite false mp ep) = Some Lt ->
  at_most_one (f32_div (S754_finite sx mx ex) (S754_finite false mp ep)).
Proof.
  intros Hx Hp Hcmp.
  destruct (compare_lt_value mx mp ex ep Hx Hp Hcmp) as (Hle & Hval & Hdelta).
  unfold f32_div. cbn [SFdiv]. unfold SFdiv_core_binary.
  cbn [Zdigits2].
  set (e' := Z.min (fexp 24 128 (Zpos (digits2_pos mx) + ex
                                 - (Zpos (digits2_pos mp) + ep)))
                   (ex - ep)).
  assert (Hf0 : fexp 24 128 (Zpos (digits2_pos mx) + ex
                             - (Zpos (digits2_pos mp) + ep)) <= -24)
    by (apply fexp_le; lia).
  assert (He' : e' <= -24) by (unfold e'; lia).
  assert (He'' : e' <= ex - ep) by (unfold e'; lia).
  set (s := ex - ep - e').
  assert (Hs : 0 <= s) by (unfold s; lia).
  set (m' := match s with
             | Z0 => Zpos mx
             | Zpos _ => Z.shiftl (Zpos mx) s
             | Zneg _ => 0
             end).
  assert (Hm' : m' = Zpos mx * 2 ^ s).
  { unfold m'. destruct s as [|p|p] eqn:Hsp.
    - cbn. lia.
    - apply Z.shiftl_mul_pow2. lia.
    - lia. }
  clearbody m'.
  destruct (Z.div_eucl m' (Zpos mp)) as [q r] eqn:Hdiv.
  assert (Hq : q = m' / Zpos mp) by (unfold Z.div; rewrite Hdiv; reflexivity).
  assert (Hpows : 2 ^ (- e') = 2 ^ s * 2 ^ (ep - ex)).
  { rewrite <- Z.pow_add_r by lia. f_equal. unfold s. lia. }
  assert (Hq0 : 0 <= q).
  { rewrite Hq. apply Z.div_pos; [|lia]. rewrite Hm'.
    pose proof (pow2_pos s Hs). nia. }
  assert (Hqlt : q < 2 ^ (- e')).
  { rewrite Hq. apply Z.div_lt_upper_bound; [lia|].
    rewrite Hm', Hpows. pose proof (pow2_pos s Hs). nia. }
  destruct (binary_round_aux_spec (xorb sx false) q e'
              (new_location (Zpos mp) r) Hq0) as (m2 & Hm2 & Heq).
  cbv zeta in Heq. rewrite Heq. clear Heq.
  set (k1 := Z.max (fexp 24 128 (Zdigits2 q + e') - e') 0) in *.
  set (T := e' + k1) in *.
  assert (Hdq : Zdigits2 q <= - e') by (apply Zdigits2_le; lia).
  assert (Hf1 : fexp 24 128 (Zdigits2 q + e') <= -24)
    by (apply fexp_le; lia).
  assert (Hk1 : 0 <= k1) by (unfold k1; lia).
  assert (HT : T <= -24) by (unfold T, k1; lia).
  assert (Hm1 : 0 <= q / 2 ^ k1 < 2 ^ (- T)).
  { split; [apply Z.div_pos; [lia|apply pow2_pos; lia]|].
    apply Z.div_lt_upper_bound; [apply pow2_pos; lia|].
    rewrite <- Z.pow_add_r by lia.
    replace (k1 + - T) with (- e') by (unfold T; lia). exact Hqlt. }
  destruct (Z.eq_dec m2 (2 ^ (- T))) as [Hcarry|Hno].
  - (* the rounding carried up to one *)
    rewrite Hcarry, Zdigits2_pow2 by lia.
    replace (- T + 1 + T) with 1 by lia.
    change (fexp 24 128 1) with (-23).
    rewrite Z.max_l by lia.
    replace (2 ^ (- T)) with (8388608 * 2 ^ (-23 - T)).
    2:{ change 8388608 with (2 ^ 23). rewrite <- Z.pow_add_r by lia.
        f_equal. lia. }
    rewrite Z.div_mul
      by (pose proof (pow2_pos (-23 - T) ltac:(lia)); lia).
    replace (T + (-23 - T)) with (-23) by lia.
    cbn. right. split; reflexivity.
  - assert (Hm2lt : 0 <= m2 < 2 ^ (- T)) by lia.
    assert (Hd2 : Zdigits2 m2 <= - T) by (apply Zdigits2_le; lia).
    assert (Hf2 : fexp 24 128 (Zdigits2 m2 + T) <= -24)
      by (apply fexp_le; lia).
    set (k2 := Z.max (fexp 24 128 (Zdigits2 m2 + T) - T) 0) in *.
    assert (Hk2 : 0 <= k2) by (unfold k2; lia).
    assert (HE : T + k2 <= -24) by (unfold k2; lia).
    assert (Hm3 : 0 <= m2 / 2 ^ k2 < 2 ^ (- (T + k2))).
    { split; [apply Z.div_pos; [lia|apply pow2_pos; lia]|].
      apply Z.div_lt_upper_bound; [apply pow2_pos; lia|].
      rewrite <- Z.pow_add_r by lia.
      replace (k2 + - (T + k2)) with (- T) by lia. lia. }
    destruct (m2 / 2 ^ k2) as [|p|p] eqn:Hm3p; [exact I| |lia].
    replace (T + k2 <=? 128 - 24) with true
      by (symmetry; apply Z.leb_le; lia).
    cbn [at_most_one]. left. lia.
Qed.


(** Equal magnitudes divide to one, which scales to 0.95 exactly. *)
Lemma div_self (sx : bool) (m : positive) (e : Z) :
  f32_div (S754_finite sx m e) (S754_finite false m e)
  = S754_finite sx 8388608 (-23).
Proof.
  unfold f32_div. cbn [SFdiv]. unfold SFdiv_core_binary.
  replace (Zdigits2 (Zpos m) + e - (Zdigits2 (Zpos m) + e)) with 0 by lia.
  change (fexp 24 128 0) with (-24).
  replace (Z.min (-24) (e - e)) with (-24) by lia.
  replace (e - e - -24) with 24 by lia.
  rewrite Z.shiftl_mul_pow2 by lia. change (2 ^ 24) with 16777216.
  destruct (Z.div_eucl (Zpos m * 16777216) (Zpos m)) as [q r] eqn:Hdiv.
  assert (Hq : q = 16777216).
  { change q with (fst (q, r)). rewrite <- Hdiv.
    change (fst (Z.div_eucl (Zpos m * 16777216) (Zpos m)))
      with (Zpos m * 16777216 / Zpos m).
    rewrite Z.mul_comm. apply Z.div_mul. lia. }
  assert (Hr : r = 0).
  { change r with (snd (q, r)). rewrite <- Hdiv.
    change (snd (Z.div_eucl (Zpos m * 16777216) (Zpos m)))
      with ((Zpos m * 16777216) mod Zpos m).
    rewrite Z.mul_comm. apply Z.mod_mul. lia. }
  subst q r.
  assert (Hloc : new_location (Zpos m) 0 = loc_Exact).
  { unfold new_location. destruct (Z.even (Zpos m)); reflexivity. }
  rewrite Hloc. destruct sx; vm_compute; reflexivity.
Qed.

Lemma mul_one (s : bool) :
  f32_mul (S754_finite s 8388608 (-23)) f32_0_95
  = S754_finite s 15938355 (-24).
Proof. destruct s; vm_compute; reflexivity. Qed.

Lemma mul_at_most_one (r : spec_float) :
  at_most_one r -> within_0_95 (f32_mul r f32_0_95).
Proof.
  destruct r as [s|s| |s m e]; cbn [at_most_one].
  - intros _. rewrite f32_0_95_value. exact I.
  - intros [].
  - intros [].
  - intros [Hlt|[-> ->]]; [apply mul_within, Hlt|].
    rewrite mul_one. cbn. lia.
Qed.

(** ** The order of magnitudes *)

Lemma mag_le_magnitude (a b : spec_float) :
  mag_le a b -> magnitude a /\ magnitude b.
Proof.
  destruct a as [[|]|[|]| |[|] m1 e1], b as [[|]|[|]| |[|] m2 e2];
    cbn; tauto.
Qed.

Lemma mag_le_refl (a : spec_float) : magnitude a -> mag_le a a.
Proof. destruct a as [[|]|[|]| |[|] m e]; cbn; try tauto. lia. Qed.

Lemma mag_le_trans (a b c : spec_float) :
  mag_le a b -> mag_le b c -> mag_le a c.
Proof.
  destruct a as [[|]|[|]| |[|] m1 e1], b as [[|]|[|]| |[|] m2 e2],
           c as [[|]|[|]| |[|] m3 e3]; cbn; try tauto; lia.
Qed.

Lemma mag_le_antisym (a b : spec_float) :
  mag_le a b -> mag_le b a -> a = b.
Proof.
  destruct a as [[|]|[|]| |[|] m1 e1], b as [[|]|[|]| |[|] m2 e2];
    cbn; try tauto.
  intros H1 H2. assert (e1 = e2) by lia. assert (m1 = m2) by lia.
  congruence.
Qed.

Lemma finite_compare (m1 m2 : positive) (e1 e2 : Z) :
  SFcompare (S754_finite false m1 e1) (S754_finite false m2 e2)
  = Some (match Z.compare e1 e2 with
          | Eq => Pos.compare m1 m2
          | c => c
          end).
Proof. cbn. destruct (Z.compare e1 e2); reflexivity. Qed.

Lemma ltb_mag_le (a b : spec_float) :
  magnitude a -> magnitude b ->
  if SFltb a b then mag_le a b else mag_le b a.
Proof.
  destruct a as [[|]|[|]| |[|] m1 e1], b as [[|]|[|]| |[|] m2 e2];
    cbn [magnitude]; try tauto; intros _ _; try exact I.
  unfold SFltb. rewrite finite_compare. cbn [mag_le].
  destruct (Z.compare_spec e1 e2) as [->|H|H]; [|lia|lia].
  destruct (Pos.compare_spec m1 m2) as [->|H|H]; lia.
Qed.

Lemma mag_lt_compare (m1 m2 : positive) (e1 e2 : Z) :
  mag_le (S754_finite false m1 e1) (S754_finite false m2 e2) ->
  (m1 = m2 /\ e1 = e2)
  \/ SFcompare (S754_finite false m1 e1) (S754_finite false m2 e2)
     = Some Lt.
Proof.
  cbn [mag_le]. rewrite finite_compare. intros [H|[-> H]].
  - right. rewrite (proj2 (Z.compare_lt_iff e1 e2) H). reflexivity.
  - rewrite Z.compare_refl.
    destruct (Pos.compare_spec m1 m2) as [->|H'|H']; [auto|auto|lia].
Qed.

Lemma np_maximum_magnitudes (a b : spec_float) :
  magnitude a -> magnitude b ->
  magnitude (np_maximum a b)
  /\ (np_maximum a b = a \/ np_maximum a b = b)
  /\ mag_le a (np_maximum a b) /\ mag_le b (np_maximum a b).
Proof.
  intros Ha Hb. pose proof (ltb_mag_le a b Ha Hb) as H.
  assert (Heq : np_maximum a b = if SFltb a b then b else a).
  { destruct a as [[|]|[|]| |[|] m1 e1], b as [[|]|[|]| |[|] m2 e2];
      cbn [magnitude] in *; try tauto; reflexivity. }
  rewrite Heq. destruct (SFltb a b).
  - split; [exact Hb|]. split; [auto|]. split; [exact H|].
    apply mag_le_refl, Hb.
  - split; [exact Ha|]. split; [auto|]. split; [|exact H].
    apply mag_le_refl, Ha.
Qed.

(** The maximum of magnitudes is one of them and bounds them all. *)
Lemma fold_maximum_spec (rest : list spec_float) :
  forall x,
    magnitude x -> Forall magnitude rest ->
    magnitude (List.fold_left np_maximum rest x)
    /\ In (List.fold_left np_maximum rest x) (x :: rest)
    /\ Forall (fun y => mag_le y (List.fold_left np_maximum rest x))
         (x :: rest).
Proof.
  induction rest as [|y rest IH]; intros x Hx Hrest; cbn [List.fold_left].
  - split; [exact Hx|]. split; [left; reflexivity|].
    constructor; [apply mag_le_refl, Hx|constructor].
  - apply Forall_cons_1 in Hrest as [Hy Hrest].
    destruct (np_maximum_magnitudes x y Hx Hy) as (Hz & Hsel & Hxz & Hyz).
    destruct (IH _ Hz Hrest) as (Hr & Hin & Hall).
    apply Forall_cons_1 in Hall as [Hzr Hall].
    split; [exact Hr|]. split.
    + destruct Hin as [Hin|Hin]; [|right; right; exact Hin].
      rewrite <- Hin. destruct Hsel as [->| ->]; [left|right; left];
        reflexivity.
    + constructor; [exact (mag_le_trans _ _ _ Hxz Hzr)|].
      constructor; [exact (mag_le_trans _ _ _ Hyz Hzr)|exact Hall].
Qed.

Lemma fold_maximum_nan (rest : list spec_float) :
  List.fold_left np_maximum rest S754_nan = S754_nan.
Proof. induction rest as [|y rest IH]; [reflexivity|exact IH]. Qed.

Lemma np_max_nan (l : list spec_float) :
  In S754_nan l -> np_max l = Some S754_nan.
Proof.
  destruct l as [|x rest]; [intros []|]. cbn [np_max]. intros Hin. f_equal.
  revert x Hin. induction rest as [|y rest IH]; intros x Hin.
  - destruct Hin as [->|[]]. reflexivity.
  - cbn [List.fold_left]. destruct Hin as [->|Hin].
    + apply fold_maximum_nan.
    + destruct Hin as [->|Hin].
      * assert (H : np_maximum x S754_nan = S754_nan)
          by (destruct x; reflexivity).
        rewrite H. apply fold_maximum_nan.
      * apply IH. right. exact Hin.
Qed.


Lemma np_maximum_sel (a b : spec_float) :
  a <> S754_nan -> b <> S754_nan ->
  np_maximum a b = a \/ np_maximum a b = b.
Proof.
  intros Ha Hb. destruct a, b; try congruence; cbn [np_maximum];
    destruct (SFltb _ _); auto.
Qed.

Lemma np_maximum_inf (a : spec_float) :
  a <> S754_nan -> SFabs a = a ->
  np_maximum a (S754_infinity false) = S754_infinity false
  /\ np_maximum (S754_infinity false) a = S754_infinity false.
Proof.
  intros Ha Habs.
  destruct a as [[|]|[|]| |[|] m e]; try congruence; try discriminate;
    split; reflexivity.
Qed.

(** Without a NaN, an infinite magnitude is the maximum. *)
Lemma fold_maximum_inf (rest : list spec_float) :
  forall a,
    a <> S754_nan -> SFabs a = a ->
    ~ In S754_nan (List.map SFabs rest) ->
    a = S754_infinity false
    \/ In (S754_infinity false) (List.map SFabs rest) ->
    List.fold_left np_maximum (List.map SFabs rest) a = S754_infinity false.
Proof.
  induction rest as [|y rest IH]; intros a Ha Habs Hnan Hinf.
  - destruct Hinf as [->|[]]. reflexivity.
  - cbn [List.map List.fold_left In] in *.
    assert (Hy : SFabs y <> S754_nan) by tauto.
    assert (Hyabs : SFabs (SFabs y) = SFabs y) by (destruct y; reflexivity).
    apply IH.
    + destruct (np_maximum_sel a (SFabs y) Ha Hy) as [-> | ->]; assumption.
    + destruct (np_maximum_sel a (SFabs y) Ha Hy) as [-> | ->]; assumption.
    + tauto.
    + destruct Hinf as [->|[Hinf|Hinf]].
      * left. apply (proj2 (np_maximum_inf (SFabs y) Hy Hyabs)).
      * left. rewrite Hinf. apply (proj1 (np_maximum_inf a Ha Habs)).
      * right. exact Hinf.
Qed.

Lemma np_max_inf (l : list spec_float) :
  ~ In S754_nan (List.map SFabs l) ->
  In (S754_infinity false) (List.map SFabs l) ->
  np_max (List.map SFabs l) = Some (S754_infinity false).
Proof.
  destruct l as [|x rest]; [intros _ []|].
  cbn [List.map np_max In]. intros Hnan Hin. f_equal.
  apply fold_maximum_inf.
  - tauto.
  - destruct x; reflexivity.
  - tauto.
  - destruct Hin as [Hin|Hin]; [left; exact Hin|right; exact Hin].
Qed.

(** ** The normalisation *)

Lemma abs_magnitude (x : spec_float) :
  is_finite x = true -> magnitude (SFabs x).
Proof. destruct x; cbn; intros H; (exact I || discriminate). Qed.

Lemma within_mag_le (y : spec_float) :
  within_0_95 y ->
  is_finite y = true
  /\ mag_le (SFabs y) (S754_finite false 15938355 (-24)).
Proof. destruct y as [s|s| |s m e]; cbn; tauto. Qed.

(** One sample of a finite waveform whose peak is not zero. *)
Lemma sample_scaled (x : spec_float) (mp : positive) (ep : Z) :
  is_finite x = true -> is_f32 x = true ->
  bounded 24 128 mp ep = true ->
  mag_le (SFabs x) (S754_finite false mp ep) ->
  within_0_95 (f32_mul (f32_div x (S754_finite false mp ep)) f32_0_95)
  /\ (SFabs x = S754_finite false mp ep ->
      SFabs (f32_mul (f32_div x (S754_finite false mp ep)) f32_0_95)
      = S754_finite false 15938355 (-24)).
Proof.
  intros Hfin Hf32 Hp Hle.
  destruct x as [s|s| |s m e]; try discriminate.
  - split; [rewrite f32_0_95_value; exact I|]. discriminate.
  - cbn [SFabs] in Hle |- *. cbn [is_f32 valid_binary] in Hf32.
    destruct (mag_lt_compare m mp e ep Hle) as [[-> ->]|Hlt].
    + rewrite div_self, mul_one. split; [cbn; lia|]. reflexivity.
    + split.
      * apply mul_at_most_one, div_at_most_one; assumption.
      * intros Heq. injection Heq as -> ->.
        rewrite div_self, mul_one. reflexivity.
Qed.

Lemma abs_in_map (peak : spec_float) (audio : list spec_float) :
  In peak (List.map SFabs audio) ->
  exists x, In x audio /\ SFabs x = peak.
Proof.
  intros H. apply List.in_map_iff in H as (x & Hx & Hin). eauto.
Qed.

(** The peak of a finite waveform. *)
Lemma peak_spec (audio : list spec_float) :
  audio <> [] ->
  Forall (fun x => is_finite x = true) audio ->
  exists peak,
    np_max (List.map SFabs audio) = Some peak
    /\ magnitude peak
    /\ (exists x, In x audio /\ SFabs x = peak)
    /\ Forall (fun x => mag_le (SFabs x) peak) audio.
Proof.
  intros Hne Hfin. destruct audio as [|x rest]; [congruence|].
  cbn [List.map np_max].
  apply Forall_cons_1 in Hfin as [Hx Hrest].
  destruct (fold_maximum_spec (List.map SFabs rest) (SFabs x)
              (abs_magnitude x Hx)) as (Hmag & Hin & Hall).
  { apply List.Forall_forall. intros y Hy.
    apply List.in_map_iff in Hy as (z & <- & Hz).
    apply abs_magnitude. rewrite List.Forall_forall in Hrest. auto. }
  eexists. split; [reflexivity|]. split; [exact Hmag|]. split.
  - apply abs_in_map. exact Hin.
  - change (SFabs x :: List.map SFabs rest)
      with (List.map SFabs (x :: rest)) in Hall.
    rewrite List.Forall_forall in Hall |- *. intros y Hy.
    apply Hall, List.in_map, Hy.
Qed.

End Float32Facts.

(** C2, as amended.  For a waveform of float32 samples: when every sample
    is zero the buffer is left as it is; when every sample is finite and
    one is not zero, the output has as many samples, all finite, and
    [max(abs(output))] is exactly the float32 nearest to 0.95, that is
    15938355 * 2^-24, less than 2^-26 below 0.95; a waveform with a NaN is
    left as it is, NaN included; and in a waveform with an infinite sample
    and no NaN, the infinite samples become NaN and all others zero. *)
Theorem normalize_spec (audio : list spec_float) :
  Forall (fun x => is_f32 x = true) audio ->
  audio <> [] ->
  (Forall (fun x => exists s, x = S754_zero s) audio ->
   normalize audio = Ok audio)
  /\ (Forall (fun x => is_finite x = true) audio ->
      Exists (fun x => forall s, x <> S754_zero s) audio ->
      exists out,
        normalize audio = Ok out
        /\ List.length out = List.length audio
        /\ Forall (fun y => is_finite y = true) out
        /\ np_max (List.map SFabs out) = Some f32_0_95
        /\ f32_0_95 = S754_finite false 15938355 (-24))
  /\ (In S754_nan audio -> normalize audio = Ok audio)
  /\ (~ In S754_nan audio ->
      (exists s, In (S754_infinity s) audio) ->
      normalize audio = Ok (List.map after_infinite_peak audio)).
Proof.
  intros Hf32 Hne. split; [|split; [|split]].
  - (* silence *)
    intros Hzero.
    assert (Hfin : Forall (fun x => is_finite x = true) audio).
    { rewrite List.Forall_forall in Hzero |- *. intros x Hx.
      destruct (Hzero x Hx) as (s & ->). reflexivity. }
    destruct (peak_spec audio Hne Hfin) as (peak & Hmax & _ & (x & Hx & Hp) & _).
    unfold normalize. rewrite Hmax.
    rewrite List.Forall_forall in Hzero. destruct (Hzero x Hx) as (s & ->).
    cbn [SFabs] in Hp. subst peak. reflexivity.
  - (* finite, not silent *)
    intros Hfin Hsome.
    destruct (peak_spec audio Hne Hfin)
      as (peak & Hmax & Hmag & (x0 & Hx0 & Hp0) & Hall).
    assert (Hpeak : exists mp ep,
              peak = S754_finite false mp ep
              /\ bounded 24 128 mp ep = true).
    { apply List.Exists_exists in Hsome as (x & Hx & Hnz).
      rewrite List.Forall_forall in Hall, Hfin, Hf32.
      pose proof (Hall x Hx) as Hle. pose proof (Hfin x Hx) as Hxf.
      pose proof (Hf32 x0 Hx0) as Hv. pose proof (Hfin x0 Hx0) as Hx0f.
      destruct x as [s|s| |s m e]; try discriminate;
        [destruct (Hnz s eq_refl)|].
      destruct peak as [[|]|[|]| |[|] mp ep]; cbn in Hle; try tauto.
      exists mp, ep. split; [reflexivity|].
      destruct x0 as [s0|s0| |s0 m0 e0]; try discriminate.
      cbn [SFabs] in Hp0. injection Hp0 as -> ->. exact Hv. }
    destruct Hpeak as (mp & ep & -> & Hbp).
    set (g := fun x => f32_mul (f32_div x (S754_finite false mp ep)) f32_0_95).
    assert (Hrun : normalize audio = Ok (List.map g audio)).
    { unfold normalize. rewrite Hmax. reflexivity. }
    assert (Hsamples : forall x, In x audio ->
              within_0_95 (g x)
              /\ (SFabs x = S754_finite false mp ep ->
                  SFabs (g x) = S754_finite false 15938355 (-24))).
    { rewrite List.Forall_forall in Hall, Hfin, Hf32. intros x Hx.
      apply sample_scaled; auto. }
    exists (List.map g audio). split; [exact Hrun|].
    split; [apply List.length_map|].
    split.
    { apply List.Forall_forall. intros y Hy.
      apply List.in_map_iff in Hy as (x & <- & Hx).
      apply within_mag_le, Hsamples, Hx. }
    split; [|apply f32_0_95_value].
    rewrite f32_0_95_value.
    assert (Hne' : List.map g audio <> [])
      by (destruct audio; [congruence|discriminate]).
    assert (Hfin' : Forall (fun y => is_finite y = true) (List.map g audio)).
    { apply List.Forall_forall. intros y Hy.
      apply List.in_map_iff in Hy as (x & <- & Hx).
      apply within_mag_le, Hsamples, Hx. }
    destruct (peak_spec (List.map g audio) Hne' Hfin')
      as (r & Hmax' & _ & (y & Hy & Hr) & Hall').
    rewrite Hmax'. f_equal. apply mag_le_antisym.
    + rewrite <- Hr. apply List.in_map_iff in Hy as (x & <- & Hx).
      apply within_mag_le, Hsamples, Hx.
    + rewrite List.Forall_forall in Hall'.
      rewrite <- (proj2 (Hsamples x0 Hx0) Hp0).
      apply Hall', List.in_map, Hx0.
  - (* a NaN *)
    intros Hnan. unfold normalize.
    rewrite (np_max_nan (List.map SFabs audio)).
    + reflexivity.
    + change S754_nan with (SFabs S754_nan). apply List.in_map, Hnan.
  - (* an infinite sample *)
    intros Hnan (s & Hinf). unfold normalize.
    rewrite np_max_inf.
    + cbn [SFltb SFcompare]. f_equal. apply List.map_ext.
      intros x. rewrite f32_0_95_value.
      destruct x as [[|]|[|]| |[|] m e]; reflexivity.
    + intros H. apply List.in_map_iff in H as (x & Hx & Hin).
      destruct x; try discriminate. exact (Hnan Hin).
    + change (S754_infinity false) with (SFabs (S754_infinity s)).
      apply List.in_map, Hinf.
Qed.

(** C2 as stated fails on a waveform that is not all zero but holds an
    infinite sample: the output's peak is NaN, not 0.95. *)
Lemma normalize_overflowed :
  forallb is_f32 overflowed_audio = true
  /\ normalize overflowed_audio = Ok [S754_nan; S754_zero false]
  /\ np_max (List.map SFabs [S754_nan; S754_zero false]) = Some S754_nan
  /\ Some S754_nan <> Some f32_0_95.
Proof.
  split; [reflexivity|]. split; [vm_compute; reflexivity|].
  split; [reflexivity|]. vm_compute. discriminate.
Qed.

Lemma normalize_spec_witness :
  exists out,
    normalize demo_audio = Ok out
    /\ List.length out = List.length demo_audio
    /\ Forall (fun y => is_finite y = true) out
    /\ np_max (List.map SFabs out) = Some f32_0_95
    /\ f32_0_95 = S754_finite false 15938355 (-24).
Proof.
  refine (proj1 (proj2 (normalize_spec demo_audio _ _)) _ _).
  - repeat constructor.
  - discriminate.
  - repeat constructor.
  - apply Exists_cons_hd. discriminate.
Defined.

(** * The health check *)

Lemma filter_length_perm {A} (f : A -> bool) (l l' : list A) :
  Permutation l l' ->
  length (List.filter f l) = length (List.filter f l').
Proof.
  induction 1 as [|x l l' _ IH|x y l|l l' l'' _ IH1 _ IH2]; cbn.
  - reflexivity.
  - destruct (f x); cbn; congruence.
  - destruct (f x), (f y); reflexivity.
  - congruence.
Qed.

Section HealthFacts.
Variable E : Env.
Variable G : Type.
Variable vram_used_gb : G.

(** The health check reads and never writes: the state is as before in
    every outcome.  It raises exactly when the listing of the profiles
    raises, with the same exception, so one profile whose [meta.json] is
    not a JSON object fails the health check.  When it returns, the status
    is ["ok"], [model_loaded] tells whether a model handle is stored,
    [voices] counts the directories directly below [VOICES_DIR] (none when
    [VOICES_DIR] is missing), and without CUDA the memory reading is the
    integer 0. *)
Theorem health_spec (st : state) :
  snd (health E G vram_used_gb st) = st
  /\ (forall e,
        fst (health E G vram_used_gb st) = Raise e
        <-> list_voice_profiles (disk st) = Raise e)
  /\ (forall s f,
        disk st !! VOICES_DIR = Some Dir ->
        disk st !! [s] = Some Dir ->
        disk st !! ([s] </> py "meta.json") = Some f ->
        (forall m, f <> File (FJson m)) ->
        exists e, health E G vram_used_gb st = (Raise e, st))
  /\ (forall resp,
        fst (health E G vram_used_gb st) = Ok resp ->
        h_status resp = py "ok"
        /\ (h_model_loaded resp = true <-> bark_model st <> None)
        /\ h_device resp = device E
        /\ h_active_voice resp = active_voice st
        /\ (disk st !! VOICES_DIR = Some Dir ->
            h_voices resp
            = length (List.filter (is_dir (disk st))
                        (children (disk st) VOICES_DIR)))
        /\ (disk st !! VOICES_DIR = None -> h_voices resp = 0)
        /\ (cuda_available E = false -> h_vram_used_gb resp = inl 0%Z)
        /\ (cuda_available E = true
            -> h_vram_used_gb resp = inr vram_used_gb)).
Proof.
  unfold health.
  split; [destruct (list_voice_profiles (disk st)); reflexivity|].
  split.
  { intros e. destruct (list_voice_profiles (disk st)) as [vs|e0]; cbn.
    - split; discriminate.
    - split; congruence. }
  split.
  { intros s f Hroot Hdir Hmeta Hnot.
    assert (Hraise : exists e, profile_summary (disk st) [s] = Raise e).
    { unfold profile_summary, path_exists. rewrite Hmeta.
      destruct f as [|[b|p|m]]; try (eexists; reflexivity).
      destruct (Hnot m eq_refl). }
    destruct Hraise as (e & He).
    assert (Hlist : exists e', list_voice_profiles (disk st) = Raise e').
    { unfold list_voice_profiles, iterdir.
      rewrite (is_dir_exists (disk st) VOICES_DIR)
        by (apply is_dir_lookup, Hroot).
      rewrite (proj2 (is_dir_lookup (disk st) VOICES_DIR) Hroot).
      cbn [negb].
      apply (profiles_of_raise (disk st) _ [s] e).
      - apply sorted_by_In, children_spec. split; [eauto|].
        exists s. reflexivity.
      - apply is_dir_lookup, Hdir.
      - exact He. }
    destruct Hlist as (e' & ->). eauto. }
  intros resp.
  destruct (list_voice_profiles (disk st)) as [vs|e0] eqn:Hlist;
    [|discriminate].
  cbn [fst]. intros H. injection H as <-.
  cbn [h_status h_model_loaded h_device h_active_voice h_voices
       h_vram_used_gb].
  split; [reflexivity|]. split.
  { destruct (bark_model st); split; congruence. }
  split; [reflexivity|]. split; [reflexivity|]. split.
  { intros Hroot.
    pose proof (listed_rows (disk st) vs Hroot Hlist) as Hrows.
    rewrite <- (Forall2_length _ _ _ Hrows).
    apply filter_length_perm, sorted_by_perm. }
  split.
  { intros Hnone. unfold list_voice_profiles, path_exists in Hlist.
    rewrite Hnone in Hlist. cbn in Hlist. injection Hlist as <-.
    reflexivity. }
  unfold device. split; intros ->; reflexivity.
Qed.

End HealthFacts.

(** * The output file of a synthesis *)

Lemma uint_no_slash (d : Decimal.uint) :
  ~ In 47%N (py (NilZero.string_of_uint d)).
Proof.
  assert (H : forall d, ~ In 47%N (py (NilEmpty.string_of_uint d))).
  { clear d. induction d as [|d IH|d IH|d IH|d IH|d IH|d IH|d IH|d IH|d IH|d IH];
      cbn; [tauto|..];
      (intros [Hc|Hc]; [discriminate|exact (IH Hc)]). }
  unfold NilZero.string_of_uint. destruct d; try apply H.
  cbn. intros [Hc|[]]. discriminate.
Qed.

Lemma int_no_slash (z : Z) :
  ~ In 47%N (py (NilZero.string_of_int (Z.to_int z))).
Proof.
  unfold NilZero.string_of_int. destruct (Z.to_int z) as [d|d].
  - apply uint_no_slash.
  - change (~ In 47%N (45%N :: py (NilZero.string_of_uint d))).
    intros [Hc|Hc]; [discriminate|exact (uint_no_slash d Hc)].
Qed.

Section OutputName.
Variable E : Env.

(** The tag of the output file is the voice the request resolved to,
    unsanitised, or ["default"]. *)
Lemma tts_voice_tag text voice language st s st' :
  tts E text voice language st = (Ok s, st') ->
  s_voice_tag s = voice_tag_of (py_or voice (active_voice st)).
Proof.
  unfold tts. intros H. break_in H; try discriminate;
    injection H as <- _; reflexivity.
Qed.

(** The output file of a synthesis is named after the raw voice.  For a
    built-in preset (a name that starts with ["v2/"]) the file name starts
    with ["tts_v2/"]: it points into a subdirectory [tts_v2] of
    [OUTPUT_DIR], which the server never makes.  For a voice made of
    characters the sanitiser keeps, and for the default voice, the name
    holds no ['/']. *)
Theorem tts_out_name_separator
  (text language : list N) (voice : option (list N)) (st st' : state)
  (s : synthesis) (ts : Z) :
  tts E text voice language st = (Ok s, st') ->
  (forall v,
     py_or voice (active_voice st) = Some v ->
     startswith (py "v2/") v = true ->
     exists rest, tts_out_name (s_voice_tag s) ts = py "tts_v2/" ++ rest)
  /\ (forall v,
        py_or voice (active_voice st) = Some v ->
        Forall (fun c => keep E c = true) v ->
        ~ In 47%N (tts_out_name (s_voice_tag s) ts))
  /\ (py_or voice (active_voice st) = None ->
      tts_out_name (s_voice_tag s) ts
      = py "tts_default_" ++ py (NilZero.string_of_int (Z.to_int ts))
        ++ py ".wav").
Proof.
  intros Hrun. rewrite (tts_voice_tag _ _ _ _ _ _ Hrun).
  split; [|split].
  - intros v -> Hv.
    change (py "v2/") with [118; 50; 47]%N in Hv.
    destruct v as [|a [|b [|c v]]]; cbn [startswith] in Hv;
      rewrite ?andb_false_r in Hv; try discriminate.
    rewrite !andb_true_iff, !N.eqb_eq in Hv.
    destruct Hv as (<- & <- & <- & _).
    eexists. unfold tts_out_name, voice_tag_of. reflexivity.
  - intros v -> Hv.
    assert (Htag : ~ In 47%N (voice_tag_of (Some v))).
    { destruct v as [|c v].
      - cbn. intuition discriminate.
      - cbn [voice_tag_of]. intros Hin.
        rewrite List.Forall_forall in Hv. specialize (Hv _ Hin).
        vm_compute in Hv. discriminate. }
    unfold tts_out_name. rewrite !in_app_iff.
    intros [H|[H|[H|[H|H]]]].
    + cbn in H. intuition discriminate.
    + exact (Htag H).
    + cbn in H. intuition discriminate.
    + exact (int_no_slash ts H).
    + cbn in H. intuition discriminate.
  - intros ->. reflexivity.
Qed.

End OutputName.

Lemma tts_out_name_separator_witness :
  exists rest,
    tts_out_name (py "v2/fr_speaker_0") 1700000000000
    = py "tts_v2/" ++ rest.
Proof.
  destruct (tts_out_name_separator demo_env (py "test") (py "fr")
              (Some (py "v2/fr_speaker_0")) fresh
              (set_bark_model (Some demo_model)
                 (set_bark_processor (Some demo_processor) fresh))
              {| s_voice_name := Some (py "v2/fr_speaker_0");
                 s_model := demo_model; s_processor := demo_processor;
                 s_text := py "test";
                 s_voice_preset := VPName (py "v2/fr_speaker_0");
                 s_voice_tag := py "v2/fr_speaker_0" |}
              1700000000000) as [Hbuiltin _].
  - vm_compute. reflexivity.
  - exact (Hbuiltin (py "v2/fr_speaker_0") eq_refl eq_refl).
Defined.

(** * The code-request skill *)

Lemma py_truth_false (v : pyval) :
  py_truth v = false
  <-> v = PNone \/ v = PBool false \/ v = PInt 0 \/ v = PStr [].
Proof.
  split.
  - destruct v as [|[|]|z|[|c s]]; simpl; intros H; try discriminate; auto.
    apply negb_false_iff, Z.eqb_eq in H. subst z. auto.
  - intros [ -> | [ -> | [ -> | -> ] ] ]; reflexivity.
Qed.

Lemma args_get_absent (args : gmap (list N) pyval) (key : list N) :
  args !! key = None -> py_truth (args_get args key) = false.
Proof. intros H. unfold args_get. rewrite H. reflexivity. Qed.

Section CodeRequest.

Variable fetch : list N -> gmap (list N) pyval -> result unit.
Variable log : list N -> result unit.

(** Validation: the skill answers with the error message, and calls
    neither [log] nor [fetch], exactly when [code_change_request] or
    [reason] is falsy (absent, [None], [False], [0] or the empty string);
    in particular whenever one of the two keys is missing from [args],
    whatever [log] and [fetch] would do. *)
Theorem run_validation (args : gmap (list N) pyval) :
  (py_truth (args_get args (py "code_change_request")) = false
   \/ py_truth (args_get args (py "reason")) = false
   <-> run args fetch log
       = (Ok (py "Error: code_change_request and reason are required."), []))
  /\ (py_truth (args_get args (py "code_change_request")) = false
      \/ py_truth (args_get args (py "reason")) = false
      <-> snd (run args fetch log) = [])
  /\ (fst (run args fetch log)
      = Ok (py "Error: code_change_request and reason are required.")
      -> snd (run args fetch log) = [])
  /\ (args !! py "code_change_request" = None \/ args !! py "reason" = None
      -> run args fetch log
         = (Ok (py "Error: code_change_request and reason are required."),
            [])).
Proof.
  assert (Hrej : py_truth (args_get args (py "code_change_request")) = false
                 \/ py_truth (args_get args (py "reason")) = false
                 -> run args fetch log
                    = (Ok (py "Error: code_change_request and reason are required."), [])).
  { intros H. unfold run.
    destruct H as [H|H]; rewrite H; simpl; [reflexivity|].
    rewrite orb_true_r. reflexivity. }
  assert (Hacc : snd (run args fetch log) = []
                 \/ fst (run args fetch log)
                    = Ok (py "Error: code_change_request and reason are required.")
                 -> py_truth (args_get args (py "code_change_request")) = false
                    \/ py_truth (args_get args (py "reason")) = false).
  { unfold run.
    destruct (py_truth (args_get args (py "code_change_request"))); [|auto].
    destruct (py_truth (args_get args (py "reason"))); [|auto].
    simpl. destruct (log _) as [u|e]; [|intros [H|H]; discriminate].
    destruct (fetch _ _) as [u'|e']; intros [H|H]; discriminate. }
  split; [|split; [|split]].
  - split; [exact Hrej|]. intros H. apply Hacc. right. rewrite H. reflexivity.
  - split; [intros H; rewrite (Hrej H); reflexivity|]. intros H. apply Hacc. auto.
  - intros H. rewrite (Hrej (Hacc (or_intror H))). reflexivity.
  - intros [H|H]; apply Hrej; [left|right]; apply args_get_absent, H.
Qed.


(** A request with both fields truthy: [log] is called first, once, with
    the request text; [fetch] is called exactly when [log] returned, once,
    on [telegram.send] with a payload of exactly the two keys [chatId]
    (the fixed chat) and [text]; the skill returns only the submitted
    message, and does so exactly when both calls return; and every
    exception it raises is the one [log] or [fetch] raised. *)
Theorem run_logs_then_sends
  (args : gmap (list N) pyval) (code_change_request reason : pyval) :
  args !! py "code_change_request" = Some code_change_request ->
  args !! py "reason" = Some reason ->
  py_truth code_change_request = true ->
  py_truth reason = true ->
  let text := request_text_of code_change_request reason in
  let payload :=
    telegram_payload (telegram_message_of code_change_request reason) in
  let sent := FetchCall (py "telegram.send") payload in
  (snd (run args fetch log) = [LogCall text]
   \/ snd (run args fetch log) = [LogCall text; sent])
  /\ (snd (run args fetch log) = [LogCall text; sent]
      <-> log text = Ok tt)
  /\ (run args fetch log
      = (Ok (py "Code change request submitted."), [LogCall text; sent])
      <-> log text = Ok tt /\ fetch (py "telegram.send") payload = Ok tt)
  /\ (forall s, fst (run args fetch log) = Ok s ->
        s = py "Code change request submitted.")
  /\ (forall e, fst (run args fetch log) = Raise e <->
        log text = Raise e
        \/ (log text = Ok tt
            /\ fetch (py "telegram.send") payload = Raise e))
  /\ payload !! py "chatId" = Some (PStr (py "8189338836"))
  /\ payload !! py "text"
     = Some (PStr (telegram_message_of code_change_request reason))
  /\ (forall key, key <> py "chatId" -> key <> py "text" ->
        payload !! key = None).
Proof.
  intros Hc Hr Hct Hrt text payload sent.
  assert (Hrun : run args fetch log
                 = match log text with
                   | Raise e => (Raise e, [LogCall text])
                   | Ok _ =>
                     match fetch (py "telegram.send") payload with
                     | Raise e => (Raise e, [LogCall text; sent])
                     | Ok _ =>
                       (Ok (py "Code change request submitted."),
                        [LogCall text; sent])
                     end
                   end).
  { unfold run, args_get. rewrite Hc, Hr, Hct, Hrt. reflexivity. }
  rewrite Hrun. clear Hrun.
  split; [|split; [|split; [|split; [|split; [|split; [|split]]]]]].
  - destruct (log text) as [u|e]; [|auto].
    destruct (fetch _ _) as [u'|e']; auto.
  - destruct (log text) as [[]|e].
    + destruct (fetch _ _) as [u'|e']; split; reflexivity.
    + split; discriminate.
  - destruct (log text) as [[]|e].
    + destruct (fetch _ _) as [[]|e'].
      * split; auto.
      * split; [discriminate|]. intros [_ H]. discriminate.
    + split; [discriminate|]. intros [H _]. discriminate.
  - intros s. destruct (log text) as [u|e]; [|discriminate].
    destruct (fetch _ _) as [u'|e']; [|discriminate].
    simpl. intros H. injection H as <-. reflexivity.
  - intros e. destruct (log text) as [[]|e0].
    + destruct (fetch _ _) as [[]|e'].
      * simpl. split; [discriminate|].
        intros [H|[_ H]]; discriminate.
      * simpl. split.
        -- intros H. injection H as <-. auto.
        -- intros [H|[_ H]]; [discriminate|]. injection H as <-. reflexivity.
    + simpl. split.
      * intros H. injection H as <-. auto.
      * intros [H|[H _]]; [|discriminate]. injection H as <-. reflexivity.
  - apply lookup_insert_eq.
  - unfold payload, telegram_payload.
    rewrite lookup_insert_ne by (vm_compute; discriminate).
    apply lookup_insert_eq.
  - intros key H1 H2. unfold payload, telegram_payload.
    rewrite lookup_insert_ne by congruence.
    rewrite lookup_insert_ne by congruence.
    apply lookup_empty.
Qed.

End CodeRequest.

Lemma run_logs_then_sends_witness :
  run demo_args fetch_down log_ok
  = (Raise EngineError,
     [LogCall (request_text_of (PStr (py "fix the parser"))
                               (PStr (py "it crashes")));
      FetchCall (py "telegram.send")
        (telegram_payload
           (telegram_message_of (PStr (py "fix the parser"))
                                (PStr (py "it crashes"))))]).
Proof.
  destruct (run_logs_then_sends fetch_down log_ok demo_args
              (PStr (py "fix the parser")) (PStr (py "it crashes")))
    as (_ & Hsent & _ & _ & Hraise & _).
  - vm_compute. reflexivity.
  - vm_compute. reflexivity.
  - reflexivity.
  - reflexivity.
  - apply injective_projections.
    + apply Hraise. right. split; reflexivity.
    + apply Hsent. reflexivity.
Defined.

(** Splitting at the first line feed. *)
Lemma split_first {A} (x : A) (a a' r r' : list A) :
  ~ In x a -> ~ In x a' ->
  a ++ [x] ++ r = a' ++ [x] ++ r' -> a = a' /\ r = r'.
Proof.
  revert a'. induction a as [|c a IH]; intros [|c' a'] Ha Ha' H; simpl in *.
  - injection H as <-. auto.
  - injection H as <- _. tauto.
  - injection H as -> _. tauto.
  - injection H as <- H. destruct (IH a') as [<- <-]; auto.
Qed.

(** The messages carry the two fields unescaped.  When the request is a
    string without a line feed, the logged text, and likewise the Telegram
    text, determines the request and the rendering of the reason. *)
Theorem request_text_single_line
  (a a' : list N) (reason reason' : pyval) :
  ~ In 10%N a -> ~ In 10%N a' ->
  (request_text_of (PStr a) reason = request_text_of (PStr a') reason'
   -> a = a' /\ py_str reason = py_str reason')
  /\ (telegram_message_of (PStr a) reason
      = telegram_message_of (PStr a') reason'
      -> a = a' /\ py_str reason = py_str reason').
Proof.
  intros Ha Ha'. unfold request_text_of, telegram_message_of, LF.
  simpl py_str.
  split; intros H.
  - do 2 apply app_inv_head in H.
    apply split_first in H; [|assumption..]. destruct H as [<- H].
    do 2 apply app_inv_head in H. auto.
  - do 3 apply app_inv_head in H.
    apply split_first in H; [|assumption..]. destruct H as [<- H].
    do 2 apply app_inv_head in H. auto.
Qed.

Lemma request_text_single_line_witness :
  (request_text_of (PStr (py "fix")) (PStr (py "7"))
   = request_text_of (PStr (py "fix it")) (PInt 7)
   -> py "fix" = py "fix it" /\ py_str (PStr (py "7")) = py_str (PInt 7))
  /\ (telegram_message_of (PStr (py "fix")) (PStr (py "7"))
      = telegram_message_of (PStr (py "fix it")) (PInt 7)
      -> py "fix" = py "fix it" /\ py_str (PStr (py "7")) = py_str (PInt 7)).
Proof.
  apply (request_text_single_line (py "fix") (py "fix it")
           (PStr (py "7")) (PInt 7)).
  - vm_compute. intros [H|[H|[H|[]]]]; discriminate.
  - vm_compute. intros [H|[H|[H|[H|[H|[H|[]]]]]]]; discriminate.
Defined.

(** Without that restriction the format is ambiguous: a request that
    spans lines and contains the [Reason:] header makes the same [log] and
    [fetch] calls, with the same result, as a different pair of fields. *)
Theorem run_multiline_request_ambiguous
  (fetch : list N -> gmap (list N) pyval -> result unit)
  (log : list N -> result unit) (a b c : list N) :
  a <> [] -> c <> [] ->
  let args1 : gmap (list N) pyval :=
    <[py "code_change_request" := PStr (a ++ LF ++ py "Reason:" ++ LF ++ b)]>
    (<[py "reason" := PStr c]> ∅) in
  let args2 : gmap (list N) pyval :=
    <[py "code_change_request" := PStr a]>
    (<[py "reason" := PStr (b ++ LF ++ py "Reason:" ++ LF ++ c)]> ∅) in
  args1 <> args2 /\ run args1 fetch log = run args2 fetch log.
Proof.
  intros Ha Hc args1 args2. split.
  - intros H.
    assert (H1 : args1 !! py "code_change_request"
                 = args2 !! py "code_change_request") by (rewrite H; reflexivity).
    unfold args1, args2 in H1. rewrite !lookup_insert_eq in H1.
    injection H1 as H1.
    apply (f_equal (@List.length N)) in H1. rewrite !length_app in H1.
    simpl in H1. lia.
  - unfold run, args_get, args1, args2.
    rewrite !lookup_insert_eq.
    rewrite !lookup_insert_ne by (vm_compute; discriminate).
    rewrite !lookup_insert_eq.
    assert (Ht : request_text_of
                   (PStr (a ++ LF ++ py "Reason:" ++ LF ++ b)) (PStr c)
                 = request_text_of
                     (PStr a) (PStr (b ++ LF ++ py "Reason:" ++ LF ++ c))).
    { unfold request_text_of. simpl py_str. rewrite <- !app_assoc.
      reflexivity. }
    assert (Hm : telegram_message_of
                   (PStr (a ++ LF ++ py "Reason:" ++ LF ++ b)) (PStr c)
                 = telegram_message_of
                     (PStr a) (PStr (b ++ LF ++ py "Reason:" ++ LF ++ c))).
    { unfold telegram_message_of. simpl py_str. rewrite <- !app_assoc.
      reflexivity. }
    rewrite Ht, Hm.
    destruct a as [|x a]; [congruence|]. destruct c as [|y c]; [congruence|].
    destruct b; reflexivity.
Qed.

Lemma run_multiline_request_ambiguous_witness :
  run (<[py "code_change_request"
         := PStr (py "x" ++ LF ++ py "Reason:" ++ LF ++ py "y")]>
       (<[py "reason" := PStr (py "z")]> ∅)) fetch_ok log_ok
  = run (<[py "code_change_request" := PStr (py "x")]>
         (<[py "reason"
            := PStr (py "y" ++ LF ++ py "Reason:" ++ LF ++ py "z")]> ∅))
        fetch_ok log_ok.
Proof.
  destruct (run_multiline_request_ambiguous fetch_ok log_ok
              (py "x") (py "y") (py "z")) as [_ H].
  - vm_compute. discriminate.
  - vm_compute. discriminate.
  - exact H.
Defined.
